(** * simple-crl-server: the CRL cache-and-regeneration manager of [main.go]

    A shallow embedding of [main.go]: the registry loader
    ([loadRevokedCertificates]), the credential loader ([loadCertAndKey]),
    the cache manager ([getCRL]) and the artifact persistence
    ([saveCachedCRL], [loadCachedCRL]), with the properties the
    specification states about them; then the handler ([handleCRL]) and the
    startup ([main]), with what the code itself shows of all of these.

    Conventions.
    - Go [string] and file names are [string] (sequences of bytes); Go
      [[]byte] is [list byte].
    - [int], [int64] and [*big.Int] values are [Z]; the range of the
      fixed-width types is written out where the code depends on it.
    - A Go [(T, error)] result is [result T]; an [error] is the text of its
      message.
    - Files, the clock and the log are fields of a [World] that every
      operation threads through. *)

From Stdlib Require Import ZArith Lia Ascii String DecimalString DecimalPos.
From Stdlib.Strings Require Import Byte.
From stdpp Require Import base option list gmap strings sorting relations.

Local Open Scope Z_scope.

(** ** Results and errors *)

Definition error := string.

Inductive result (A : Type) : Type :=
| Ok (a : A)
| Err (e : error).
Arguments Ok {A} a.
Arguments Err {A} e.

Definition is_ok {A} (r : result A) : bool :=
  match r with Ok _ => true | Err _ => false end.

(** [fmt.Errorf("ctx: %w", err)] *)
Definition wrap (ctx : string) (e : error) : error := ctx +:+ ": " +:+ e.

(** ** The Go library functions [main.go] calls on strings *)

Module strings.

(** [strings.TrimSpace] drops the characters at both ends of a text for
    which [unicode.IsSpace] holds, the text being read as UTF-8.  These
    characters are U+0009 to U+000D, U+0020, U+0085, U+00A0, U+1680, U+2000
    to U+200A, U+2028, U+2029, U+202F, U+205F and U+3000; the decoder accepts
    one encoding of each, of one, two or three bytes.  A byte that starts no
    valid encoding decodes to U+FFFD, one byte wide, which is not white
    space. *)

(** [unicode.IsSpace] on a character of one byte: tab, line feed, vertical
    tab, form feed, carriage return and space. *)
Definition isSpace (c : ascii) : bool :=
  let n := nat_of_ascii c in
  ((9 <=? n)%nat && (n <=? 13)%nat) || (n =? 32)%nat.

(** On a character of two bytes: U+0085 and U+00A0. *)
Definition isSpace2 (a b : ascii) : bool :=
  let x := nat_of_ascii a in
  let y := nat_of_ascii b in
  ((x =? 0xC2) && ((y =? 0x85) || (y =? 0xA0)))%nat.

(** On a character of three bytes: U+1680, U+2000 to U+200A, U+2028,
    U+2029, U+202F, U+205F and U+3000. *)
Definition isSpace3 (a b c : ascii) : bool :=
  let x := nat_of_ascii a in
  let y := nat_of_ascii b in
  let z := nat_of_ascii c in
  (((x =? 0xE1) && (y =? 0x9A) && (z =? 0x80))
   || ((x =? 0xE2) && (y =? 0x80)
       && (((0x80 <=? z) && (z <=? 0x8A)) || (z =? 0xA8) || (z =? 0xA9) || (z =? 0xAF)))
   || ((x =? 0xE2) && (y =? 0x81) && (z =? 0x9F))
   || ((x =? 0xE3) && (y =? 0x80) && (z =? 0x80)))%nat.

(** Drops the white space at the start: character after character, as long
    as the next one is white space. *)
Fixpoint TrimLeft (s : string) : string :=
  match s with
  | String a s1 =>
      if isSpace a then TrimLeft s1
      else
        match s1 with
        | String b s2 =>
            if isSpace2 a b then TrimLeft s2
            else
              match s2 with
              | String c s3 => if isSpace3 a b c then TrimLeft s3 else s
              | EmptyString => s
              end
        | EmptyString => s
        end
  | EmptyString => EmptyString
  end.

(** Drops the white space at the end.  The library reads the characters
    from the end backwards, and stops at the first that is not white space:
    what it drops is the longest end of the text made of white-space
    characters only, so that a byte is kept unless the text from it on is
    white space only. *)
Fixpoint TrimRight (s : string) : string :=
  match s with
  | EmptyString => EmptyString
  | String c s' =>
      match TrimLeft s with
      | EmptyString => EmptyString
      | _ => String c (TrimRight s')
      end
  end.

Definition TrimSpace (s : string) : string := TrimRight (TrimLeft s).

Fixpoint HasPrefix (s p : string) {struct p} : bool :=
  match p, s with
  | EmptyString, _ => true
  | String a p', String b s' => if Ascii.eqb a b then HasPrefix s' p' else false
  | String _ _, EmptyString => false
  end.

Fixpoint drop (n : nat) (s : string) : string :=
  match n, s with
  | S n', String _ s' => drop n' s'
  | _, _ => s
  end.

Fixpoint take (n : nat) (s : string) : string :=
  match n, s with
  | S n', String c s' => String c (take n' s')
  | _, _ => EmptyString
  end.

Definition HasSuffix (s p : string) : bool :=
  (String.length p <=? String.length s)%nat &&
  String.eqb (drop (String.length s - String.length p) s) p.

Definition TrimPrefix (s p : string) : string :=
  if HasPrefix s p then drop (String.length p) s else s.

Definition TrimSuffix (s p : string) : string :=
  if HasSuffix s p then take (String.length s - String.length p) s else s.

(** [strings.Split(s, sep)] for a one-byte separator: [n] separators give
    [n + 1] fields. *)
Fixpoint Split (s : string) (sep : ascii) : list string :=
  match s with
  | EmptyString => [EmptyString]
  | String c s' =>
      if Ascii.eqb c sep then EmptyString :: Split s' sep
      else match Split s' sep with
           | f :: fs => String c f :: fs
           | [] => [String c EmptyString]
           end
  end.

End strings.

(** ** [strconv] and [math/big] number parsing, [%d] printing *)

Module strconv.

(** The value of a digit character, as both [strconv.ParseUint] and
    [big.Int.SetString] read it: ['0'..'9'], then letters of either case
    from ten up. *)
Definition digitVal (c : ascii) : option Z :=
  let n := Z.of_nat (nat_of_ascii c) in
  if (48 <=? n) && (n <=? 57) then Some (n - 48)
  else if (97 <=? n) && (n <=? 122) then Some (n - 97 + 10)
  else if (65 <=? n) && (n <=? 90) then Some (n - 65 + 10)
  else None.

(** The digit loop: every character must be a digit below [base]. *)
Fixpoint digits (base : Z) (s : string) (acc : Z) : option Z :=
  match s with
  | EmptyString => Some acc
  | String c s' =>
      match digitVal c with
      | Some d => if d <? base then digits base s' (acc * base + d) else None
      | None => None
      end
  end.

(** An optional sign, then at least one digit. *)
Definition signed (base : Z) (s : string) : option Z :=
  match s with
  | EmptyString => None
  | String c s' =>
      if Ascii.eqb c "+" then
        match s' with EmptyString => None | _ => digits base s' 0 end
      else if Ascii.eqb c "-" then
        match s' with
        | EmptyString => None
        | _ => Z.opp <$> digits base s' 0
        end
      else digits base s 0
  end.

Definition minInt64 : Z := - 2 ^ 63.
Definition maxInt64 : Z := 2 ^ 63 - 1.

(** [strconv.ParseInt(s, 10, 64)]: a syntax error or a value outside
    [int64] is an error ([None]). *)
Definition ParseInt (s : string) : option Z :=
  match signed 10 s with
  | Some n => if (minInt64 <=? n) && (n <=? maxInt64) then Some n else None
  | None => None
  end.

(** [strconv.Atoi(s)], with the 64-bit [int] of the platforms the server
    is built for. *)
Definition Atoi (s : string) : option Z := ParseInt s.

(** [fmt.Sprintf("%d", n)] and [big.Int.String()]. *)
Definition FormatInt (n : Z) : string := NilZero.string_of_int (Z.to_int n).

End strconv.

Module big.

(** [new(big.Int).SetString(s, base)] with an explicit base: an optional
    sign and then digits only, the whole string consumed. *)
Definition SetString (s : string) (base : Z) : option Z := strconv.signed base s.

(** [big.Int.String()] on a possibly nil pointer. *)
Definition String (n : option Z) : string :=
  match n with
  | Some z => strconv.FormatInt z
  | None => "<nil>"
  end.

End big.

(** ** Time

    An instant is the number of nanoseconds since the Unix epoch; the wall
    clock and the monotonic reading that [time.Now] records are taken to
    agree.  A [time.Duration] is an [int64] count of nanoseconds. *)

Module time.

Definition Time := Z.
Definition Duration := Z.

Definition Second : Duration := 1000000000.
Definition Hour : Duration := 3600 * Second.

Definition minDuration : Duration := - 2 ^ 63.
Definition maxDuration : Duration := 2 ^ 63 - 1.

Definition wrap64 (x : Z) : Z := (x + 2 ^ 63) mod 2 ^ 64 - 2 ^ 63.

(** Seconds from year 1 to 1970, the offset of [Time]'s internal count. *)
Definition unixToInternal : Z := 62135596800.

(** [time.Unix(sec, 0)]: the internal second count is an [int64] sum. *)
Definition Unix (sec : Z) : Time :=
  (wrap64 (sec + unixToInternal) - unixToInternal) * Second.

(** [t.Unix()] *)
Definition ToUnix (t : Time) : Z := wrap64 (t / Second).

(** [t.Sub(u)], saturating at the ends of [Duration]. *)
Definition Sub (t u : Time) : Duration :=
  Z.max minDuration (Z.min maxDuration (t - u)).

(** [t.Add(d)] *)
Definition Add (t : Time) (d : Duration) : Time := t + d.

End time.

Definition cacheDuration : time.Duration := 1 * time.Hour.

(** ** The world outside the process *)

(** What opening and reading one path gives: [Content data None] reads to
    the end of [data]; [Content data (Some e)] delivers [data] and then
    fails with [e] instead of reaching the end. *)
Inductive source :=
| NotExist
| OpenFails (e : error)
| Content (data : list byte) (readErr : option error).

(** An entry of the cache directory.  [Locked] is a file that can be neither
    read nor replaced. *)
Inductive node :=
| File (data : list byte)
| Dir
| Locked.

(** Calls of the collaborators and lines of the log, in the order they
    happen. *)
Inductive keyFormat := PKCS8 | PKCS1 | EC.

Inductive event :=
| EvLog (msg : string)
| EvLoadCertAndKey
| EvParseKey (f : keyFormat)
| EvCreateRevocationList.

Record World := mkWorld {
  w_crt : source;                          (* ./tls/tls.crt *)
  w_key : source;                          (* ./tls/tls.key *)
  w_list : source;                         (* ./conf/list.txt *)
  w_cache : option (gmap string node);     (* ./temp, [None]: cannot be listed or written *)
  w_clock : nat -> time.Time;              (* the successive readings of the clock *)
  w_reads : nat;                           (* how many readings were taken *)
  w_entropy : nat;                         (* how many draws [rand.Reader] has served *)
  w_trace : list event
}.

(** A computation that may read and change the world. *)
Definition M (A : Type) : Type := World -> A * World.

Definition ret {A} (a : A) : M A := fun w => (a, w).

Definition bind {A B} (m : M A) (k : A -> M B) : M B :=
  fun w => let (a, w') := m w in k a w'.

Notation "x <- m ;; k" := (bind m (fun x => k))
  (at level 100, m at next level, right associativity).
Notation "m ;;; k" := (bind m (fun _ => k))
  (at level 100, right associativity).

(** The world with [evs] appended to its trace. *)
Definition addTrace (w : World) (evs : list event) : World :=
  mkWorld (w_crt w) (w_key w) (w_list w) (w_cache w)
          (w_clock w) (w_reads w) (w_entropy w) (w_trace w ++ evs).

(** The world with another registry file. *)
Definition withList (w : World) (src : source) : World :=
  mkWorld (w_crt w) (w_key w) src (w_cache w)
          (w_clock w) (w_reads w) (w_entropy w) (w_trace w).

(** The world with another cache directory. *)
Definition withCache (w : World) (dir : option (gmap string node)) : World :=
  mkWorld (w_crt w) (w_key w) (w_list w) dir
          (w_clock w) (w_reads w) (w_entropy w) (w_trace w).

Definition emit (e : event) : M unit := fun w => (tt, addTrace w [e]).

(** [log.Println] and [log.Printf], the message already formatted. *)
Definition log (msg : string) : M unit := emit (EvLog msg).

(** The world after one more reading of the clock. *)
Definition tick (w : World) : World :=
  mkWorld (w_crt w) (w_key w) (w_list w) (w_cache w)
          (w_clock w) (S (w_reads w)) (w_entropy w) (w_trace w).

(** The world after one more draw from [rand.Reader]. *)
Definition draw (w : World) : World :=
  mkWorld (w_crt w) (w_key w) (w_list w) (w_cache w)
          (w_clock w) (w_reads w) (S (w_entropy w)) (w_trace w).

(** [time.Now()] takes the next reading of the clock. *)
Definition time_Now : M time.Time :=
  fun w => (w_clock w (w_reads w), tick w).

(** [time.Since(t)] *)
Definition time_Since (t : time.Time) : M time.Duration :=
  now <- time_Now ;; ret (time.Sub now t).

(** [filepath.Join(tlsDir, "tls.crt")] and [filepath.Join(tlsDir, "tls.key")] *)
Definition crtFile : string := "tls/tls.crt".
Definition keyFile : string := "tls/tls.key".

(** [os.ReadFile(path)], where [src] is what the path holds. *)
Definition readSource (path : string) (src : source) : result (list byte) :=
  match src with
  | NotExist => Err ("open " +:+ path +:+ ": no such file or directory")
  | OpenFails e => Err e
  | Content data None => Ok data
  | Content _ (Some e) => Err e
  end.

(** ** [bufio.Scanner] with [bufio.ScanLines] *)

Module bufio.

Definition MaxScanTokenSize : Z := 64 * 1024.

Definition ErrTooLong : error := "bufio.Scanner: token too long".

(** The bytes of a line, held last byte first, as the text of the token:
    one carriage return at the end is dropped. *)
Definition token (cur : list byte) : string :=
  string_of_list_byte
    (rev match cur with
         | x0d :: cur' => cur'
         | _ => cur
         end).

(** The tokens [Scan] yields on [data] and the error [Err] reports after
    the last of them.  [cur] holds the [n] bytes of the line being read.
    The buffer grows to [MaxScanTokenSize] bytes and no further: a line
    that fills it before its line feed arrives stops the scan with
    [ErrTooLong].  At the end of the input a last line without line feed
    is still a token, and the error of the reader, if any, is reported. *)
Fixpoint scan (data : list byte) (cur : list byte) (n : Z) (readErr : option error)
  : list string * option error :=
  match data with
  | [] => (match cur with [] => [] | _ => [token cur] end, readErr)
  | b :: rest =>
      if Byte.eqb b x0a then
        let (toks, e) := scan rest [] 0 readErr in (token cur :: toks, e)
      else if MaxScanTokenSize <=? n + 1 then ([], Some ErrTooLong)
      else scan rest (b :: cur) (n + 1) readErr
  end.

Definition ScanLines (data : list byte) (readErr : option error) :=
  scan data [] 0 readErr.

End bufio.

(** ** The registry loader *)

Record RevokedCert := mkRevokedCert {
  SerialNumber : Z;
  RevocationTime : time.Time;
  Reason : Z
}.

(** The body of the [for scanner.Scan()] loop of [loadRevokedCertificates],
    over the lines the scanner yields. *)
Fixpoint scanLoop (lines : list string) (lineNum : Z) (revokedCerts : list RevokedCert)
  : M (list RevokedCert) :=
  match lines with
  | [] => ret revokedCerts
  | text :: rest =>
      let lineNum := lineNum + 1 in
      let line := strings.TrimSpace text in
      if String.eqb line "" || strings.HasPrefix line "#" then
        scanLoop rest lineNum revokedCerts
      else
        match strings.Split line ":" with
        | [p0; p1; p2] =>
            match big.SetString p0 16 with
            | None =>
                log ("Warning: invalid serial number at line "
                       +:+ strconv.FormatInt lineNum +:+ ": " +:+ p0) ;;;
                scanLoop rest lineNum revokedCerts
            | Some serial =>
                match strconv.ParseInt p1 with
                | None =>
                    log ("Warning: invalid epoch at line "
                           +:+ strconv.FormatInt lineNum +:+ ": " +:+ p1) ;;;
                    scanLoop rest lineNum revokedCerts
                | Some epoch =>
                    let revocationTime := time.Unix epoch in
                    match strconv.Atoi p2 with
                    | None =>
                        log ("Warning: invalid reason code at line "
                               +:+ strconv.FormatInt lineNum +:+ ": " +:+ p2) ;;;
                        scanLoop rest lineNum revokedCerts
                    | Some reason =>
                        scanLoop rest lineNum
                          (revokedCerts ++ [mkRevokedCert serial revocationTime reason])
                    end
                end
            end
        | _ =>
            log ("Warning: invalid format at line "
                   +:+ strconv.FormatInt lineNum +:+ ": " +:+ line) ;;;
            scanLoop rest lineNum revokedCerts
        end
  end.

Definition loadRevokedCertificates : M (result (list RevokedCert)) :=
  fun w =>
    match w_list w with
    | NotExist => (Ok [], w)
    | OpenFails e => (Err (wrap "opening file" e), w)
    | Content data readErr =>
        let (lines, scanErr) := bufio.ScanLines data readErr in
        let (revokedCerts, w') := scanLoop lines 0 [] w in
        match scanErr with
        | Some e => (Err (wrap "reading file" e), w')
        | None => (Ok revokedCerts, w')
        end
    end.

(** ** The cache directory *)

Definition writeFailed : error := "open: permission denied".
Definition readFailed : error := "open: no such file or directory".

(** [os.WriteFile(filepath.Join(cacheDir, name), data, 0644)] *)
Definition os_WriteFile (name : string) (data : list byte) : M (option error) :=
  fun w =>
    match w_cache w with
    | None => (Some writeFailed, w)
    | Some dir =>
        match dir !! name with
        | Some Dir | Some Locked => (Some writeFailed, w)
        | Some (File _) | None =>
            (None, withCache w (Some (<[name := File data]> dir)))
        end
    end.

(** [os.ReadFile(filepath.Join(cacheDir, name))] *)
Definition os_ReadFile (name : string) : M (result (list byte)) :=
  fun w =>
    match w_cache w with
    | None => (Err readFailed, w)
    | Some dir =>
        match dir !! name with
        | Some (File data) => (Ok data, w)
        | _ => (Err readFailed, w)
        end
    end.

(** A directory entry: its name and [IsDir()]. *)
Definition DirEntry : Type := string * bool.

Definition isDir (n : node) : bool :=
  match n with Dir => true | _ => false end.

Definition nameLe (a b : DirEntry) : Prop := String.leb a.1 b.1 = true.

#[global] Instance nameLe_dec : RelDecision nameLe.
Proof. intros a b. unfold nameLe. apply _. Defined.

(** The entries of a directory, sorted by file name. *)
Definition listing (dir : gmap string node) : list DirEntry :=
  merge_sort nameLe (prod_map id isDir <$> map_to_list dir).

(** [os.ReadDir(cacheDir)] *)
Definition os_ReadDir : M (result (list DirEntry)) :=
  fun w =>
    match w_cache w with
    | None => (Err readFailed, w)
    | Some dir => (Ok (listing dir), w)
    end.

(** ** The server *)

Record CRLServer := mkCRLServer {
  cachedCRL : option (list byte);    (* [None] is the nil slice *)
  cacheTime : time.Time;
  cacheNumber : option Z             (* [None] is the nil pointer *)
}.

(** The zero [time.Time]: 1 January of year 1. *)
Definition zeroTime : time.Time := - time.unixToInternal * time.Second.

(** [&CRLServer{crtFile: ..., keyFile: ..., listFile: ...}] *)
Definition newServer : CRLServer := mkCRLServer None zeroTime None.

(** The bytes of a possibly nil slice. *)
Definition bytesOf (b : option (list byte)) : list byte := default [] b.

(** [s.cachedCRL != nil && time.Since(s.cacheTime) < cacheDuration]: the
    clock is read only when there is a cached artifact. *)
Definition cacheValid (s : CRLServer) : M bool :=
  match cachedCRL s with
  | None => ret false
  | Some _ => d <- time_Since (cacheTime s) ;; ret (d <? cacheDuration)
  end.

Definition saveCachedCRL (s : CRLServer) : M (option error) :=
  let cacheFile := "crl-" +:+ big.String (cacheNumber s) +:+ ".der" in
  err <- os_WriteFile cacheFile (bytesOf (cachedCRL s)) ;;
  match err with
  | Some e => ret (Some e)
  | None =>
      let metaFile := "crl-" +:+ big.String (cacheNumber s) +:+ ".meta" in
      let metaContent := strconv.FormatInt (time.ToUnix (cacheTime s)) +:+ String "010" "" in
      err <- os_WriteFile metaFile (list_byte_of_string metaContent) ;;
      match err with
      | Some e => ret (Some e)
      | None => ret None
      end
  end.

(** The three [latest...] variables of [loadCachedCRL].  [latestFile] is
    [None] for the empty string: a joined path is never empty. *)
Record Latest := mkLatest {
  latestNumber : option Z;
  latestTime : time.Time;
  latestFile : option string
}.

(** [latestNumber == nil || number.Cmp(latestNumber) > 0] *)
Definition isLater (number : Z) (latest : Latest) : bool :=
  match latestNumber latest with
  | None => true
  | Some l => l <? number
  end.

(** The body of the [for _, entry := range entries] loop of
    [loadCachedCRL]. *)
Fixpoint recoverLoop (entries : list DirEntry) (latest : Latest) : M Latest :=
  match entries with
  | [] => ret latest
  | (name, entryIsDir) :: rest =>
      if entryIsDir then recoverLoop rest latest
      else if negb (strings.HasPrefix name "crl-") || negb (strings.HasSuffix name ".der")
      then recoverLoop rest latest
      else
        let numberStr := strings.TrimSuffix (strings.TrimPrefix name "crl-") ".der" in
        match big.SetString numberStr 10 with
        | None => recoverLoop rest latest
        | Some number =>
            if isLater number latest then
              r <- os_ReadFile ("crl-" +:+ numberStr +:+ ".meta") ;;
              match r with
              | Err _ => recoverLoop rest latest
              | Ok metaContent =>
                  match strconv.ParseInt (strings.TrimSpace (string_of_list_byte metaContent)) with
                  | None => recoverLoop rest latest
                  | Some timestamp =>
                      let cacheTime := time.Unix timestamp in
                      d <- time_Since cacheTime ;;
                      if d <? cacheDuration then
                        recoverLoop rest (mkLatest (Some number) cacheTime (Some name))
                      else recoverLoop rest latest
                  end
              end
            else recoverLoop rest latest
        end
  end.

Definition loadCachedCRL (s : CRLServer) : M CRLServer :=
  r <- os_ReadDir ;;
  match r with
  | Err _ => ret s
  | Ok entries =>
      latest <- recoverLoop entries (mkLatest None zeroTime None) ;;
      match latestFile latest with
      | None => ret s
      | Some file =>
          r <- os_ReadFile file ;;
          match r with
          | Err _ => ret s
          | Ok crlBytes =>
              log ("Loaded cached CRL with number " +:+ big.String (latestNumber latest)) ;;;
              ret (mkCRLServer (Some crlBytes) (latestTime latest) (latestNumber latest))
          end
      end
  end.

(** ** The collaborators: PEM and X.509 *)

Record RevocationListEntry := mkEntry {
  entrySerialNumber : Z;
  entryRevocationTime : time.Time;
  entryReasonCode : Z
}.

Record RevocationList := mkRevocationList {
  Number : Z;
  ThisUpdate : time.Time;
  NextUpdate : time.Time;
  RevokedCertificateEntries : list RevocationListEntry
}.

(** The PEM and X.509 routines of the Go library, which the server only
    calls: [*x509.Certificate], the [interface{}] the key parsers return and
    [crypto.Signer] are opaque. *)
Class X509 := {
  Certificate : Type;
  PrivateKey : Type;
  Signer : Type;
  (** [pem.Decode]: the bytes of the first block, if there is one. *)
  pem_Decode : list byte -> option (list byte);
  x509_ParseCertificate : list byte -> result Certificate;
  x509_ParsePKCS8PrivateKey : list byte -> result PrivateKey;
  x509_ParsePKCS1PrivateKey : list byte -> result PrivateKey;
  x509_ParseECPrivateKey : list byte -> result PrivateKey;
  (** The type assertion [caPrivKey.(crypto.Signer)]. *)
  asSigner : PrivateKey -> option Signer;
  (** [x509.CreateRevocationList(rand.Reader, template, caCert, caPrivKey)];
      the first argument is the position of [rand.Reader]. *)
  x509_CreateRevocationList :
    nat -> RevocationList -> Certificate -> Signer -> result (list byte)
}.

Section Server.

Context `{X509}.

(** The nested [if err != nil] of the key decoding: PKCS#8 first, then
    PKCS#1, then EC. *)
Definition parseKey (der : list byte) : M (result PrivateKey) :=
  emit (EvParseKey PKCS8) ;;;
  match x509_ParsePKCS8PrivateKey der with
  | Ok k => ret (Ok k)
  | Err _ =>
      emit (EvParseKey PKCS1) ;;;
      match x509_ParsePKCS1PrivateKey der with
      | Ok k => ret (Ok k)
      | Err _ =>
          emit (EvParseKey EC) ;;;
          match x509_ParseECPrivateKey der with
          | Ok k => ret (Ok k)
          | Err e => ret (Err (wrap "parsing key" e))
          end
      end
  end.

Definition loadCertAndKey : M (result (Certificate * Signer)) :=
  emit EvLoadCertAndKey ;;;
  fun w =>
    match readSource crtFile (w_crt w) with
    | Err e => (Err (wrap "reading cert file" e), w)
    | Ok certData =>
        match pem_Decode certData with
        | None => (Err "failed to parse certificate PEM", w)
        | Some block =>
            match x509_ParseCertificate block with
            | Err e => (Err (wrap "parsing certificate" e), w)
            | Ok caCert =>
                match readSource keyFile (w_key w) with
                | Err e => (Err (wrap "reading key file" e), w)
                | Ok keyData =>
                    match pem_Decode keyData with
                    | None => (Err "failed to parse key PEM", w)
                    | Some block =>
                        (r <- parseKey block ;;
                         match r with
                         | Err e => ret (Err e)
                         | Ok caPrivKey =>
                             match asSigner caPrivKey with
                             | None => ret (Err "key does not implement crypto.Signer")
                             | Some signer => ret (Ok (caCert, signer))
                             end
                         end) w
                    end
                end
            end
        end
    end.

Definition createRevocationList (template : RevocationList)
    (caCert : Certificate) (caPrivKey : Signer) : M (result (list byte)) :=
  emit EvCreateRevocationList ;;;
  fun w =>
    (x509_CreateRevocationList (w_entropy w) template caCert caPrivKey, draw w).

Definition toEntry (rc : RevokedCert) : RevocationListEntry :=
  mkEntry (SerialNumber rc) (RevocationTime rc) (Reason rc).

(** [getCRL] from "Load certificate and key" on, in four parts: the work
    done under the exclusive lock once the cache was found stale. *)

(** Lines 117-122: load certificate and key. *)
Definition regenCredentials : M (result (Certificate * Signer)) :=
  log "Loading certificate and key..." ;;;
  loadCertAndKey.

(** Lines 124-130: load the revoked certificates. *)
Definition regenRegistry : M (result (list RevokedCert)) :=
  log "Loading revocation list..." ;;;
  r <- loadRevokedCertificates ;;
  match r with
  | Err e => ret (Err e)
  | Ok revokedCerts =>
      log ("Loaded " +:+ strconv.FormatInt (Z.of_nat (length revokedCerts))
             +:+ " revoked certificate(s)") ;;;
      ret (Ok revokedCerts)
  end.

(** Lines 132-155: the template and the encoding. *)
Definition regenEncode (revokedCerts : list RevokedCert)
    (caCert : Certificate) (caPrivKey : Signer)
  : M (time.Time * Z * result (list byte)) :=
  now <- time_Now ;;
  let crlNumber := time.ToUnix now in
  let template :=
    mkRevocationList crlNumber now (time.Add now cacheDuration)
                     (toEntry <$> revokedCerts) in
  r <- createRevocationList template caCert caPrivKey ;;
  ret (now, crlNumber, r).

(** Lines 162-167: save to disk, a failure is logged only. *)
Definition regenPersist (s : CRLServer) (crlNumber : Z) : M unit :=
  err <- saveCachedCRL s ;;
  match err with
  | Some e => log ("Warning: failed to save CRL to cache: " +:+ e)
  | None => ret tt
  end ;;;
  log ("Generated new CRL with number " +:+ strconv.FormatInt crlNumber).

Definition regenerate (s : CRLServer) : M (result (list byte) * CRLServer) :=
  r <- regenCredentials ;;
  match r with
  | Err e => ret (Err (wrap "loading certificate and key" e), s)
  | Ok (caCert, caPrivKey) =>
      r <- regenRegistry ;;
      match r with
      | Err e => ret (Err (wrap "loading revoked certificates" e), s)
      | Ok revokedCerts =>
          enc <- regenEncode revokedCerts caCert caPrivKey ;;
          let '(now, crlNumber, r) := enc in
          match r with
          | Err e => ret (Err (wrap "creating CRL" e), s)
          | Ok crlBytes =>
              (* Update cache *)
              let s := mkCRLServer (Some crlBytes) (cacheTime s) (cacheNumber s) in
              let s := mkCRLServer (cachedCRL s) now (cacheNumber s) in
              let s := mkCRLServer (cachedCRL s) (cacheTime s) (Some crlNumber) in
              regenPersist s crlNumber ;;;
              ret (Ok crlBytes, s)
          end
      end
  end.

(** [getCRL] as one goroutine runs it, alone: the check under the shared
    lock, the check again under the exclusive lock, the regeneration. *)
Definition getCRL (s : CRLServer) : M (result (list byte) * CRLServer) :=
  valid <- cacheValid s ;;
  if valid then ret (Ok (bytesOf (cachedCRL s)), s)
  else
    valid <- cacheValid s ;;
    if valid then ret (Ok (bytesOf (cachedCRL s)), s)
    else regenerate s.

End Server.

(** ** The registry format as the specification words it

    Blank lines and comment lines (the first character that is not white
    space marks a comment) are skipped.  Any other line is expected to hold
    exactly three fields separated by colons: a hexadecimal serial number, a
    decimal Unix-epoch revocation time, a decimal reason code; such a line is
    accepted, and every other line is reported and skipped. *)

Module RegistrySpec.

Definition blank (text : string) : bool :=
  String.eqb (strings.TrimLeft text) "".

Definition comment (text : string) : bool :=
  strings.HasPrefix (strings.TrimLeft text) "#".

Definition entry (text : string) : option RevokedCert :=
  match strings.Split (strings.TrimSpace text) ":" with
  | [serial; epoch; reason] =>
      match big.SetString serial 16, strconv.ParseInt epoch, strconv.Atoi reason with
      | Some n, Some e, Some r => Some (mkRevokedCert n (time.Unix e) r)
      | _, _, _ => None
      end
  | _ => None
  end.

Inductive verdict :=
| Skipped
| Reported
| Accepted (rc : RevokedCert).

Definition classify (text : string) : verdict :=
  if blank text || comment text then Skipped
  else match entry text with
       | Some rc => Accepted rc
       | None => Reported
       end.

Definition accepted (text : string) : option RevokedCert :=
  match classify text with Accepted rc => Some rc | _ => None end.

Definition isReported (text : string) : bool :=
  match classify text with Reported => true | _ => false end.

(** The entries of a registry, in line order, and the number of its lines
    that are reported. *)
Definition entries (lines : list string) : list RevokedCert := omap accepted lines.

Definition reported (lines : list string) : nat :=
  length (List.filter isReported lines).

End RegistrySpec.

(** A line of the log that is a warning. *)
Definition isWarning (e : event) : bool :=
  match e with
  | EvLog msg => strings.HasPrefix msg "Warning:"
  | _ => false
  end.

(** The registry of the specification's example, one entry per line. *)
Definition exampleRegistry : list byte :=
  list_byte_of_string
    ("BADHEX:100:1" +:+ String "010"
       ("" +:+ String "010"
          ("# comment" +:+ String "010"
             ("1A2B:1700000000:1" +:+ String "010" "")))).

(** What [loadRevokedCertificates] returns, as a function of the registry
    source alone. *)
Definition registryResult (src : source) : result (list RevokedCert) :=
  match src with
  | NotExist => Ok []
  | OpenFails e => Err (wrap "opening file" e)
  | Content data readErr =>
      match bufio.ScanLines data readErr with
      | (_, Some e) => Err (wrap "reading file" e)
      | (lines, None) => Ok (RegistrySpec.entries lines)
      end
  end.

(** Every event of [ws] is a warning of the log. *)
Definition allWarnings (ws : list event) : Prop := Forall (fun e => isWarning e = true) ws.

(** ** What the operations compute, apart from the world they thread

    Each operation of the server is a function of a few fields of the world
    and changes a few: these definitions name the value, and [evolve] the
    change. *)

(** The world after [ticks] more readings of the clock and [draws] more
    draws of entropy, with cache directory [cache] and [evs] appended to the
    trace. *)
Definition evolve (w : World) (ticks draws : nat)
    (cache : option (gmap string node)) (evs : list event) : World :=
  mkWorld (w_crt w) (w_key w) (w_list w) cache
          (w_clock w) (ticks + w_reads w) (draws + w_entropy w) (w_trace w ++ evs).

#[global] Instance keyFormat_eq_dec : EqDecision keyFormat.
Proof. solve_decision. Defined.

#[global] Instance event_eq_dec : EqDecision event.
Proof. solve_decision. Defined.

(** How many times [e] occurs in a trace. *)
Definition calls (e : event) (tr : list event) : nat :=
  length (filter (fun x => x = e) tr).

(** A call of the credential loader or of the encoding primitive. *)
Definition isCall (e : event) : bool :=
  match e with
  | EvLoadCertAndKey | EvCreateRevocationList => true
  | _ => false
  end.

(** No such call among [evs]. *)
Definition quiet (evs : list event) : Prop := Forall (fun e => isCall e = false) evs.

(** The directory after [os.WriteFile], and its error. *)
Definition dirWrite (dir : option (gmap string node)) (name : string) (data : list byte)
  : option error * option (gmap string node) :=
  match dir with
  | None => (Some writeFailed, None)
  | Some d =>
      match d !! name with
      | Some Dir | Some Locked => (Some writeFailed, dir)
      | Some (File _) | None => (None, Some (<[name := File data]> d))
      end
  end.

Definition derName (number : option Z) : string := "crl-" +:+ big.String number +:+ ".der".
Definition metaName (number : option Z) : string := "crl-" +:+ big.String number +:+ ".meta".
Definition metaBytes (t : time.Time) : list byte :=
  list_byte_of_string (strconv.FormatInt (time.ToUnix t) +:+ String "010" "").

(** The directory after [saveCachedCRL], and its error. *)
Definition dirSave (s : CRLServer) (dir : option (gmap string node))
  : option error * option (gmap string node) :=
  match dirWrite dir (derName (cacheNumber s)) (bytesOf (cachedCRL s)) with
  | (Some e, dir1) => (Some e, dir1)
  | (None, dir1) => dirWrite dir1 (metaName (cacheNumber s)) (metaBytes (cacheTime s))
  end.

(** The cache is stale at instant [t]. *)
Definition staleAt (s : CRLServer) (t : time.Time) : bool :=
  match cachedCRL s with
  | None => true
  | Some _ => negb (time.Sub t (cacheTime s) <? cacheDuration)
  end.

Section Readings.

Context `{X509}.

Definition keyResult (der : list byte) : result PrivateKey :=
  match x509_ParsePKCS8PrivateKey der with
  | Ok k => Ok k
  | Err _ =>
      match x509_ParsePKCS1PrivateKey der with
      | Ok k => Ok k
      | Err _ =>
          match x509_ParseECPrivateKey der with
          | Ok k => Ok k
          | Err e => Err (wrap "parsing key" e)
          end
      end
  end.

(** The decodings attempted on [der], in order. *)
Definition keyAttempts (der : list byte) : list keyFormat :=
  match x509_ParsePKCS8PrivateKey der with
  | Ok _ => [PKCS8]
  | Err _ =>
      match x509_ParsePKCS1PrivateKey der with
      | Ok _ => [PKCS8; PKCS1]
      | Err _ => [PKCS8; PKCS1; EC]
      end
  end.

Definition credentialsResult (crt key : source) : result (Certificate * Signer) :=
  match readSource crtFile crt with
  | Err e => Err (wrap "reading cert file" e)
  | Ok certData =>
      match pem_Decode certData with
      | None => Err "failed to parse certificate PEM"
      | Some block =>
          match x509_ParseCertificate block with
          | Err e => Err (wrap "parsing certificate" e)
          | Ok caCert =>
              match readSource keyFile key with
              | Err e => Err (wrap "reading key file" e)
              | Ok keyData =>
                  match pem_Decode keyData with
                  | None => Err "failed to parse key PEM"
                  | Some block =>
                      match keyResult block with
                      | Err e => Err e
                      | Ok caPrivKey =>
                          match asSigner caPrivKey with
                          | None => Err "key does not implement crypto.Signer"
                          | Some signer => Ok (caCert, signer)
                          end
                      end
                  end
              end
          end
      end
  end.

Definition templateOf (revokedCerts : list RevokedCert) (now : time.Time) : RevocationList :=
  mkRevocationList (time.ToUnix now) now (time.Add now cacheDuration) (toEntry <$> revokedCerts).

(** How a regeneration started in world [w] ends. *)
Inductive outcome :=
| CredentialsFailed (e : error)
| RegistryFailed (e : error)
| EncodingFailed (e : error)
| Regenerated (crlBytes : list byte) (now : time.Time) (crlNumber : Z).

Definition outcomeOf (w : World) : outcome :=
  match credentialsResult (w_crt w) (w_key w) with
  | Err e => CredentialsFailed e
  | Ok (caCert, caPrivKey) =>
      match registryResult (w_list w) with
      | Err e => RegistryFailed e
      | Ok revokedCerts =>
          let now := w_clock w (w_reads w) in
          match x509_CreateRevocationList (w_entropy w) (templateOf revokedCerts now)
                                          caCert caPrivKey with
          | Err e => EncodingFailed e
          | Ok crlBytes => Regenerated crlBytes now (time.ToUnix now)
          end
      end
  end.

End Readings.

(** [getCRL] finds the cache stale, at both of its checks. *)
Definition triggers (s : CRLServer) (w : World) : bool :=
  match cachedCRL s with
  | None => true
  | Some _ =>
      staleAt s (w_clock w (w_reads w)) && staleAt s (w_clock w (S (w_reads w)))
  end.

(** The world in which the regeneration then starts. *)
Definition regenWorld (s : CRLServer) (w : World) : World :=
  match cachedCRL s with
  | None => w
  | Some _ => tick (tick w)
  end.

(** No line feed among the bytes of [line]. *)
Definition noLineFeed (line : list byte) : bool :=
  forallb (fun b => negb (Byte.eqb b x0a)) line.

(** The registry starts a line after [before]. *)
Definition startsLine (before : list byte) : Prop :=
  before = [] \/ exists b, before = b ++ [x0a].

(** A registry with one good entry, then a line of 65536 letters. *)
Definition longRegistry : list byte :=
  (list_byte_of_string "1A2B:1700000000:1" ++ [x0a])
    ++ replicate (Z.to_nat bufio.MaxScanTokenSize) x41 ++ [x0a].

(** The text [p] occurs in [s]. *)
Fixpoint contains (s p : string) : bool :=
  strings.HasPrefix s p ||
  match s with
  | EmptyString => false
  | String _ s' => contains s' p
  end.

(** A description names a key format. *)
Definition mentions (description : string) (f : keyFormat) : bool :=
  match f with
  | PKCS8 => contains description "PKCS8" || contains description "PKCS#8"
  | PKCS1 => contains description "PKCS1" || contains description "PKCS#1"
  | EC => contains description "EC"
  end.

(** ** A small instance of the collaborators, to run the server on

    Certificates and keys are their own bytes.  The first byte of a key
    block says which decoder accepts it, a key of one byte cannot sign, and
    the encoded list is the decimal text of its number and of the count of
    its entries; a template whose number is zero is refused. *)
Definition toyParse (tag : byte) (failure : string) (der : list byte) : result (list byte) :=
  match der with
  | b :: _ => if Byte.eqb b tag then Ok der else Err failure
  | [] => Err failure
  end.

Definition toyX509 : X509 := {|
  Certificate := list byte;
  PrivateKey := list byte;
  Signer := list byte;
  pem_Decode data := match data with [] => None | _ => Some data end;
  x509_ParseCertificate der := Ok der;
  x509_ParsePKCS8PrivateKey :=
    toyParse x08 "asn1: structure error: tags don't match";
  x509_ParsePKCS1PrivateKey :=
    toyParse x01 "asn1: structure error: tags don't match";
  x509_ParseECPrivateKey :=
    toyParse x0e "x509: failed to parse EC private key: asn1: structure error: tags don't match";
  asSigner k := match k with [_] => None | _ => Some k end;
  x509_CreateRevocationList n template caCert caPrivKey :=
    match Number template with
    | 0 => Err "x509: template contains nil Number field"
    | _ =>
        Ok (list_byte_of_string
              (strconv.FormatInt (Number template) +:+ "/"
                 +:+ strconv.FormatInt (Z.of_nat (length (RevokedCertificateEntries template)))))
    end
|}.

(** A world whose clock stands still at [now]. *)
Definition toyWorld (crt key list : source) (cache : option (gmap string node))
    (now : time.Time) : World :=
  mkWorld crt key list cache (fun _ => now) 0 0 [].

(** The error of a failed key decoding names every format that was
    attempted: what the specification asks of the credential loader. *)
Definition errorStatesAttempts (X : X509) : Prop :=
  forall der w e,
    (parseKey der w).1 = Err e ->
    forall f, f ∈ keyAttempts der -> mentions e f = true.

(** ** The lifetime of a process

    Between two requests the world may change in any way - files are
    rotated, the cache directory is touched, the clock is read - but the
    clock itself is the same. *)

Definition monotoneClock (clock : nat -> time.Time) : Prop :=
  forall i j, (i <= j)%nat -> clock i <= clock j.

(** Every reading of the clock has a Unix second that fits [int64]. *)
Definition saneClock (clock : nat -> time.Time) : Prop :=
  forall i, strconv.minInt64 <= clock i / time.Second <= strconv.maxInt64.

Definition envStep (w w' : World) : Prop :=
  w_clock w' = w_clock w /\ (w_reads w <= w_reads w')%nat.

(** The number of the artifact a request generated, if it generated one.  A
    request regenerates when it finds the cache stale at both of its checks;
    the regeneration is successful when the request then returns without
    error, and its number is the one the server holds afterwards. *)
Definition generated (s : CRLServer) (w : World) (r : result (list byte))
    (s' : CRLServer) : list Z :=
  if triggers s w && is_ok r then option_list (cacheNumber s') else [].

(** [lifetime s w ns]: from server [s] in world [w] the process can serve
    requests, one after the other, in which the artifacts generated have the
    numbers [ns], in this order. *)
Inductive lifetime `{X509} : CRLServer -> World -> list Z -> Prop :=
| life_end s w :
    lifetime s w []
| life_env s w w' ns :
    envStep w w' -> lifetime s w' ns -> lifetime s w ns
| life_request s w r s' w' ns :
    getCRL s w = (r, s', w') -> lifetime s' w' ns ->
    lifetime s w (generated s w r s' ++ ns).

(** A clock that shows one hour more at each of its first readings. *)
Definition hourlyClock (i : nat) : time.Time :=
  1700000000 * time.Second + Z.of_nat (Nat.min i 8) * time.Hour.

Definition hourlyWorld : World :=
  mkWorld (Content [x01] None) (Content [x08; x02] None) NotExist (Some ∅)
          hourlyClock 0 0 [].

(** ** Decimal numerals *)

(** The number a decimal numeral denotes, read digit by digit after [acc]. *)
Fixpoint uval (d : Decimal.uint) (acc : Z) : Z :=
  match d with
  | Decimal.Nil => acc
  | Decimal.D0 d => uval d (acc * 10 + 0)
  | Decimal.D1 d => uval d (acc * 10 + 1)
  | Decimal.D2 d => uval d (acc * 10 + 2)
  | Decimal.D3 d => uval d (acc * 10 + 3)
  | Decimal.D4 d => uval d (acc * 10 + 4)
  | Decimal.D5 d => uval d (acc * 10 + 5)
  | Decimal.D6 d => uval d (acc * 10 + 6)
  | Decimal.D7 d => uval d (acc * 10 + 7)
  | Decimal.D8 d => uval d (acc * 10 + 8)
  | Decimal.D9 d => uval d (acc * 10 + 9)
  end.

(** The width in bytes of the white-space character [s] starts with, 0
    when it starts with none. *)
Definition spaceWidth (s : string) : nat :=
  match s with
  | String a s1 =>
      if strings.isSpace a then 1
      else
        match s1 with
        | String b s2 =>
            if strings.isSpace2 a b then 2
            else
              match s2 with
              | String c _ => if strings.isSpace3 a b c then 3 else 0
              | EmptyString => 0
              end
        | EmptyString => 0
        end
  | EmptyString => 0
  end%nat.

(** An ASCII character that is not white space. *)
Definition isPlain (c : ascii) : bool :=
  negb (strings.isSpace c) && (nat_of_ascii c <? 128)%nat.

(** An ASCII text without white space. *)
Fixpoint noSpace (s : string) : bool :=
  match s with
  | EmptyString => true
  | String c s' => isPlain c && noSpace s'
  end.

(** ** Recovery, as a choice among the pairs of the directory *)

(** The clock stands at [now] from the next reading on. *)
Definition clockStands (w : World) (now : time.Time) : Prop :=
  forall i, (w_reads w <= i)%nat -> w_clock w i = now.

(** What the body of the recovery loop finds in one entry before it looks
    at the clock: the number, the time and the file it would record. *)
Definition pairOf (dir : gmap string node) (entry : DirEntry)
  : option (Z * time.Time * string) :=
  let '(name, entryIsDir) := entry in
  if entryIsDir then None
  else if negb (strings.HasPrefix name "crl-") || negb (strings.HasSuffix name ".der")
  then None
  else
    let numberStr := strings.TrimSuffix (strings.TrimPrefix name "crl-") ".der" in
    match big.SetString numberStr 10 with
    | None => None
    | Some number =>
        match dir !! ("crl-" +:+ numberStr +:+ ".meta") with
        | Some (File metaContent) =>
            match strconv.ParseInt (strings.TrimSpace (string_of_list_byte metaContent)) with
            | None => None
            | Some timestamp => Some (number, time.Unix timestamp, name)
            end
        | _ => None
        end
    end.

Definition noLatest : Latest := mkLatest None zeroTime None.

(** [latest] holds a number, and it is [n] or more. *)
Definition atLeast (n : Z) (latest : Latest) : Prop := isLater n latest = false.

(** The server after the payload of the selected pair was read. *)
Definition restored (s : CRLServer) (dir : gmap string node) (latest : Latest) : CRLServer :=
  match latestFile latest with
  | None => s
  | Some file =>
      match dir !! file with
      | Some (File crlBytes) =>
          mkCRLServer (Some crlBytes) (latestTime latest) (latestNumber latest)
      | _ => s
      end
  end.

(** The payload file [name] and its metadata are a pair, with number
    [number] and generation time [t]: the file is in the directory and is
    "crl-", a decimal number, ".der"; and its metadata file can be read and
    holds a decimal timestamp, white space around it apart. *)
Definition paired (dir : gmap string node) (name : string) (number : Z) (t : time.Time)
  : Prop :=
  (exists nd, dir !! name = Some nd /\ isDir nd = false)
  /\ exists numberStr metaContent timestamp,
      name = "crl-" +:+ numberStr +:+ ".der"
      /\ big.SetString numberStr 10 = Some number
      /\ dir !! ("crl-" +:+ numberStr +:+ ".meta") = Some (File metaContent)
      /\ strconv.ParseInt (strings.TrimSpace (string_of_list_byte metaContent))
         = Some timestamp
      /\ t = time.Unix timestamp.

(** The pair qualifies at instant [now]: its time is less than the
    freshness window before [now], as [time.Since(t) < cacheDuration] tests
    it - a time after [now] passes. *)
Definition qualifies (dir : gmap string node) (now : time.Time)
    (name : string) (number : Z) (t : time.Time) : Prop :=
  paired dir name number t /\ time.Sub now t < cacheDuration.

(** Recovery as the specification states it does not depend on the order
    in which the entries of the directory are scanned. *)
Definition orderIndependent (dir : gmap string node) (w : World) : Prop :=
  forall entries,
    entries ≡ₚ listing dir ->
    (recoverLoop entries noLatest w).1 = (recoverLoop (listing dir) noLatest w).1.

(** Persist, then recover, as the specification states it: what
    [saveCachedCRL] wrote into the directory [dir], a recovery that finds it
    fresh at instant [now] restores. *)
Definition roundTrip (s : CRLServer) (dir : gmap string node) (now : time.Time) : Prop :=
  forall crlBytes n w w2,
    cachedCRL s = Some crlBytes ->
    cacheNumber s = Some n ->
    w_cache w = Some dir ->
    (saveCachedCRL s w).1 = None ->
    w_cache w2 = w_cache (saveCachedCRL s w).2 ->
    clockStands w2 now ->
    time.Sub now (time.Unix (time.ToUnix (cacheTime s))) < cacheDuration ->
    (loadCachedCRL newServer w2).1
    = mkCRLServer (Some crlBytes) (time.Unix (time.ToUnix (cacheTime s))) (Some n).

(** A cache directory with two pairs: number 200, generated long ago, and
    number 100, generated at second 1700000000. *)
Definition twoPairs : gmap string node :=
  <["crl-100.der" := File [x01]]>
    (<["crl-100.meta" := File (metaBytes (time.Unix 1700000000))]>
       (<["crl-200.der" := File [x02]]>
          (<["crl-200.meta" := File (metaBytes (time.Unix 1600000000))]> ∅))).

(** Two pairs whose names are written differently and parse to the same
    number, both generated at second 1700000000. *)
Definition tiedPairs : gmap string node :=
  <["crl-5.der" := File [x05]]>
    (<["crl-5.meta" := File (metaBytes (time.Unix 1700000000))]>
       (<["crl-05.der" := File [x50]]>
          (<["crl-05.meta" := File (metaBytes (time.Unix 1700000000))]> ∅))).

(** Number 100, generated at second 1700000000, and number 50, generated
    later. *)
Definition agingPairs : gmap string node :=
  <["crl-100.der" := File [x01]]>
    (<["crl-100.meta" := File (metaBytes (time.Unix 1700000000))]>
       (<["crl-50.der" := File [x02]]>
          (<["crl-50.meta" := File (metaBytes (time.Unix 1700001000))]> ∅))).

(** A clock that shows second 1700003599 at its first reading and second
    1700003600 from then on: number 100 of [agingPairs] expires in
    between. *)
Definition agingWorld : World :=
  mkWorld NotExist NotExist NotExist (Some agingPairs)
          (fun i => match i with
                    | O => 1700003599 * time.Second
                    | _ => 1700003600 * time.Second
                    end) 0 0 [].

(** A directory that holds a pair numbered 1800000000, generated at second
    1700000050. *)
Definition otherPair : gmap string node :=
  <["crl-1800000000.der" := File [x09]]>
    (<["crl-1800000000.meta" := File (metaBytes (time.Unix 1700000050))]> ∅).

(** A metadata file in which U+00A0 comes before the timestamp and U+2003
    after it. *)
Definition paddedPair : gmap string node :=
  <["crl-7.der" := File [x07]]>
    (<["crl-7.meta" :=
         File ([xc2; xa0] ++ list_byte_of_string "1700000000" ++ [xe2; x80; x83; x0a])]> ∅).

(** ** Concurrent requests

    Each request is a goroutine running [getCRL]; the goroutines share the
    server, its [sync.RWMutex] and the world, and their steps interleave in
    any order.  A step is what a goroutine does between two points at which
    another one may run: taking or releasing the lock, one check of the
    cache, one call of a collaborator, one assignment to a field of the
    server.

    [RLock] can be taken when no goroutine holds the exclusive lock, [Lock]
    when no goroutine holds the lock in either way.  Go's mutex also makes
    readers that arrive wait behind a writer that waits; that removes
    interleavings and adds none. *)

Record RWMutex := mkRWMutex {
  readers : nat;      (* goroutines that hold the shared lock *)
  writer : bool       (* a goroutine holds the exclusive lock *)
}.

Section Concurrency.

Context `{X509}.

(** Where a goroutine stands in [getCRL], with the local variables it has
    set. *)
Inductive pc :=
| AtRLock                                            (* line 100 *)
| AtCheck                                            (* line 102 *)
| AtReturnCached                                     (* lines 103-104 *)
| AtRUnlock                                          (* line 106 *)
| AtLock                                             (* line 109 *)
| AtRecheck                                          (* line 113 *)
| AtLoadCredentials                                  (* lines 118-122 *)
| AtLoadRegistry (caCert : Certificate) (caPrivKey : Signer)   (* lines 125-130 *)
| AtEncode (caCert : Certificate) (caPrivKey : Signer)
           (revokedCerts : list RevokedCert)         (* lines 133-155 *)
| AtSetCRL (now : time.Time) (crlNumber : Z) (crlBytes : list byte)      (* line 158 *)
| AtSetTime (now : time.Time) (crlNumber : Z) (crlBytes : list byte)     (* line 159 *)
| AtSetNumber (now : time.Time) (crlNumber : Z) (crlBytes : list byte)   (* line 160 *)
| AtSave (crlNumber : Z) (crlBytes : list byte)      (* lines 163-167 *)
| AtReturn (r : result (list byte))                  (* the deferred Unlock *)
| Done (r : result (list byte)).

(** One step of a goroutine; [None] when it is blocked or has returned. *)
Definition threadStep (p : pc) (s : CRLServer) (mu : RWMutex) (w : World)
  : option (pc * CRLServer * RWMutex * World) :=
  match p with
  | AtRLock =>
      if writer mu then None
      else Some (AtCheck, s, mkRWMutex (S (readers mu)) (writer mu), w)
  | AtCheck =>
      let (valid, w') := cacheValid s w in
      Some (if valid then AtReturnCached else AtRUnlock, s, mu, w')
  | AtReturnCached =>
      Some (Done (Ok (bytesOf (cachedCRL s))), s,
            mkRWMutex (pred (readers mu)) (writer mu), w)
  | AtRUnlock =>
      Some (AtLock, s, mkRWMutex (pred (readers mu)) (writer mu), w)
  | AtLock =>
      if writer mu || negb (readers mu =? 0)%nat then None
      else Some (AtRecheck, s, mkRWMutex (readers mu) true, w)
  | AtRecheck =>
      let (valid, w') := cacheValid s w in
      Some (if valid then AtReturn (Ok (bytesOf (cachedCRL s))) else AtLoadCredentials,
            s, mu, w')
  | AtLoadCredentials =>
      let (r, w') := regenCredentials w in
      Some (match r with
            | Err e => AtReturn (Err (wrap "loading certificate and key" e))
            | Ok (caCert, caPrivKey) => AtLoadRegistry caCert caPrivKey
            end, s, mu, w')
  | AtLoadRegistry caCert caPrivKey =>
      let (r, w') := regenRegistry w in
      Some (match r with
            | Err e => AtReturn (Err (wrap "loading revoked certificates" e))
            | Ok revokedCerts => AtEncode caCert caPrivKey revokedCerts
            end, s, mu, w')
  | AtEncode caCert caPrivKey revokedCerts =>
      let (enc, w') := regenEncode revokedCerts caCert caPrivKey w in
      let '(now, crlNumber, r) := enc in
      Some (match r with
            | Err e => AtReturn (Err (wrap "creating CRL" e))
            | Ok crlBytes => AtSetCRL now crlNumber crlBytes
            end, s, mu, w')
  | AtSetCRL now crlNumber crlBytes =>
      Some (AtSetTime now crlNumber crlBytes,
            mkCRLServer (Some crlBytes) (cacheTime s) (cacheNumber s), mu, w)
  | AtSetTime now crlNumber crlBytes =>
      Some (AtSetNumber now crlNumber crlBytes,
            mkCRLServer (cachedCRL s) now (cacheNumber s), mu, w)
  | AtSetNumber now crlNumber crlBytes =>
      Some (AtSave crlNumber crlBytes,
            mkCRLServer (cachedCRL s) (cacheTime s) (Some crlNumber), mu, w)
  | AtSave crlNumber crlBytes =>
      let (_, w') := regenPersist s crlNumber w in
      Some (AtReturn (Ok crlBytes), s, mu, w')
  | AtReturn r =>
      Some (Done r, s, mkRWMutex (readers mu) false, w)
  | Done _ => None
  end.

Record System := mkSystem {
  threads : list pc;
  server : CRLServer;
  mutex : RWMutex;
  world : World
}.

(** A step of the system is a step of one of its goroutines. *)
Inductive sysStep : System -> System -> Prop :=
| sys_step before p after s mu w p' s' mu' w' :
    threadStep p s mu w = Some (p', s', mu', w') ->
    sysStep (mkSystem (before ++ p :: after) s mu w)
            (mkSystem (before ++ p' :: after) s' mu' w').

(** [N] requests arrive. *)
Definition initial (N : nat) (s : CRLServer) (w : World) : System :=
  mkSystem (replicate N AtRLock) s (mkRWMutex 0 false) w.

Definition isDone (p : pc) : bool :=
  match p with Done _ => true | _ => false end.

Definition finished (sys : System) : Prop :=
  Forall (fun p => isDone p = true) (threads sys).

(** The step of goroutine [i], and a schedule of such steps. *)
Definition stepAt (i : nat) (sys : System) : option System :=
  match threads sys !! i with
  | None => None
  | Some p =>
      match threadStep p (server sys) (mutex sys) (world sys) with
      | None => None
      | Some (p', s', mu', w') => Some (mkSystem (<[i := p']> (threads sys)) s' mu' w')
      end
  end.

Fixpoint runSchedule (schedule : list nat) (sys : System) : option System :=
  match schedule with
  | [] => Some sys
  | i :: rest =>
      match stepAt i sys with
      | None => None
      | Some sys' => runSchedule rest sys'
      end
  end.

Definition holdsShared (p : pc) : bool :=
  match p with
  | AtCheck | AtReturnCached | AtRUnlock => true
  | _ => false
  end.

Definition holdsExclusive (p : pc) : bool :=
  match p with
  | AtRecheck | AtLoadCredentials | AtLoadRegistry _ _ | AtEncode _ _ _
  | AtSetCRL _ _ _ | AtSetTime _ _ _ | AtSetNumber _ _ _ | AtSave _ _
  | AtReturn _ => true
  | _ => false
  end.

(** Between the first and the last of the three assignments to the
    cache. *)
Definition midUpdate (p : pc) : bool :=
  match p with
  | AtSetTime _ _ _ | AtSetNumber _ _ _ => true
  | _ => false
  end.

(** About to read a field of the cache. *)
Definition readsCache (p : pc) : bool :=
  match p with
  | AtCheck | AtReturnCached | AtRecheck => true
  | _ => false
  end.

Fixpoint count (f : pc -> bool) (l : list pc) : nat :=
  match l with
  | [] => 0
  | p :: l' => (if f p then 1 else 0) + count f l'
  end.

(** The lock is held as the goroutines' positions say: at most one holds it
    exclusively, and then none holds it shared. *)
Definition lockHeld (sys : System) : Prop :=
  readers (mutex sys) = count holdsShared (threads sys)
  /\ count holdsExclusive (threads sys) = (if writer (mutex sys) then 1 else 0)%nat
  /\ (writer (mutex sys) = true -> readers (mutex sys) = 0%nat).

(** No goroutine reads the cache while another is between two of the
    assignments that install an artifact. *)
Definition noHalfBuilt (sys : System) : Prop :=
  forall before p after,
    threads sys = before ++ p :: after ->
    midUpdate p = true ->
    Forall (fun q => readsCache q = false) (before ++ after).

(** How many steps a goroutine has left, at most. *)
Definition stepsLeft (p : pc) : nat :=
  match p with
  | AtRLock => 15
  | AtCheck => 14
  | AtRUnlock => 13
  | AtLock => 12
  | AtRecheck => 11
  | AtLoadCredentials => 10
  | AtLoadRegistry _ _ => 9
  | AtEncode _ _ _ => 8
  | AtSetCRL _ _ _ => 7
  | AtSetTime _ _ _ => 6
  | AtSetNumber _ _ _ => 5
  | AtSave _ _ => 4
  | AtReturn _ => 1
  | AtReturnCached => 1
  | Done _ => 0
  end.

Definition workLeft (sys : System) : nat := sum_list (stepsLeft <$> threads sys).

(** The cache is stale at every reading of the clock. *)
Definition staleThroughout (s : CRLServer) (w : World) : Prop :=
  forall i, staleAt s (w_clock w i) = true.

(** What a burst of [N] requests started in world [w] has done once it has
    ended in [sys] with a single rebuild: the credential loader was called
    once and the encoding primitive once, and all requests got the same
    bytes, those of the artifact the server holds. *)
Definition oneRebuild (w : World) (sys : System) : Prop :=
  calls EvLoadCertAndKey (w_trace (world sys)) = S (calls EvLoadCertAndKey (w_trace w))
  /\ calls EvCreateRevocationList (w_trace (world sys))
     = S (calls EvCreateRevocationList (w_trace w))
  /\ exists crlBytes crlNumber,
       Forall (fun p => p = Done (Ok crlBytes)) (threads sys)
       /\ cachedCRL (server sys) = Some crlBytes
       /\ cacheNumber (server sys) = Some crlNumber.

(** Single flight, as the specification states it: however the [N] requests
    interleave, once all have returned the credential loader was called once
    and the encoding primitive once, and all requests got the same bytes. *)
Definition singleFlight (N : nat) (s : CRLServer) (w : World) : Prop :=
  forall sys,
    rtc sysStep (initial N s w) sys ->
    finished sys ->
    oneRebuild w sys.

(** The generation time of the artifact a step creates: the step is that of
    lines 133-155, and the encoding primitive returned an artifact. *)
Definition created (p p' : pc) : list time.Time :=
  match p, p' with
  | AtEncode _ _ _, AtSetCRL now _ _ => [now]
  | _, _ => []
  end.

(** The generation times of the artifacts created in the run of a
    schedule, in the order of their creation. *)
Fixpoint generations (schedule : list nat) (sys : System) : list time.Time :=
  match schedule with
  | [] => []
  | i :: rest =>
      match stepAt i sys with
      | None => []
      | Some sys' =>
          match threads sys !! i, threads sys' !! i with
          | Some p, Some p' => created p p'
          | _, _ => []
          end ++ generations rest sys'
      end
  end.

End Concurrency.

(** ** The three phases of a burst of requests

    A burst starts on a cache [s0] in a world [w0] whose credentials and
    registry load, as [caCert], [caPrivKey] and [revokedCerts], and takes the
    readings of the clock from [w_reads w0] up to [R].  Until a goroutine has
    loaded the credentials the cache is [s0]; then that goroutine, alone,
    installs an artifact; then the cache holds it. *)

Section Phases.

Context `{X509}.

Variables (s0 : CRLServer) (w0 : World).
Variables (caCert : Certificate) (caPrivKey : Signer) (revokedCerts : list RevokedCert).
Variable R : nat.

(** A reading of the clock taken during the burst. *)
Definition duringBurst (i : nat) : Prop := (w_reads w0 <= i < R)%nat.

(** Every reading of the clock taken during the burst is less than a
    freshness window after [now]. *)
Definition inWindow (now : time.Time) : Prop :=
  forall i, duringBurst i -> time.Sub (w_clock w0 i) now < cacheDuration.

(** The files and the clock are those of [w0], and the readings of [w0]
    were taken. *)
Definition sameInputs (w : World) : Prop :=
  w_crt w = w_crt w0 /\ w_key w = w_key w0 /\ w_list w = w_list w0
  /\ w_clock w = w_clock w0 /\ (w_reads w0 <= w_reads w)%nat.

(** Since [w0], the credential loader was called [l] times and the encoding
    primitive [c] times. *)
Definition calledSince (w : World) (l c : nat) : Prop :=
  calls EvLoadCertAndKey (w_trace w) = (l + calls EvLoadCertAndKey (w_trace w0))%nat
  /\ calls EvCreateRevocationList (w_trace w)
     = (c + calls EvCreateRevocationList (w_trace w0))%nat.

(** Waiting for the lock. *)
Definition idle (p : pc) : Prop := p = AtRLock \/ p = AtLock.

(** Where a goroutine can stand before any has loaded the credentials. *)
Definition stalePc (p : pc) : Prop :=
  match p with
  | AtRLock | AtCheck | AtRUnlock | AtLock | AtRecheck | AtLoadCredentials => True
  | _ => False
  end.

(** The goroutine that installs the artifact, with the server and the calls
    made at each of its positions. *)
Definition installing (q : pc) (s : CRLServer) (l c : nat) : Prop :=
  match q with
  | AtLoadRegistry caCert' caPrivKey' =>
      caCert' = caCert /\ caPrivKey' = caPrivKey /\ s = s0 /\ l = 1%nat /\ c = 0%nat
  | AtEncode caCert' caPrivKey' revokedCerts' =>
      caCert' = caCert /\ caPrivKey' = caPrivKey /\ revokedCerts' = revokedCerts
      /\ s = s0 /\ l = 1%nat /\ c = 0%nat
  | AtSetCRL now crlNumber crlBytes =>
      inWindow now /\ crlNumber = time.ToUnix now
      /\ s = s0 /\ l = 1%nat /\ c = 1%nat
  | AtSetTime now crlNumber crlBytes =>
      inWindow now /\ crlNumber = time.ToUnix now
      /\ s = mkCRLServer (Some crlBytes) (cacheTime s0) (cacheNumber s0)
      /\ l = 1%nat /\ c = 1%nat
  | AtSetNumber now crlNumber crlBytes =>
      inWindow now /\ crlNumber = time.ToUnix now
      /\ s = mkCRLServer (Some crlBytes) now (cacheNumber s0)
      /\ l = 1%nat /\ c = 1%nat
  | _ => False
  end.

(** Where a goroutine can stand once the artifact [crlBytes] is
    installed. *)
Definition freshPc (crlBytes : list byte) (p : pc) : Prop :=
  match p with
  | AtRLock | AtCheck | AtReturnCached | AtLock | AtRecheck => True
  | AtSave _ crlBytes' => crlBytes' = crlBytes
  | AtReturn r | Done r => r = Ok crlBytes
  | _ => False
  end.

Definition phaseStale (sys : System) : Prop :=
  Forall stalePc (threads sys) /\ server sys = s0 /\ calledSince (world sys) 0 0.

Definition phaseInstalling (sys : System) : Prop :=
  exists before q after l c,
    threads sys = before ++ q :: after
    /\ Forall idle before /\ Forall idle after
    /\ installing q (server sys) l c /\ calledSince (world sys) l c.

Definition phaseFresh (sys : System) : Prop :=
  exists crlBytes now,
    Forall (freshPc crlBytes) (threads sys)
    /\ inWindow now
    /\ server sys = mkCRLServer (Some crlBytes) now (Some (time.ToUnix now))
    /\ calledSince (world sys) 1 1.

Definition burstInvariant (sys : System) : Prop :=
  sameInputs (world sys) /\ lockHeld sys
  /\ (phaseStale sys \/ phaseInstalling sys \/ phaseFresh sys).

End Phases.

(** Two worlds for the small instance: one whose credentials load, one
    whose certificate file is missing. *)
Definition goodWorld : World :=
  toyWorld (Content [x01] None) (Content [x08; x02] None) NotExist (Some ∅)
           (1700000000 * time.Second).

Definition badWorld : World :=
  toyWorld NotExist NotExist NotExist (Some ∅) (1700000000 * time.Second).

(** Two requests, one after the other. *)
Definition oneThenOther : list nat :=
  [0; 0; 0; 0; 0; 0; 0; 1; 1; 1; 1; 1; 1; 1]%nat.

(** A server whose artifact is one hour old at second 1700000000. *)
Definition agedServer : CRLServer :=
  mkCRLServer (Some [x00]) (1700000000 * time.Second - time.Hour) (Some 1699996400).

(** A clock whose first three readings are second 1700000000 and one and
    two minutes later, whose fourth is 59 minutes after the first, and whose
    later ones are 61 minutes after the first. *)
Definition lateClock (i : nat) : time.Time :=
  let minutes : Z :=
    match i with
    | 0%nat => 0
    | 1%nat => 1
    | 2%nat => 2
    | 3%nat => 59
    | _ => 61
    end in
  1700000000 * time.Second + minutes * (60 * time.Second).

Definition lateWorld : World :=
  mkWorld (Content [x01] None) (Content [x08; x02] None) NotExist (Some ∅)
          lateClock 0 0 [].

(** Two requests find the cache stale; the first then regenerates, at the
    fourth reading of the clock, and the second, which waited for the lock,
    checks the cache again at the fifth. *)
Definition waiterSchedule : list nat :=
  [0; 0; 1; 1; 0; 1; 0; 0; 0; 0; 0; 0; 0; 0; 0; 0; 1; 1; 1]%nat.

(** ** The HTTP handler

    What the handler puts on the [http.ResponseWriter] it is given: the
    header map, the status and the header as they were when the status was
    written, and the bytes of the body.  The handler only sets and deletes
    keys of the header, so that a key has one value at most.  [net/http]
    adds the date and the length of the body on its own. *)

Module http.

Definition StatusOK : Z := 200.
Definition StatusInternalServerError : Z := 500.

(** A [*http.Request]. *)
Record Request := mkRequest {
  Method : string;
  Path : string
}.

Record ResponseWriter := mkResponseWriter {
  header : gmap string string;       (* [Header()], one value for each key *)
  status : option Z;                 (* the status written, if one was *)
  sent : gmap string string;         (* the header written with the status *)
  body : list byte
}.

(** The writer the server hands to a handler. *)
Definition newResponseWriter : ResponseWriter := mkResponseWriter ∅ None ∅ [].

(** [w.Header().Set(key, value)], for a key in canonical form. *)
Definition Header_Set (w : ResponseWriter) (key value : string) : ResponseWriter :=
  mkResponseWriter (<[key := value]> (header w)) (status w) (sent w) (body w).

(** [w.Header().Del(key)] *)
Definition Header_Del (w : ResponseWriter) (key : string) : ResponseWriter :=
  mkResponseWriter (delete key (header w)) (status w) (sent w) (body w).

(** [w.WriteHeader(code)]: only the first call counts. *)
Definition WriteHeader (w : ResponseWriter) (code : Z) : ResponseWriter :=
  match status w with
  | Some _ => w
  | None => mkResponseWriter (header w) (Some code) (header w) (body w)
  end.

(** [w.Write(data)]: writes the status 200 first when none was written. *)
Definition Write (w : ResponseWriter) (data : list byte) : ResponseWriter :=
  let w := WriteHeader w StatusOK in
  mkResponseWriter (header w) (status w) (sent w) (body w ++ data).

(** [http.Error(w, error, code)] *)
Definition Error (w : ResponseWriter) (error : string) (code : Z) : ResponseWriter :=
  let w := Header_Del w "Content-Length" in
  let w := Header_Set w "Content-Type" "text/plain; charset=utf-8" in
  let w := Header_Set w "X-Content-Type-Options" "nosniff" in
  let w := WriteHeader w code in
  Write w (list_byte_of_string (error +:+ String "010" "")).

End http.

(** [int(d.Seconds())] for a duration of whole seconds.  [Seconds] adds the
    [float64] of the quotient by a second and that of the remainder over
    1e9; with no remainder, and a quotient below 2^53, both conversions are
    exact. *)
Definition secondsInt (d : time.Duration) : Z := d ÷ time.Second.

(** [fmt.Sprintf("max-age=%d", int(cacheDuration.Seconds()))] *)
Definition maxAge : string := "max-age=" +:+ strconv.FormatInt (secondsInt cacheDuration).

Section Handler.

Context `{X509}.

(** Lines 85-97.  The server is returned as [getCRL] leaves it, with the
    writer as the handler leaves it. *)
Definition handleCRL (s : CRLServer) (w : http.ResponseWriter) (r : http.Request)
  : M (CRLServer * http.ResponseWriter) :=
  res <- getCRL s ;;
  let '(crl, s) := res in
  match crl with
  | Err err =>
      log ("Error generating CRL: " +:+ err) ;;;
      ret (s, http.Error w "Internal Server Error" http.StatusInternalServerError)
  | Ok crl =>
      let w := http.Header_Set w "Content-Type" "application/pkix-crl" in
      let w := http.Header_Set w "Cache-Control" maxAge in
      let w := http.WriteHeader w http.StatusOK in
      let w := http.Write w crl in
      ret (s, w)
  end.

End Handler.

(** The header of a response that carries the artifact, and of one that
    reports a failure. *)
Definition crlHeader : gmap string string :=
  <["Cache-Control" := "max-age=3600"]> (<["Content-Type" := "application/pkix-crl"]> ∅).

Definition errorHeader : gmap string string :=
  <["X-Content-Type-Options" := "nosniff"]>
    (<["Content-Type" := "text/plain; charset=utf-8"]> ∅).

(** ** Startup *)

(** What [main] asks of the host besides the files and the clock. *)
Class Host := {
  (** [os.MkdirAll(cacheDir, 0755)] *)
  os_MkdirAll : M (option error);
  (** [http.ListenAndServe(":8080", nil)] until it serves: [None] when the
      listener is up, [Some e] when the call returns [e]. *)
  http_ListenAndServe : M (option error)
}.

(** How [main] ends: by [log.Fatalf], or serving requests with the handler
    of a server. *)
Inductive startup :=
| Fatal (msg : string)
| Serving (s : CRLServer).

(** [log.Fatalf]: the line is logged and the process exits. *)
Definition fatal (msg : string) : M startup := log msg ;;; ret (Fatal msg).

Section Startup.

Context `{X509} `{Host}.

(** Lines 48-83, until the process exits or serves.
    [http.HandleFunc("/", server.handleCRL)] makes every request, whatever
    its path, run [handleCRL] on the server made here. *)
Definition main : M startup :=
  err <- os_MkdirAll ;;
  match err with
  | Some e => fatal ("Failed to create cache directory: " +:+ e)
  | None =>
      r <- loadCertAndKey ;;
      match r with
      | Err e => fatal ("Failed to load certificate and key: " +:+ e)
      | Ok _ =>
          log "Certificate and key validated successfully" ;;;
          server <- loadCachedCRL newServer ;;
          log "Starting CRL server on :8080" ;;;
          log "Hot-reload enabled: certificates and revocation list will be reloaded on each CRL generation" ;;;
          err <- http_ListenAndServe ;;
          match err with
          | Some e => fatal ("Server failed: " +:+ e)
          | None => ret (Serving server)
          end
      end
  end.

End Startup.

(** A host on which the cache directory is made when it is missing, and the
    port is free. *)
Definition toyHost : Host := {|
  os_MkdirAll w :=
    match w_cache w with
    | Some _ => (None, w)
    | None => (None, withCache w (Some ∅))
    end;
  http_ListenAndServe := ret None
|}.

(** ** What a request leaves of the cache directory *)

(** A regular file that can be read and replaced. *)
Definition isFile (n : node) : bool :=
  match n with File _ => true | _ => false end.

(** [dir'] holds every entry of [dir], the same but for the files [a] and
    [b]. *)
Definition keeps (a b : string) (dir dir' : gmap string node) : Prop :=
  (forall name, is_Some (dir !! name) -> is_Some (dir' !! name))
  /\ (forall name, name <> a -> name <> b -> dir' !! name = dir !! name)
  /\ (forall name nd, dir !! name = Some nd -> isFile nd = false -> dir' !! name = Some nd).

(** ** Across a restart *)


(** ** The lines of a registry *)

(** The bytes of a registry whose lines are [lines], each followed by the
    line ending [eol]. *)
Definition joinLines (eol : list byte) (lines : list (list byte)) : list byte :=
  concat ((fun line => line ++ eol) <$> lines).

(** The line fits the buffer of the scanner, with its line feed. *)
Definition fitsBuffer (line : list byte) : Prop :=
  Z.of_nat (length line) < bufio.MaxScanTokenSize.

(** The warning the loop of [loadRevokedCertificates] logs for the line
    [text], which is line [lineNum] of the registry, when it logs one. *)
Definition warningOf (lineNum : Z) (text : string) : option string :=
  let line := strings.TrimSpace text in
  if String.eqb line "" || strings.HasPrefix line "#" then None
  else
    match strings.Split line ":" with
    | [p0; p1; p2] =>
        match big.SetString p0 16 with
        | None =>
            Some ("Warning: invalid serial number at line "
                    +:+ strconv.FormatInt lineNum +:+ ": " +:+ p0)
        | Some _ =>
            match strconv.ParseInt p1 with
            | None =>
                Some ("Warning: invalid epoch at line "
                        +:+ strconv.FormatInt lineNum +:+ ": " +:+ p1)
            | Some _ =>
                match strconv.Atoi p2 with
                | None =>
                    Some ("Warning: invalid reason code at line "
                            +:+ strconv.FormatInt lineNum +:+ ": " +:+ p2)
                | Some _ => None
                end
            end
        end
    | _ =>
        Some ("Warning: invalid format at line "
                +:+ strconv.FormatInt lineNum +:+ ": " +:+ line)
    end.

(** The warnings for [lines], the first of which is line [lineNum + 1]. *)
Fixpoint warnings (lineNum : Z) (lines : list string) : list event :=
  match lines with
  | [] => []
  | text :: rest =>
      option_list (EvLog <$> warningOf (lineNum + 1) text) ++ warnings (lineNum + 1) rest
  end.

(** A line of the registry for a serial number as written, an epoch and a
    reason. *)
Definition formatLine (serial : string) (epoch reason : Z) : string :=
  serial +:+ ":" +:+ strconv.FormatInt epoch +:+ ":" +:+ strconv.FormatInt reason.

(** A character a number is written with: ASCII, not white space, not a
    colon, not the mark of a comment. *)
Definition fieldChar (c : ascii) : bool :=
  isPlain c && negb (Ascii.eqb c ":") && negb (Ascii.eqb c "#").

(** Every character of [s] is one. *)
Fixpoint allField (s : string) : bool :=
  match s with
  | EmptyString => true
  | String c s' => fieldChar c && allField s'
  end.

(** ** Requests on a fresh cache *)

(** The cache is fresh at every reading of the clock. *)
Definition freshThroughout (s : CRLServer) (w : World) : Prop :=
  forall i, staleAt s (w_clock w i) = false.

Section Hits.

Context `{X509}.

(** Where a goroutine stands when the cache serves it. *)
Definition hitPc (crl : list byte) (p : pc) : Prop :=
  match p with
  | AtRLock | AtCheck | AtReturnCached => True
  | Done r => r = Ok crl
  | _ => False
  end.

(** Every goroutine that has not returned can take its next step. *)
Definition noneBlocked (sys : System) : Prop :=
  forall i p, threads sys !! i = Some p -> isDone p = false -> is_Some (stepAt i sys).

(** The requests of a burst on a fresh cache [s0], started in world [w0]:
    the server and the world stay as they were, but for the readings of the
    clock. *)
Definition hitInvariant (s0 : CRLServer) (w0 : World) (crl : list byte) (sys : System)
  : Prop :=
  Forall (hitPc crl) (threads sys)
  /\ server sys = s0
  /\ writer (mutex sys) = false
  /\ w_clock (world sys) = w_clock w0
  /\ w_trace (world sys) = w_trace w0
  /\ w_cache (world sys) = w_cache w0
  /\ w_entropy (world sys) = w_entropy w0.

(** The system after a schedule, or as it was when a step of the schedule
    cannot be taken. *)
Definition afterSchedule (schedule : list nat) (sys : System) : System :=
  default sys (runSchedule schedule sys).

End Hits.

(** A server that holds a fresh artifact. *)
Definition freshServer : CRLServer :=
  mkCRLServer (Some [x01; x02]) (1700000000 * time.Second) (Some 1700000000).

(* ================================================================= *)
(** * Properties *)

Example TrimSpace_ex : strings.TrimSpace "  a b	 " = "a b".
Proof. reflexivity. Qed.

(** U+00A0 before the text, U+2003 and U+3000 after it. *)
Example TrimSpace_unicode :
  strings.TrimSpace (String "194" (String "160" ("1A2B:1700000000:1"
     +:+ String "226" (String "128" (String "131" (String "227" (String "128" (String "128" ""))))))))
  = "1A2B:1700000000:1".
Proof. reflexivity. Qed.

(** Bytes that are no encoding of a character are kept. *)
Example TrimSpace_invalid :
  strings.TrimSpace (String "160" (String "194" "")) = String "160" (String "194" "").
Proof. reflexivity. Qed.
Example Split_ex : strings.Split "1A2B:1700000000:1" ":" = ["1A2B"; "1700000000"; "1"].
Proof. reflexivity. Qed.
Example SetString_ex : big.SetString "1A2B" 16 = Some 6699.
Proof. reflexivity. Qed.
Example SetString_bad : big.SetString "BADHEX" 16 = None.
Proof. reflexivity. Qed.
Example ParseInt_ex : strconv.ParseInt "-0017" = Some (-17).
Proof. reflexivity. Qed.
Example ParseInt_range : strconv.ParseInt "9223372036854775808" = None.
Proof. reflexivity. Qed.
Example FormatInt_ex : strconv.FormatInt (-1700000000) = "-1700000000".
Proof. reflexivity. Qed.
Example TrimSuffix_ex : strings.TrimSuffix (strings.TrimPrefix "crl-42.der" "crl-") ".der" = "42".
Proof. reflexivity. Qed.

(** ** The world and its trace *)

Lemma addTrace_nil w : addTrace w [] = w.
Proof. destruct w. unfold addTrace. simpl. by rewrite app_nil_r. Qed.

Lemma addTrace_app w a b : addTrace (addTrace w a) b = addTrace w (a ++ b).
Proof. unfold addTrace. simpl. by rewrite app_assoc. Qed.

Lemma w_list_addTrace w evs : w_list (addTrace w evs) = w_list w.
Proof. reflexivity. Qed.

(** ** White space *)

Lemma append_cons c a b : String c a +:+ b = String c (a +:+ b).
Proof. reflexivity. Qed.

Lemma append_nil_l a : "" +:+ a = a.
Proof. reflexivity. Qed.

Lemma TrimLeft_eq s :
  strings.TrimLeft s
  = match spaceWidth s with
    | O => s
    | k => strings.TrimLeft (strings.drop k s)
    end.
Proof.
  destruct s as [|a s1]; [reflexivity|].
  change (strings.TrimLeft (String a s1))
    with (if strings.isSpace a then strings.TrimLeft s1
          else match s1 with
               | String b s2 =>
                   if strings.isSpace2 a b then strings.TrimLeft s2
                   else match s2 with
                        | String c s3 =>
                            if strings.isSpace3 a b c then strings.TrimLeft s3
                            else String a s1
                        | EmptyString => String a s1
                        end
               | EmptyString => String a s1
               end).
  cbn [spaceWidth]. destruct (strings.isSpace a); [reflexivity|].
  destruct s1 as [|b s2]; [reflexivity|].
  destruct (strings.isSpace2 a b); [reflexivity|].
  destruct s2 as [|c s3]; [reflexivity|].
  destruct (strings.isSpace3 a b c); reflexivity.
Qed.

Lemma spaceWidth_drop s :
  spaceWidth s <> 0%nat ->
  (String.length (strings.drop (spaceWidth s) s) < String.length s)%nat.
Proof.
  destruct s as [|a [|b [|c s]]]; cbn [spaceWidth strings.drop String.length];
    repeat match goal with |- context [if ?x then _ else _] => destruct x end;
    cbn [strings.drop String.length]; lia.
Qed.

(** Induction on a text along the white-space characters it starts with. *)
Lemma TrimLeft_ind (P : string -> Prop) :
  (forall s, spaceWidth s = 0%nat -> P s) ->
  (forall s, spaceWidth s <> 0%nat -> P (strings.drop (spaceWidth s) s) -> P s) ->
  forall s, P s.
Proof.
  intros Hstop Hstep s.
  remember (String.length s) as n eqn:Hn. revert s Hn.
  induction n as [n IH] using lt_wf_ind. intros s ->.
  destruct (decide (spaceWidth s = 0%nat)) as [H0|H0]; [by apply Hstop|].
  apply Hstep; [done|]. eapply IH; [|reflexivity]. by apply spaceWidth_drop.
Qed.

(** What [TrimLeft] leaves starts with no white space. *)
Lemma TrimLeft_stops s : spaceWidth (strings.TrimLeft s) = 0%nat.
Proof.
  induction s as [s H0|s H0 IH] using TrimLeft_ind; rewrite TrimLeft_eq.
  - by rewrite H0.
  - destruct (spaceWidth s); [done | exact IH].
Qed.

Lemma TrimLeft_fixed s : spaceWidth s = 0%nat -> strings.TrimLeft s = s.
Proof. intros H0. by rewrite TrimLeft_eq, H0. Qed.

Lemma TrimLeft_idemp s : strings.TrimLeft (strings.TrimLeft s) = strings.TrimLeft s.
Proof. apply TrimLeft_fixed, TrimLeft_stops. Qed.

(** The first character of a text that starts with no white space is
    kept. *)
Lemma TrimRight_keep c s :
  spaceWidth (String c s) = 0%nat ->
  strings.TrimRight (String c s) = String c (strings.TrimRight s).
Proof. intros H0. cbn [strings.TrimRight]. by rewrite (TrimLeft_fixed _ H0). Qed.

Lemma isPlain_width c s : isPlain c = true -> spaceWidth (String c s) = 0%nat.
Proof.
  unfold isPlain. intros [Hs Hc]%andb_prop. apply negb_true_iff in Hs.
  apply Nat.ltb_lt in Hc. cbn [spaceWidth]. rewrite Hs.
  destruct s as [|b [|d s]]; [reflexivity|..].
  - replace (strings.isSpace2 c b) with false; [reflexivity|].
    symmetry. unfold strings.isSpace2. apply andb_false_intro1, Nat.eqb_neq. lia.
  - replace (strings.isSpace2 c b) with false.
    2:{ symmetry. unfold strings.isSpace2. apply andb_false_intro1, Nat.eqb_neq. lia. }
    replace (strings.isSpace3 c b d) with false; [reflexivity|].
    symmetry. unfold strings.isSpace3.
    repeat match goal with |- context [(nat_of_ascii c =? ?k)%nat] =>
      replace (nat_of_ascii c =? k)%nat with false by (symmetry; apply Nat.eqb_neq; lia)
    end. reflexivity.
Qed.

(** The bytes after the first of a white-space character are not ASCII. *)
Lemma isSpace2_high a b : strings.isSpace2 a b = true -> (128 <= nat_of_ascii b)%nat.
Proof.
  unfold strings.isSpace2. intros [_ H]%andb_prop.
  apply orb_prop in H as [H%Nat.eqb_eq|H%Nat.eqb_eq]; lia.
Qed.

Lemma isSpace3_high a b c :
  strings.isSpace3 a b c = true -> (128 <= nat_of_ascii b /\ 128 <= nat_of_ascii c)%nat.
Proof.
  unfold strings.isSpace3. intros H.
  repeat match type of H with
         | _ || _ = true => apply orb_prop in H as [H|H]
         | _ && _ = true => apply andb_prop in H as [? H]
         end;
  repeat match goal with
         | H : _ && _ = true |- _ => apply andb_prop in H as [? ?]
         | H : _ || _ = true |- _ => apply orb_prop in H as [?|?]
         | H : (_ =? _)%nat = true |- _ => apply Nat.eqb_eq in H
         | H : (_ <=? _)%nat = true |- _ => apply Nat.leb_le in H
         end; lia.
Qed.

(** An ASCII character after a text is not part of a white-space character
    the text starts with. *)
Lemma spaceWidth_app u c :
  (nat_of_ascii c < 128)%nat -> u <> "" ->
  spaceWidth (u +:+ String c "") = spaceWidth u
  /\ (spaceWidth u <= String.length u)%nat.
Proof.
  intros Hc Hu. destruct u as [|a [|b [|d u]]]; [done|..];
    rewrite ?append_cons, ?append_nil_l; cbn [spaceWidth String.length].
  - destruct (strings.isSpace a); [split; [done|lia]|].
    destruct (strings.isSpace2 a c) eqn:H2; [apply isSpace2_high in H2; lia|].
    split; [done|lia].
  - destruct (strings.isSpace a); [split; [done|lia]|].
    destruct (strings.isSpace2 a b); [split; [done|lia]|].
    destruct (strings.isSpace3 a b c) eqn:H3; [apply isSpace3_high in H3; lia|].
    split; [done|lia].
  - destruct (strings.isSpace a); [split; [done|lia]|].
    destruct (strings.isSpace2 a b); [split; [done|lia]|].
    destruct (strings.isSpace3 a b d); split; (done || lia).
Qed.

Lemma drop_app k u v :
  (k <= String.length u)%nat -> strings.drop k (u +:+ v) = strings.drop k u +:+ v.
Proof.
  revert u. induction k as [|k IH]; intros u Hk; [by destruct u|].
  destruct u as [|a u]; [simpl in Hk; lia|]. simpl in *. apply IH. lia.
Qed.

Lemma TrimLeft_app u c :
  (nat_of_ascii c < 128)%nat ->
  strings.TrimLeft (u +:+ String c "")
  = match strings.TrimLeft u with
    | EmptyString => strings.TrimLeft (String c "")
    | t => t +:+ String c ""
    end.
Proof.
  intros Hc. induction u as [u H0|u H0 IH] using TrimLeft_ind.
  - destruct (decide (u = "")) as [->|Hu]; [reflexivity|].
    destruct (spaceWidth_app u c Hc Hu) as [Hw _].
    rewrite (TrimLeft_fixed u H0), TrimLeft_fixed by (by rewrite Hw).
    by destruct u.
  - assert (Hu : u <> "") by (by intros ->).
    destruct (spaceWidth_app u c Hc Hu) as [Hw Hlen].
    rewrite (TrimLeft_eq (u +:+ String c "")), (TrimLeft_eq u), Hw.
    destruct (spaceWidth u) as [|k] eqn:Hk; [done|].
    rewrite drop_app by done. exact IH.
Qed.

Lemma isSpace_ascii c : strings.isSpace c = true -> (nat_of_ascii c < 128)%nat.
Proof.
  unfold strings.isSpace. intros H.
  apply orb_prop in H as [[_ H%Nat.leb_le]%andb_prop|H%Nat.eqb_eq]; lia.
Qed.

Lemma TrimRight_app_space s c :
  strings.isSpace c = true ->
  strings.TrimRight (s +:+ String c "") = strings.TrimRight s.
Proof.
  intros Hc. pose proof (isSpace_ascii c Hc) as Hlt.
  induction s as [|a s IH].
  - rewrite append_nil_l. cbn [strings.TrimRight strings.TrimLeft]. by rewrite Hc.
  - rewrite append_cons. cbn [strings.TrimRight]. rewrite IH.
    rewrite <- append_cons, (TrimLeft_app (String a s) c Hlt).
    destruct (strings.TrimLeft (String a s)) as [|x t].
    + cbn [strings.TrimLeft]. by rewrite Hc.
    + reflexivity.
Qed.

Lemma TrimSpace_app_space s c :
  strings.isSpace c = true ->
  strings.TrimSpace (s +:+ String c "") = strings.TrimSpace s.
Proof.
  intros Hc. unfold strings.TrimSpace.
  rewrite (TrimLeft_app s c (isSpace_ascii c Hc)).
  destruct (strings.TrimLeft s) as [|x t].
  - cbn [strings.TrimLeft]. by rewrite Hc.
  - by apply TrimRight_app_space.
Qed.

Lemma TrimLeft_noSpace s : noSpace s = true -> strings.TrimLeft s = s.
Proof.
  destruct s as [|c s]; [done|]. cbn [noSpace]. intros [Hc _]%andb_prop.
  apply TrimLeft_fixed. by apply isPlain_width.
Qed.

Lemma TrimRight_noSpace s : noSpace s = true -> strings.TrimRight s = s.
Proof.
  induction s as [|c s IH]; [done|]. intros Hs.
  cbn [strings.TrimRight]. rewrite (TrimLeft_noSpace _ Hs).
  cbn [noSpace] in Hs. apply andb_prop in Hs as [_ Hs]. by rewrite (IH Hs).
Qed.

Lemma TrimSpace_noSpace s : noSpace s = true -> strings.TrimSpace s = s.
Proof.
  intros Hs. unfold strings.TrimSpace. rewrite (TrimLeft_noSpace _ Hs).
  by apply TrimRight_noSpace.
Qed.


(** The two tests of the loop, on the trimmed line, are the two of the
    specification, on the line as read. *)
Lemma skip_tests text :
  String.eqb (strings.TrimSpace text) "" || strings.HasPrefix (strings.TrimSpace text) "#"
  = RegistrySpec.blank text || RegistrySpec.comment text.
Proof.
  unfold RegistrySpec.blank, RegistrySpec.comment, strings.TrimSpace.
  pose proof (TrimLeft_stops text) as Hstop.
  destruct (strings.TrimLeft text) as [|c s]; [reflexivity|].
  rewrite (TrimRight_keep c s Hstop).
  cbn -[Ascii.eqb]. reflexivity.
Qed.

(** ** The registry loader *)

(** The loop refines the specification's reading of the registry: it
    appends the accepted entries in line order and logs one warning for each
    reported line. *)
Lemma scanLoop_spec lines : forall lineNum revokedCerts w,
  exists ws,
    scanLoop lines lineNum revokedCerts w
    = (revokedCerts ++ RegistrySpec.entries lines, addTrace w ws)
    /\ allWarnings ws
    /\ length ws = RegistrySpec.reported lines.
Proof.
  induction lines as [|text rest IH]; intros lineNum acc w.
  - exists []. rewrite app_nil_r, addTrace_nil. repeat split. constructor.
  - cbn [scanLoop]. cbv zeta. rewrite skip_tests.
    unfold RegistrySpec.entries, RegistrySpec.reported.
    cbn [omap list_omap List.filter].
    unfold RegistrySpec.accepted, RegistrySpec.isReported, RegistrySpec.classify.
    destruct (RegistrySpec.blank text || RegistrySpec.comment text).
    { apply IH. }
    unfold RegistrySpec.entry.
    assert (Hrep : forall msg, strings.HasPrefix msg "Warning:" = true ->
      exists ws,
        (log msg ;;; scanLoop rest (lineNum + 1) acc) w
        = (acc ++ omap RegistrySpec.accepted rest, addTrace w ws)
        /\ allWarnings ws
        /\ length ws = S (length (List.filter RegistrySpec.isReported rest))).
    { intros msg Hmsg. unfold bind, log, emit.
      destruct (IH (lineNum + 1) acc (addTrace w [EvLog msg])) as (ws & -> & Hws & Hlen).
      exists (EvLog msg :: ws). rewrite addTrace_app. repeat split.
      - constructor; [exact Hmsg | exact Hws].
      - simpl. by rewrite Hlen. }
    destruct (strings.Split (strings.TrimSpace text) ":") as [|p0 [|p1 [|p2 [|p3 ps]]]];
      try (apply Hrep; reflexivity).
    destruct (big.SetString p0 16) as [serial|]; [|apply Hrep; reflexivity].
    destruct (strconv.ParseInt p1) as [epoch|]; [|apply Hrep; reflexivity].
    destruct (strconv.Atoi p2) as [reason|]; [|apply Hrep; reflexivity].
    destruct (IH (lineNum + 1) (acc ++ [mkRevokedCert serial (time.Unix epoch) reason]) w)
      as (ws & -> & Hws & Hlen).
    exists ws. rewrite <- app_assoc. repeat split; assumption.
Qed.

Lemma loadRevokedCertificates_run w :
  exists ws,
    loadRevokedCertificates w = (registryResult (w_list w), addTrace w ws)
    /\ allWarnings ws.
Proof.
  unfold loadRevokedCertificates, registryResult.
  destruct (w_list w) as [|e|data readErr].
  - exists []. rewrite addTrace_nil. split; [done | constructor].
  - exists []. rewrite addTrace_nil. split; [done | constructor].
  - destruct (bufio.ScanLines data readErr) as [lines scanErr].
    destruct (scanLoop_spec lines 0 [] w) as (ws & -> & Hws & _).
    exists ws. by destruct scanErr.
Qed.

(** C6 (registry tolerance).  The registry of the example yields exactly one
    entry, serial 0x1A2B revoked at epoch second 1700000000 for reason 1, and
    exactly one warning.  In general, on a registry the scanner reads to its
    end, the load succeeds with the accepted entries in line order - a line
    that does not split in three fields, or whose serial, epoch or reason
    does not parse, contributes nothing - and logs one warning per such
    line. *)
Theorem registry_tolerance :
  (forall w,
     loadRevokedCertificates (withList w (Content exampleRegistry None))
     = (Ok [mkRevokedCert 0x1A2B (time.Unix 1700000000) 1],
        addTrace (withList w (Content exampleRegistry None))
                 [EvLog "Warning: invalid serial number at line 1: BADHEX"]))
  /\ time.ToUnix (time.Unix 1700000000) = 1700000000
  /\ (forall w data,
        (bufio.ScanLines data None).2 = None ->
        let lines := (bufio.ScanLines data None).1 in
        exists ws,
          loadRevokedCertificates (withList w (Content data None))
          = (Ok (RegistrySpec.entries lines), addTrace (withList w (Content data None)) ws)
          /\ allWarnings ws
          /\ length ws = RegistrySpec.reported lines)
  /\ (forall text, RegistrySpec.entry text = None -> RegistrySpec.accepted text = None)
  /\ (forall before after,
        RegistrySpec.entries (before ++ after)
        = RegistrySpec.entries before ++ RegistrySpec.entries after).
Proof.
  split; [|split; [|split; [|split]]].
  - intros w. reflexivity.
  - reflexivity.
  - intros w data Hscan lines. subst lines.
    unfold loadRevokedCertificates. cbn [w_list withList].
    destruct (bufio.ScanLines data None) as [lines scanErr]. simpl in Hscan. subst scanErr.
    destruct (scanLoop_spec lines 0 [] (withList w (Content data None)))
      as (ws & -> & Hws & Hlen).
    exists ws. auto.
  - intros text Hnone. unfold RegistrySpec.accepted, RegistrySpec.classify.
    rewrite Hnone. by destruct (_ || _).
  - intros before after. unfold RegistrySpec.entries. apply omap_app.
Qed.

Lemma registry_tolerance_witness :
  exists ws,
    loadRevokedCertificates
      (withList (mkWorld NotExist NotExist NotExist None (fun _ => 0) 0 0 [])
                (Content exampleRegistry None))
    = (Ok (RegistrySpec.entries ["BADHEX:100:1"; ""; "# comment"; "1A2B:1700000000:1"]),
       addTrace (withList (mkWorld NotExist NotExist NotExist None (fun _ => 0) 0 0 [])
                          (Content exampleRegistry None)) ws)
    /\ allWarnings ws
    /\ length ws = 1%nat.
Proof.
  destruct registry_tolerance as (_ & _ & H & _).
  apply (H (mkWorld NotExist NotExist NotExist None (fun _ => 0) 0 0 []) exampleRegistry).
  reflexivity.
Defined.

(** White space that is not ASCII is trimmed like any other: an entry
    between two U+00A0, a line that holds U+3000 alone and an entry after
    U+2003 give two entries and no warning. *)
Example registry_unicode_space w :
  let data :=
    [xc2; xa0] ++ list_byte_of_string "1A2B:1700000000:1" ++ [xc2; xa0; x0a]
      ++ [xe3; x80; x80; x0a]
      ++ [xe2; x80; x83] ++ list_byte_of_string "1A2C:1700000001:4" ++ [x0a] in
  loadRevokedCertificates (withList w (Content data None))
  = (Ok [mkRevokedCert 0x1A2B (time.Unix 1700000000) 1;
         mkRevokedCert 0x1A2C (time.Unix 1700000001) 4],
     withList w (Content data None)).
Proof. reflexivity. Qed.

(** ** How each operation changes the world *)

Lemma evolve_evolve w a b c e a' b' c' e' :
  evolve (evolve w a b c e) a' b' c' e' = evolve w (a' + a) (b' + b) c' (e ++ e').
Proof. unfold evolve. simpl. f_equal; [lia | lia | by rewrite app_assoc]. Qed.

Lemma evolve_id w : evolve w 0 0 (w_cache w) [] = w.
Proof. destruct w. unfold evolve. simpl. by rewrite app_nil_r. Qed.

Lemma addTrace_evolve w a b c e evs :
  addTrace (evolve w a b c e) evs = evolve w a b c (e ++ evs).
Proof. unfold addTrace, evolve. simpl. by rewrite app_assoc. Qed.

Lemma calls_app e a b : calls e (a ++ b) = (calls e a + calls e b)%nat.
Proof. unfold calls. by rewrite filter_app, length_app. Qed.

Lemma calls_cons e x l :
  calls e (x :: l) = ((if decide (x = e) then 1 else 0) + calls e l)%nat.
Proof. unfold calls. rewrite filter_cons. by destruct (decide (x = e)). Qed.

Lemma calls_quiet e evs : isCall e = true -> quiet evs -> calls e evs = 0%nat.
Proof.
  intros He Hq. unfold calls. induction Hq as [|x evs Hx _ IH]; [reflexivity|].
  rewrite filter_cons. destruct (decide (x = e)) as [->|]; [congruence | exact IH].
Qed.

Lemma quiet_app a b : quiet a -> quiet b -> quiet (a ++ b).
Proof. apply Forall_app_2. Qed.

Lemma allWarnings_quiet ws : allWarnings ws -> quiet ws.
Proof.
  intros Hws. eapply Forall_impl; [exact Hws|].
  intros [msg| | |]; simpl; congruence.
Qed.

Section Runs.

Context `{X509}.

Lemma parseKey_run der w :
  parseKey der w = (keyResult der, addTrace w (EvParseKey <$> keyAttempts der)).
Proof.
  unfold parseKey, keyResult, keyAttempts, bind, emit, ret.
  destruct (x509_ParsePKCS8PrivateKey der); [reflexivity|].
  destruct (x509_ParsePKCS1PrivateKey der); [by rewrite addTrace_app|].
  destruct (x509_ParseECPrivateKey der); by rewrite !addTrace_app.
Qed.

Lemma loadCertAndKey_run w :
  exists evs,
    loadCertAndKey w
    = (credentialsResult (w_crt w) (w_key w), addTrace w (EvLoadCertAndKey :: evs))
    /\ quiet evs.
Proof.
  unfold loadCertAndKey, credentialsResult, bind, emit. cbn [w_crt w_key addTrace].
  destruct (readSource crtFile (w_crt w)); [|by exists []; split; [|constructor]].
  destruct (pem_Decode a); [|by exists []; split; [|constructor]].
  destruct (x509_ParseCertificate l); [|by exists []; split; [|constructor]].
  destruct (readSource keyFile (w_key w)); [|by exists []; split; [|constructor]].
  destruct (pem_Decode a1); [|by exists []; split; [|constructor]].
  rewrite parseKey_run.
  exists (EvParseKey <$> keyAttempts l0). split.
  - unfold ret. rewrite addTrace_app.
    destruct (keyResult l0); [destruct (asSigner a2)|]; reflexivity.
  - apply Forall_fmap, Forall_true. reflexivity.
Qed.

Lemma regenCredentials_run w :
  exists evs,
    regenCredentials w = (credentialsResult (w_crt w) (w_key w), addTrace w evs)
    /\ calls EvLoadCertAndKey evs = 1%nat
    /\ calls EvCreateRevocationList evs = 0%nat.
Proof.
  unfold regenCredentials, bind, log, emit.
  destruct (loadCertAndKey_run (addTrace w [EvLog "Loading certificate and key..."]))
    as (evs & -> & Hq).
  eexists. rewrite addTrace_app. split; [reflexivity|].
  cbn [app]. rewrite !calls_cons, !(calls_quiet _ evs) by done. split; reflexivity.
Qed.

Lemma regenRegistry_run w :
  exists evs,
    regenRegistry w = (registryResult (w_list w), addTrace w evs) /\ quiet evs.
Proof.
  unfold regenRegistry, bind, log, emit.
  destruct (loadRevokedCertificates_run (addTrace w [EvLog "Loading revocation list..."]))
    as (ws & -> & Hws).
  cbn [w_list addTrace]. apply allWarnings_quiet in Hws.
  destruct (registryResult (w_list w)) as [rcs|e].
  - eexists. rewrite !addTrace_app. split; [reflexivity|].
    apply (quiet_app [_]); [by constructor|]. apply quiet_app; [done|by constructor].
  - eexists. unfold ret. rewrite !addTrace_app. split; [reflexivity|].
    apply (quiet_app [_]); [by constructor|done].
Qed.

Lemma regenEncode_run revokedCerts caCert caPrivKey w :
  let now := w_clock w (w_reads w) in
  regenEncode revokedCerts caCert caPrivKey w
  = ((now, time.ToUnix now,
      x509_CreateRevocationList (w_entropy w) (templateOf revokedCerts now) caCert caPrivKey),
     evolve w 1 1 (w_cache w) [EvCreateRevocationList]).
Proof. reflexivity. Qed.

Lemma os_WriteFile_run name data w :
  os_WriteFile name data w
  = ((dirWrite (w_cache w) name data).1, withCache w (dirWrite (w_cache w) name data).2).
Proof.
  unfold os_WriteFile, dirWrite. destruct w as [? ? ? [d|] ? ? ? ?]; simpl; [|reflexivity].
  destruct (d !! name) as [[| |]|]; reflexivity.
Qed.

Lemma saveCachedCRL_run s w :
  saveCachedCRL s w
  = ((dirSave s (w_cache w)).1, withCache w (dirSave s (w_cache w)).2).
Proof.
  unfold saveCachedCRL, dirSave, bind. rewrite os_WriteFile_run.
  fold (derName (cacheNumber s)) (metaName (cacheNumber s)) (metaBytes (cacheTime s)).
  destruct (dirWrite (w_cache w) _ _) as [[e|] dir1]; cbn [fst snd ret]; [reflexivity|].
  rewrite os_WriteFile_run. cbn [w_cache withCache].
  destruct (dirWrite dir1 _ _) as [[e|] dir2]; reflexivity.
Qed.

Lemma regenPersist_run s crlNumber w :
  exists evs,
    regenPersist s crlNumber w = (tt, evolve w 0 0 (dirSave s (w_cache w)).2 evs)
    /\ quiet evs
    /\ (forall e, (dirSave s (w_cache w)).1 = Some e ->
        EvLog ("Warning: failed to save CRL to cache: " +:+ e) ∈ evs)
    /\ EvLog ("Generated new CRL with number " +:+ strconv.FormatInt crlNumber) ∈ evs.
Proof.
  unfold regenPersist, bind. rewrite saveCachedCRL_run.
  destruct (dirSave s (w_cache w)) as [[e|] dir']; cbn [fst snd];
    unfold log, emit, ret;
    change (addTrace (withCache w dir') ?evs) with (evolve w 0 0 dir' ([] ++ evs));
    rewrite ?addTrace_evolve; eexists.
  - split; [reflexivity|]. split; [by repeat constructor|]. split.
    + intros e' [= <-]. set_solver.
    + set_solver.
  - split; [reflexivity|]. split; [by repeat constructor|]. split; [done|set_solver].
Qed.

(** A regeneration, case by case: what it returns, the server it leaves,
    the world it leaves, and how often it called the credential loader and
    the encoding primitive. *)
Lemma regenerate_run s w :
  exists evs,
    calls EvLoadCertAndKey evs = 1%nat /\
    match outcomeOf w with
    | CredentialsFailed e =>
        regenerate s w
        = (Err (wrap "loading certificate and key" e), s, evolve w 0 0 (w_cache w) evs)
        /\ calls EvCreateRevocationList evs = 0%nat
    | RegistryFailed e =>
        regenerate s w
        = (Err (wrap "loading revoked certificates" e), s, evolve w 0 0 (w_cache w) evs)
        /\ calls EvCreateRevocationList evs = 0%nat
    | EncodingFailed e =>
        regenerate s w = (Err (wrap "creating CRL" e), s, evolve w 1 1 (w_cache w) evs)
        /\ calls EvCreateRevocationList evs = 1%nat
    | Regenerated crlBytes now crlNumber =>
        let s' := mkCRLServer (Some crlBytes) now (Some crlNumber) in
        regenerate s w
        = (Ok crlBytes, s', evolve w 1 1 (dirSave s' (w_cache w)).2 evs)
        /\ calls EvCreateRevocationList evs = 1%nat
        /\ (forall e, (dirSave s' (w_cache w)).1 = Some e ->
            EvLog ("Warning: failed to save CRL to cache: " +:+ e) ∈ evs)
    end.
Proof.
  unfold regenerate, outcomeOf, bind.
  destruct (regenCredentials_run w) as (evs1 & -> & Hl1 & Hc1).
  destruct (credentialsResult (w_crt w) (w_key w)) as [[caCert caPrivKey]|e].
  2:{ exists evs1. unfold ret. auto. }
  destruct (regenRegistry_run (addTrace w evs1)) as (evs2 & -> & Hq2).
  cbn [w_list addTrace]. rewrite addTrace_app.
  pose proof (calls_quiet EvLoadCertAndKey evs2 eq_refl Hq2) as Hl2.
  pose proof (calls_quiet EvCreateRevocationList evs2 eq_refl Hq2) as Hc2.
  destruct (registryResult (w_list w)) as [revokedCerts|e].
  2:{ exists (evs1 ++ evs2). rewrite !calls_app, Hl1, Hl2, Hc1, Hc2. unfold ret. auto. }
  rewrite regenEncode_run. cbn [w_clock w_reads w_entropy w_cache addTrace].
  change (evolve (addTrace w (evs1 ++ evs2)) 1 1 (w_cache w) [EvCreateRevocationList])
    with (evolve (evolve w 0 0 (w_cache w) (evs1 ++ evs2)) 1 1 (w_cache w)
                 [EvCreateRevocationList]).
  rewrite evolve_evolve. cbn [Nat.add].
  destruct (x509_CreateRevocationList _ _ _ _) as [crlBytes|e].
  2:{ exists ((evs1 ++ evs2) ++ [EvCreateRevocationList]).
      rewrite !calls_app, Hl1, Hl2, Hc1, Hc2. unfold ret. auto. }
  cbn [cachedCRL cacheTime cacheNumber].
  destruct (regenPersist_run
              (mkCRLServer (Some crlBytes) (w_clock w (w_reads w))
                           (Some (time.ToUnix (w_clock w (w_reads w)))))
              (time.ToUnix (w_clock w (w_reads w)))
              (evolve w 1 1 (w_cache w) ((evs1 ++ evs2) ++ [EvCreateRevocationList])))
    as (evs3 & -> & Hq3 & Hwarn & _).
  rewrite evolve_evolve. cbn [Nat.add w_cache evolve].
  exists (((evs1 ++ evs2) ++ [EvCreateRevocationList]) ++ evs3).
  rewrite !calls_app, Hl1, Hl2, Hc1, Hc2, !(calls_quiet _ evs3) by done.
  split; [reflexivity|]. split; [reflexivity|]. split; [reflexivity|].
  intros e He. apply elem_of_app. right. by apply Hwarn.
Qed.

Lemma cacheValid_run s w :
  cacheValid s w
  = match cachedCRL s with
    | None => (false, w)
    | Some _ => (negb (staleAt s (w_clock w (w_reads w))), tick w)
    end.
Proof.
  unfold cacheValid, staleAt. destruct (cachedCRL s); [|reflexivity].
  unfold bind, time_Since, time_Now, ret. by rewrite negb_involutive.
Qed.

(** [getCRL], case by case: an empty cache regenerates at once; a cached
    artifact is served if the first or the second reading of the clock
    finds it fresh, and regenerated after two readings otherwise. *)
Lemma getCRL_run s w :
  getCRL s w
  = match cachedCRL s with
    | None => regenerate s w
    | Some crl =>
        if staleAt s (w_clock w (w_reads w)) then
          if staleAt s (w_clock w (S (w_reads w))) then regenerate s (tick (tick w))
          else (Ok crl, s, tick (tick w))
        else (Ok crl, s, tick w)
    end.
Proof.
  unfold getCRL, bind. rewrite cacheValid_run.
  destruct (cachedCRL s) as [crl|] eqn:Hc.
  - destruct (staleAt s (w_clock w (w_reads w))); [|reflexivity]. cbn [negb].
    rewrite cacheValid_run, Hc. cbn [w_clock w_reads tick].
    destruct (staleAt s (w_clock w (S (w_reads w)))); reflexivity.
  - rewrite cacheValid_run, Hc. reflexivity.
Qed.

End Runs.

(** ** The readings are what the loaders return *)

Lemma loadCertAndKey_result `{X509} w :
  (loadCertAndKey w).1 = credentialsResult (w_crt w) (w_key w).
Proof. destruct (loadCertAndKey_run w) as (evs & -> & _). reflexivity. Qed.

Lemma loadRevokedCertificates_result w :
  (loadRevokedCertificates w).1 = registryResult (w_list w).
Proof. destruct (loadRevokedCertificates_run w) as (evs & -> & _). reflexivity. Qed.

Lemma getCRL_triggered `{X509} s w :
  triggers s w = true -> getCRL s w = regenerate s (regenWorld s w).
Proof.
  unfold triggers, regenWorld. rewrite getCRL_run.
  destruct (cachedCRL s); [|reflexivity].
  intros [-> ->]%andb_prop. reflexivity.
Qed.

Lemma getCRL_served `{X509} s w :
  triggers s w = false ->
  exists crl w',
    cachedCRL s = Some crl /\ getCRL s w = (Ok crl, s, w')
    /\ w_cache w' = w_cache w /\ w_trace w' = w_trace w
    /\ w_entropy w' = w_entropy w /\ w_clock w' = w_clock w
    /\ (w_reads w <= w_reads w')%nat.
Proof.
  unfold triggers. rewrite getCRL_run.
  destruct (cachedCRL s) as [crl|]; [|discriminate].
  intros Hs. exists crl.
  destruct (staleAt s (w_clock w (w_reads w))).
  - simpl in Hs. rewrite Hs. exists (tick (tick w)). simpl. repeat split; lia.
  - exists (tick w). simpl. repeat split; lia.
Qed.

(** A call that returns an error leaves the server as it was, and the
    cache directory too. *)
Lemma getCRL_error `{X509} s w e s' w' :
  getCRL s w = (Err e, s', w') -> s' = s /\ w_cache w' = w_cache w.
Proof.
  destruct (triggers s w) eqn:Ht.
  - rewrite (getCRL_triggered _ _ Ht).
    destruct (regenerate_run s (regenWorld s w)) as (evs & _ & Hrun).
    assert (Hc : w_cache (regenWorld s w) = w_cache w).
    { unfold regenWorld. by destruct (cachedCRL s). }
    destruct (outcomeOf (regenWorld s w)).
    + destruct Hrun as [-> _]. intros [= _ <- <-]. by rewrite <- Hc.
    + destruct Hrun as [-> _]. intros [= _ <- <-]. by rewrite <- Hc.
    + destruct Hrun as [-> _]. intros [= _ <- <-]. by rewrite <- Hc.
    + destruct Hrun as [-> _]. discriminate.
  - destruct (getCRL_served _ _ Ht) as (crl & w1 & _ & -> & _). discriminate.
Qed.

(** C3 (a failed regeneration does not touch the cache).  Whenever [getCRL]
    returns an error the three fields of the cache are what they were, and
    nothing was written to the cache directory; and a triggered regeneration
    does return an error when the credential loader fails, when the registry
    loader fails, and when the encoding primitive fails. *)
Theorem failed_regeneration_keeps_cache `{X509} (s : CRLServer) (w : World) :
  (forall e s' w', getCRL s w = (Err e, s', w') ->
     cachedCRL s' = cachedCRL s /\ cacheTime s' = cacheTime s
     /\ cacheNumber s' = cacheNumber s /\ w_cache w' = w_cache w)
  /\ (triggers s w = true ->
      let rw := regenWorld s w in
      (forall e, (loadCertAndKey rw).1 = Err e ->
         (getCRL s w).1 = (Err (wrap "loading certificate and key" e), s))
      /\ (forall ck e, (loadCertAndKey rw).1 = Ok ck ->
            (loadRevokedCertificates rw).1 = Err e ->
            (getCRL s w).1 = (Err (wrap "loading revoked certificates" e), s))
      /\ (forall caCert caPrivKey revokedCerts e,
            (loadCertAndKey rw).1 = Ok (caCert, caPrivKey) ->
            (loadRevokedCertificates rw).1 = Ok revokedCerts ->
            x509_CreateRevocationList (w_entropy rw)
              (templateOf revokedCerts (w_clock rw (w_reads rw))) caCert caPrivKey = Err e ->
            (getCRL s w).1 = (Err (wrap "creating CRL" e), s))).
Proof.
  split.
  - intros e s' w' Hget. destruct (getCRL_error _ _ _ _ _ Hget) as [-> Hc]. auto.
  - intros Ht rw. rewrite (getCRL_triggered _ _ Ht). fold rw.
    rewrite loadCertAndKey_result, loadRevokedCertificates_result.
    destruct (regenerate_run s rw) as (evs & _ & Hrun). unfold outcomeOf in Hrun.
    repeat split.
    + intros e He. rewrite He in Hrun. by destruct Hrun as [-> _].
    + intros [c k] e Hck He. rewrite Hck, He in Hrun. by destruct Hrun as [-> _].
    + intros c k rcs e Hck Hrcs He. rewrite Hck, Hrcs, He in Hrun.
      by destruct Hrun as [-> _].
Qed.

Lemma failed_regeneration_keeps_cache_witness :
  (@getCRL toyX509 newServer (toyWorld NotExist NotExist NotExist None 0)).1
  = (Err (wrap "loading certificate and key"
            (wrap "reading cert file" "open tls/tls.crt: no such file or directory")), newServer).
Proof.
  destruct (@failed_regeneration_keeps_cache toyX509 newServer
              (toyWorld NotExist NotExist NotExist None 0)) as [_ Hfail].
  destruct (Hfail eq_refl) as [Hcreds _].
  apply Hcreds. reflexivity.
Defined.

(** ** The scanner *)

Lemma scan_readErr data e : forall cur n,
  exists e', (bufio.scan data cur n (Some e)).2 = Some e'.
Proof.
  induction data as [|b rest IH]; intros cur n; simpl.
  - by exists e.
  - destruct (Byte.eqb b x0a).
    + destruct (IH [] 0) as [e' He']. exists e'.
      by destruct (bufio.scan rest [] 0 (Some e)).
    + destruct (bufio.MaxScanTokenSize <=? n + 1); [by eexists | apply IH].
Qed.

(** A line that fills the buffer before its line feed stops the scan. *)
Lemma scan_long line : forall rest cur n readErr,
  noLineFeed line = true ->
  n < bufio.MaxScanTokenSize <= n + Z.of_nat (length line) ->
  bufio.scan (line ++ rest) cur n readErr = ([], Some bufio.ErrTooLong).
Proof.
  induction line as [|b line IH]; intros rest cur n readErr Hnl Hlen.
  - simpl in Hlen. lia.
  - simpl in Hnl. apply andb_prop in Hnl as [Hb Hnl].
    apply negb_true_iff in Hb. cbn [app bufio.scan]. rewrite Hb.
    destruct (bufio.MaxScanTokenSize <=? n + 1) eqn:Hfull; [reflexivity|].
    apply Z.leb_gt in Hfull. apply IH; [exact Hnl|].
    rewrite length_cons in Hlen. lia.
Qed.

(** Whatever precedes a line, the scan fails before it or reaches it with
    an empty buffer. *)
Lemma scan_before before : forall rest cur n readErr,
  (bufio.scan (before ++ x0a :: rest) cur n readErr).2 = Some bufio.ErrTooLong
  \/ (bufio.scan (before ++ x0a :: rest) cur n readErr).2
     = (bufio.scan rest [] 0 readErr).2.
Proof.
  induction before as [|b before IH]; intros rest cur n readErr; cbn [app bufio.scan].
  - right. change (Byte.eqb x0a x0a) with true. cbv iota.
    by destruct (bufio.scan rest [] 0 readErr).
  - destruct (Byte.eqb b x0a).
    + destruct (IH rest [] 0 readErr) as [IH'|IH'];
        destruct (bufio.scan (before ++ x0a :: rest) [] 0 readErr); auto.
    + destruct (bufio.MaxScanTokenSize <=? n + 1); [by left | apply IH].
Qed.

Lemma ScanLines_long before line after :
  startsLine before ->
  noLineFeed line = true ->
  bufio.MaxScanTokenSize <= Z.of_nat (length line) ->
  (bufio.ScanLines (before ++ line ++ after) None).2 = Some bufio.ErrTooLong.
Proof.
  intros Hb Hnl Hlen. unfold bufio.ScanLines.
  assert (Hline : bufio.scan (line ++ after) [] 0 None = ([], Some bufio.ErrTooLong)).
  { apply scan_long; [exact Hnl|]. unfold bufio.MaxScanTokenSize in *. lia. }
  destruct Hb as [->|[b ->]].
  - simpl. by rewrite Hline.
  - rewrite <- app_assoc. cbn [app].
    destruct (scan_before b (line ++ after) [] 0 None) as [->| ->]; [done|].
    by rewrite Hline.
Qed.

(** A regeneration in which the registry cannot be loaded: an error, the
    server as it was, no call of the encoding primitive, nothing saved. *)
Lemma regenerate_registry_error `{X509} s w e :
  registryResult (w_list w) = Err e ->
  exists e' w',
    regenerate s w = (Err e', s, w')
    /\ calls EvCreateRevocationList (w_trace w') = calls EvCreateRevocationList (w_trace w)
    /\ w_cache w' = w_cache w.
Proof.
  intros He. destruct (regenerate_run s w) as (evs & _ & Hrun).
  unfold outcomeOf in Hrun. rewrite He in Hrun.
  destruct (credentialsResult (w_crt w) (w_key w)) as [[c k]|e1];
    destruct Hrun as [-> Hc]; do 2 eexists; (split; [reflexivity|]);
    cbn [w_trace w_cache evolve]; rewrite calls_app, Hc; (split; [lia|reflexivity]).
Qed.

(** C7 (missing registry, and the other failures of its source).  A registry
    file that does not exist gives the empty sequence and no error.  A
    failure to open it for another reason, and a read error while scanning,
    give an error; and the regeneration that asked for the registry then
    aborts: [getCRL] returns an error, the cache is untouched and the
    encoding primitive is not called. *)
Theorem missing_registry :
  (forall w, loadRevokedCertificates (withList w NotExist) = (Ok [], withList w NotExist))
  /\ (forall w e,
        loadRevokedCertificates (withList w (OpenFails e))
        = (Err (wrap "opening file" e), withList w (OpenFails e)))
  /\ (forall w data e,
        exists e', (loadRevokedCertificates (withList w (Content data (Some e)))).1
                   = Err (wrap "reading file" e'))
  /\ (forall (X : X509) s w e,
        triggers s w = true ->
        (loadRevokedCertificates (regenWorld s w)).1 = Err e ->
        exists e' w',
          getCRL s w = (Err e', s, w')
          /\ calls EvCreateRevocationList (w_trace w')
             = calls EvCreateRevocationList (w_trace w)
          /\ w_cache w' = w_cache w).
Proof.
  split; [|split; [|split]].
  - reflexivity.
  - reflexivity.
  - intros w data e. rewrite loadRevokedCertificates_result. cbn [w_list withList].
    unfold registryResult, bufio.ScanLines.
    destruct (scan_readErr data e [] 0) as [e' He'].
    destruct (bufio.scan data [] 0 (Some e)) as [lines scanErr].
    simpl in He'. subst scanErr. by exists e'.
  - intros X s w e Ht He. rewrite (getCRL_triggered _ _ Ht).
    rewrite loadRevokedCertificates_result in He.
    destruct (regenerate_registry_error s _ _ He) as (e' & w' & -> & Hc & Hd).
    exists e', w'. split; [reflexivity|].
    unfold regenWorld in Hc, Hd. destruct (cachedCRL s); auto.
Qed.

Lemma missing_registry_witness :
  exists e' w',
    @getCRL toyX509 newServer
      (toyWorld (Content [x01] None) (Content [x08; x02] None) (OpenFails "permission denied")
                (Some ∅) 1700000000000000000)
    = (Err e', newServer, w')
    /\ calls EvCreateRevocationList (w_trace w') = 0%nat
    /\ w_cache w' = Some ∅.
Proof.
  destruct missing_registry as (_ & _ & _ & Habort).
  apply (Habort toyX509 newServer
           (toyWorld (Content [x01] None) (Content [x08; x02] None)
                     (OpenFails "permission denied") (Some ∅) 1700000000000000000)
           (wrap "opening file" "permission denied")).
  - reflexivity.
  - reflexivity.
Defined.

(** C10 (a line too long for the scanner).  A registry one of whose lines
    holds [MaxScanTokenSize] bytes or more before its line feed is not loaded
    at all, whatever its other lines are: the loader returns the scanner's
    error, and the regeneration that asked for the registry aborts. *)
Theorem long_line_aborts_load :
  (exists line, bufio.MaxScanTokenSize <= Z.of_nat (length line) /\ noLineFeed line = true)
  /\ (forall w before line after,
        startsLine before ->
        noLineFeed line = true ->
        bufio.MaxScanTokenSize <= Z.of_nat (length line) ->
        (loadRevokedCertificates (withList w (Content (before ++ line ++ after) None))).1
        = Err (wrap "reading file" bufio.ErrTooLong))
  /\ (forall (X : X509) s w before line after,
        startsLine before ->
        noLineFeed line = true ->
        bufio.MaxScanTokenSize <= Z.of_nat (length line) ->
        w_list w = Content (before ++ line ++ after) None ->
        triggers s w = true ->
        exists e' w',
          getCRL s w = (Err e', s, w')
          /\ calls EvCreateRevocationList (w_trace w')
             = calls EvCreateRevocationList (w_trace w)).
Proof.
  split; [|split].
  - exists (replicate (Z.to_nat bufio.MaxScanTokenSize) x41). split.
    + rewrite length_replicate. lia.
    + unfold noLineFeed. apply forallb_forall. intros b Hb.
      apply list_elem_of_In, elem_of_replicate in Hb as [-> _]. reflexivity.
  - intros w before line after Hb Hnl Hlen.
    rewrite loadRevokedCertificates_result. cbn [w_list withList]. unfold registryResult.
    pose proof (ScanLines_long before line after Hb Hnl Hlen) as Hscan.
    destruct (bufio.ScanLines _ None) as [lines scanErr]. simpl in Hscan. by subst.
  - intros X s w before line after Hb Hnl Hlen Hw Ht.
    rewrite (getCRL_triggered _ _ Ht).
    assert (He : registryResult (w_list (regenWorld s w))
                 = Err (wrap "reading file" bufio.ErrTooLong)).
    { replace (w_list (regenWorld s w)) with (w_list w)
        by (unfold regenWorld; by destruct (cachedCRL s)).
      rewrite Hw. unfold registryResult.
      pose proof (ScanLines_long before line after Hb Hnl Hlen) as Hscan.
      destruct (bufio.ScanLines _ None) as [lines scanErr]. simpl in Hscan. by subst. }
    destruct (regenerate_registry_error s _ _ He) as (e' & w' & -> & Hc & _).
    exists e', w'. split; [reflexivity|].
    unfold regenWorld in Hc. by destruct (cachedCRL s).
Qed.

Lemma long_line_aborts_load_witness :
  (loadRevokedCertificates
     (toyWorld NotExist NotExist (Content longRegistry None) None 0)).1
  = Err (wrap "reading file" bufio.ErrTooLong).
Proof.
  destruct long_line_aborts_load as (_ & Hload & _).
  apply (Hload (toyWorld NotExist NotExist NotExist None 0)
               (list_byte_of_string "1A2B:1700000000:1" ++ [x0a])
               (replicate (Z.to_nat bufio.MaxScanTokenSize) x41) [x0a]).
  - right. eexists. reflexivity.
  - vm_compute. reflexivity.
  - vm_compute. discriminate.
Defined.

(** ** Persistence is best effort *)

Lemma append_inv_head p a b : p +:+ a = p +:+ b -> a = b.
Proof. induction p as [|c p IH]; simpl; [done|]. intros [= Heq]. auto. Qed.

Lemma derName_ne_metaName number : derName number <> metaName number.
Proof.
  unfold derName, metaName. intros Heq.
  apply append_inv_head, append_inv_head in Heq. discriminate.
Qed.

Lemma outcomeOf_withCache `{X509} s w dir :
  outcomeOf (regenWorld s (withCache w dir)) = outcomeOf (regenWorld s w).
Proof. unfold regenWorld. by destruct (cachedCRL s). Qed.

(** C9 (persistence never fails the request).  When the loaders and the
    encoding primitive succeed, [getCRL] returns the new bytes and no error
    whatever the state of the cache directory is: the server holds the new
    artifact, it is this artifact that [saveCachedCRL] is given, and an error
    of [saveCachedCRL] - from the write of the payload or from the write of
    the metadata - only adds a warning to the log. *)
Theorem persistence_is_best_effort `{X509} s w crlBytes now crlNumber :
  triggers s w = true ->
  outcomeOf (regenWorld s w) = Regenerated crlBytes now crlNumber ->
  let s' := mkCRLServer (Some crlBytes) now (Some crlNumber) in
  forall dir,
    (getCRL s (withCache w dir)).1 = (Ok crlBytes, s')
    /\ w_cache (getCRL s (withCache w dir)).2 = (dirSave s' dir).2
    /\ (forall e, (dirSave s' dir).1 = Some e ->
        EvLog ("Warning: failed to save CRL to cache: " +:+ e)
          ∈ w_trace (getCRL s (withCache w dir)).2)
    /\ dirSave s' None = (Some writeFailed, None)
    /\ dirSave s' (Some {[metaName (Some crlNumber) := Locked]})
       = (Some writeFailed,
          Some (<[derName (Some crlNumber) := File crlBytes]>
                  {[metaName (Some crlNumber) := Locked]})).
Proof.
  intros Ht Hout s' dir.
  assert (Ht' : triggers s (withCache w dir) = true) by exact Ht.
  rewrite (getCRL_triggered _ _ Ht').
  destruct (regenerate_run s (regenWorld s (withCache w dir))) as (evs & _ & Hrun).
  rewrite outcomeOf_withCache, Hout in Hrun. destruct Hrun as (-> & _ & Hwarn).
  assert (Hdir : w_cache (regenWorld s (withCache w dir)) = dir).
  { unfold regenWorld. by destruct (cachedCRL s). }
  rewrite Hdir in *. fold s' in Hwarn |- *. cbn [fst snd w_cache w_trace evolve].
  split; [reflexivity|]. split; [reflexivity|]. split.
  - intros e He. apply elem_of_app. right. by apply Hwarn.
  - split; [reflexivity|].
    unfold dirSave, dirWrite. cbn [cacheNumber cachedCRL cacheTime s' bytesOf default].
    pose proof (derName_ne_metaName (Some crlNumber)) as Hne.
    rewrite lookup_singleton_ne by done.
    rewrite lookup_insert_ne by done. rewrite lookup_singleton_eq. reflexivity.
Qed.

Lemma persistence_is_best_effort_witness :
  (@getCRL toyX509 newServer
     (withCache (toyWorld (Content [x01] None) (Content [x08; x02] None) NotExist
                          (Some ∅) 1700000000000000000) None)).1
  = (Ok (list_byte_of_string "1700000000/0"),
     mkCRLServer (Some (list_byte_of_string "1700000000/0"))
                 1700000000000000000 (Some 1700000000)).
Proof.
  apply (@persistence_is_best_effort toyX509 newServer
           (toyWorld (Content [x01] None) (Content [x08; x02] None) NotExist
                     (Some ∅) 1700000000000000000)
           (list_byte_of_string "1700000000/0") 1700000000000000000 1700000000).
  - reflexivity.
  - vm_compute. reflexivity.
Defined.

(** ** The credential loader *)

(** C8, as the code has it.  The key block is given to the PKCS#8 decoder,
    then to the PKCS#1 decoder, then to the EC decoder, each only if the one
    before failed, and the first key that parses is taken.  That key must
    expose a signing capability: if it does not, the loader fails without
    trying another format.  If all three decoders fail, the error is
    "parsing key: " followed by the error of the EC decoder, the last one
    tried; the errors of the first two attempts are dropped. *)
Theorem key_decoding_order `{X509} (der : list byte) (w : World) :
  match x509_ParsePKCS8PrivateKey der,
        x509_ParsePKCS1PrivateKey der,
        x509_ParseECPrivateKey der with
  | Ok k, _, _ =>
      parseKey der w = (Ok k, addTrace w [EvParseKey PKCS8])
  | Err _, Ok k, _ =>
      parseKey der w = (Ok k, addTrace w [EvParseKey PKCS8; EvParseKey PKCS1])
  | Err _, Err _, Ok k =>
      parseKey der w
      = (Ok k, addTrace w [EvParseKey PKCS8; EvParseKey PKCS1; EvParseKey EC])
  | Err _, Err _, Err e =>
      parseKey der w
      = (Err (wrap "parsing key" e),
         addTrace w [EvParseKey PKCS8; EvParseKey PKCS1; EvParseKey EC])
  end
  /\ (forall certData certBlock caCert keyData,
        readSource crtFile (w_crt w) = Ok certData ->
        pem_Decode certData = Some certBlock ->
        x509_ParseCertificate certBlock = Ok caCert ->
        readSource keyFile (w_key w) = Ok keyData ->
        pem_Decode keyData = Some der ->
        (loadCertAndKey w).1
        = match (parseKey der w).1 with
          | Err e => Err e
          | Ok caPrivKey =>
              match asSigner caPrivKey with
              | None => Err "key does not implement crypto.Signer"
              | Some signer => Ok (caCert, signer)
              end
          end).
Proof.
  split.
  - rewrite parseKey_run. unfold keyResult, keyAttempts.
    destruct (x509_ParsePKCS8PrivateKey der); [reflexivity|].
    destruct (x509_ParsePKCS1PrivateKey der); [reflexivity|].
    destruct (x509_ParseECPrivateKey der); reflexivity.
  - intros certData certBlock caCert keyData Hcrt Hcb Hcert Hkey Hkb.
    rewrite loadCertAndKey_result, parseKey_run. unfold credentialsResult.
    rewrite Hcrt, Hcb, Hcert, Hkey, Hkb. reflexivity.
Qed.

Lemma key_decoding_order_witness :
  (@loadCertAndKey toyX509
     (toyWorld (Content [x01] None) (Content [x01; x02] None) NotExist None 0)).1
  = Ok ([x01], [x01; x02]).
Proof.
  destruct (@key_decoding_order toyX509 [x01; x02]
              (toyWorld (Content [x01] None) (Content [x01; x02] None) NotExist None 0))
    as [_ Hload].
  apply (Hload [x01] [x01] [x01] [x01; x02]); reflexivity.
Defined.

(** The error of a key no decoder accepts names the EC format only, though
    all three were attempted: the claim that the description states the
    formats attempted fails. *)
Lemma key_error_names_last_attempt_only : ~ errorStatesAttempts toyX509.
Proof.
  intros Hclaim.
  specialize (Hclaim [x00] (toyWorld NotExist NotExist NotExist None 0)
                (wrap "parsing key"
                   "x509: failed to parse EC private key: asn1: structure error: tags don't match")
                eq_refl PKCS8).
  assert (Hin : PKCS8 ∈ @keyAttempts toyX509 [x00]) by (vm_compute; set_solver).
  specialize (Hclaim Hin). vm_compute in Hclaim. discriminate.
Qed.

(** ** Numbers increase *)

Lemma wrap64_id x :
  strconv.minInt64 <= x <= strconv.maxInt64 -> time.wrap64 x = x.
Proof.
  unfold time.wrap64, strconv.minInt64, strconv.maxInt64. intros Hx.
  rewrite Z.mod_small; lia.
Qed.

Lemma staleAt_elapsed s t crl :
  cachedCRL s = Some crl -> staleAt s t = true -> cacheTime s + cacheDuration <= t.
Proof.
  unfold staleAt. intros -> Hs. apply negb_true_iff, Z.ltb_ge in Hs.
  unfold time.Sub, time.minDuration, time.maxDuration, cacheDuration, time.Hour,
    time.Second in *. lia.
Qed.

(** An hour later, the Unix second is larger. *)
Lemma ToUnix_later clock i j :
  saneClock clock -> clock i + cacheDuration <= clock j ->
  time.ToUnix (clock i) < time.ToUnix (clock j).
Proof.
  intros Hsane Hle. unfold time.ToUnix.
  rewrite !wrap64_id by apply Hsane.
  unfold cacheDuration, time.Hour, time.Second in *.
  assert (clock i / 1000000000 + 3600 <= clock j / 1000000000); [|lia].
  rewrite <- Z.div_add by lia. apply Z.div_le_mono; lia.
Qed.

(** What one request does to the server: nothing, or a regeneration at a
    reading of the clock an hour or more after the time of the artifact it
    replaces. *)
Lemma getCRL_step `{X509} s w r s' w' :
  monotoneClock (w_clock w) ->
  getCRL s w = (r, s', w') ->
  w_clock w' = w_clock w
  /\ ((triggers s w && is_ok r = false /\ s' = s
       /\ (is_ok r = true -> w_trace w' = w_trace w))
      \/ exists crlBytes k,
           triggers s w = true /\ r = Ok crlBytes
           /\ (w_reads w <= k < w_reads w')%nat
           /\ s' = mkCRLServer (Some crlBytes) (w_clock w k) (Some (time.ToUnix (w_clock w k)))
           /\ calls EvCreateRevocationList (w_trace w')
              = S (calls EvCreateRevocationList (w_trace w))
           /\ (forall crl, cachedCRL s = Some crl -> cacheTime s + cacheDuration <= w_clock w k)).
Proof.
  intros Hmono Hget. destruct (triggers s w) eqn:Ht.
  - rewrite (getCRL_triggered _ _ Ht) in Hget.
    destruct (regenerate_run s (regenWorld s w)) as (evs & _ & Hrun).
    assert (Hclock : w_clock (regenWorld s w) = w_clock w).
    { unfold regenWorld. by destruct (cachedCRL s). }
    assert (Hreads : (w_reads w <= w_reads (regenWorld s w))%nat).
    { unfold regenWorld. destruct (cachedCRL s); simpl; lia. }
    assert (Htrace : w_trace (regenWorld s w) = w_trace w).
    { unfold regenWorld. by destruct (cachedCRL s). }
    unfold outcomeOf in Hrun. rewrite Hclock in Hrun.
    destruct (credentialsResult _ _) as [[c k]|e];
      [destruct (registryResult _) as [rcs|e];
       [destruct (x509_CreateRevocationList _ _ _ _) as [crlBytes|e]|]|].
    + destruct Hrun as (Hrun & Hcalls & _). rewrite Hrun in Hget.
      injection Hget as <- <- <-.
      split; [by rewrite <- Hclock|]. right.
      exists crlBytes, (w_reads (regenWorld s w)).
      split; [reflexivity|]. split; [reflexivity|].
      split; [cbn [evolve w_reads]; lia|]. split; [reflexivity|].
      split; [cbn [evolve w_trace]; rewrite calls_app, Htrace; lia|].
      intros crl Hcrl. unfold triggers, regenWorld in *. rewrite Hcrl in *.
      apply andb_prop in Ht as [_ Ht].
      pose proof (staleAt_elapsed _ _ _ Hcrl Ht) as Hel.
      etrans; [exact Hel|]. apply Hmono. simpl. lia.
    + destruct Hrun as (Hrun & _). rewrite Hrun in Hget. injection Hget as <- <- <-.
      split; [by rewrite <- Hclock|]. by left.
    + destruct Hrun as (Hrun & _). rewrite Hrun in Hget. injection Hget as <- <- <-.
      split; [by rewrite <- Hclock|]. by left.
    + destruct Hrun as (Hrun & _). rewrite Hrun in Hget. injection Hget as <- <- <-.
      split; [by rewrite <- Hclock|]. by left.
  - destruct (getCRL_served _ _ Ht) as (crl & w1 & _ & Hget' & _ & Htr & _ & Hclock & _).
    rewrite Hget' in Hget. injection Hget as <- <- <-.
    split; [exact Hclock|]. by left.
Qed.

(** The invariant of a lifetime: the numbers to come increase, and all
    exceed the Unix second of the artifact now cached, when its time is a
    reading of the clock. *)
Lemma lifetime_increasing `{X509} s w ns :
  lifetime s w ns ->
  monotoneClock (w_clock w) -> saneClock (w_clock w) ->
  StronglySorted Z.lt ns
  /\ (forall crl j, cachedCRL s = Some crl -> cacheTime s = w_clock w j ->
      Forall (fun n => time.ToUnix (cacheTime s) < n) ns).
Proof.
  induction 1 as [s w|s w w' ns [Hclock _] _ IH|s w r s' w' ns Hget _ IH];
    intros Hmono Hsane.
  - split; [constructor|]. intros. constructor.
  - rewrite Hclock in IH. exact (IH Hmono Hsane).
  - destruct (getCRL_step _ _ _ _ _ Hmono Hget) as [Hclock Hstep].
    rewrite Hclock in IH. specialize (IH Hmono Hsane) as [IHs IHb].
    unfold generated.
    destruct Hstep as [(-> & -> & _)|(crlBytes & k & -> & -> & _ & -> & _ & Hold)]; [by split|].
    specialize (IHb crlBytes k eq_refl eq_refl). cbn [cacheTime] in IHb.
    cbn [is_ok andb cacheNumber option_list app].
    split.
    + constructor; assumption.
    + intros crl j Hcrl Htime. specialize (Hold crl Hcrl). rewrite Htime in *.
      pose proof (ToUnix_later _ _ _ Hsane Hold) as Hlt.
      constructor; [exact Hlt|].
      eapply Forall_impl; [exact IHb|]. intros n Hn. simpl in Hn. lia.
Qed.

(** C2 (freshness monotonicity).  With a clock that does not go backwards,
    the numbers of the artifacts generated in one lifetime of the process,
    taken in the order of their generation, strictly increase: each is
    smaller than every later one.  And for each request: it regenerates
    only when it finds the cache empty or stale at both of its checks; when
    it does and succeeds, the regeneration is counted, the encoding primitive
    was called once, the number installed is the Unix second of a reading
    [k] of the clock taken during the request, [cacheTime] is that reading,
    and the artifact it replaces, if any, is an hour old or older at that
    reading; every other request leaves the cache as it was, and when it
    succeeds it has called nothing and logged nothing. *)
Theorem numbers_strictly_increase `{X509} s w ns :
  monotoneClock (w_clock w) ->
  saneClock (w_clock w) ->
  lifetime s w ns ->
  StronglySorted Z.lt ns
  /\ forall r s' w',
       getCRL s w = (r, s', w') ->
       if triggers s w && is_ok r
       then exists crlBytes k,
              r = Ok crlBytes
              /\ (w_reads w <= k < w_reads w')%nat
              /\ s' = mkCRLServer (Some crlBytes) (w_clock w k)
                                  (Some (time.ToUnix (w_clock w k)))
              /\ generated s w r s' = [time.ToUnix (w_clock w k)]
              /\ calls EvCreateRevocationList (w_trace w')
                 = S (calls EvCreateRevocationList (w_trace w))
              /\ (forall crl, cachedCRL s = Some crl ->
                  cacheTime s + cacheDuration <= w_clock w k)
       else s' = s /\ generated s w r s' = []
            /\ (is_ok r = true -> w_trace w' = w_trace w).
Proof.
  intros Hmono Hsane Hlife.
  split; [exact (proj1 (lifetime_increasing s w ns Hlife Hmono Hsane))|].
  intros r s' w' Hget.
  destruct (getCRL_step _ _ _ _ _ Hmono Hget)
    as [_ [(Hno & -> & Hquiet)|(crlBytes & k & Ht & -> & Hk & -> & Hcalls & Hold)]].
  - unfold generated. by rewrite Hno.
  - unfold generated. rewrite Ht. cbn [is_ok andb cacheNumber option_list].
    by exists crlBytes, k.
Qed.

Lemma hourlyClock_monotone : monotoneClock hourlyClock.
Proof.
  intros i j Hij. unfold hourlyClock, time.Hour, time.Second. lia.
Qed.

Lemma hourlyClock_sane : saneClock hourlyClock.
Proof.
  intros i. unfold hourlyClock, time.Hour, time.Second, strconv.minInt64, strconv.maxInt64.
  assert (0 <= Z.of_nat (Nat.min i 8) <= 8) by lia.
  split.
  - etrans; [|apply Z.div_pos; lia]. lia.
  - apply Z.div_le_upper_bound; lia.
Qed.

Lemma triple_eta {A B C} (x : A * B * C) : x = (x.1.1, x.1.2, x.2).
Proof. by destruct x as [[? ?] ?]. Qed.

Lemma numbers_strictly_increase_witness :
  StronglySorted Z.lt ([1700000000] ++ [1700010800] ++ [])
  /\ (@getCRL toyX509 newServer hourlyWorld).1.2
     = mkCRLServer (Some (list_byte_of_string "1700000000/0")) (hourlyClock 0)
                   (Some 1700000000).
Proof.
  pose (x1 := @getCRL toyX509 newServer hourlyWorld).
  pose (x2 := @getCRL toyX509 x1.1.2 x1.2).
  assert (E1 : generated newServer hourlyWorld x1.1.1 x1.1.2 = [1700000000])
    by (vm_compute; reflexivity).
  assert (E2 : generated x1.1.2 x1.2 x2.1.1 x2.1.2 = [1700010800])
    by (vm_compute; reflexivity).
  rewrite <- E1, <- E2.
  destruct (@numbers_strictly_increase toyX509 newServer hourlyWorld
              (generated newServer hourlyWorld x1.1.1 x1.1.2
                 ++ generated x1.1.2 x1.2 x2.1.1 x2.1.2 ++ []))
    as [Hsorted _].
  - exact hourlyClock_monotone.
  - exact hourlyClock_sane.
  - apply (life_request newServer hourlyWorld x1.1.1 x1.1.2 x1.2); [apply triple_eta|].
    apply (life_request x1.1.2 x1.2 x2.1.1 x2.1.2 x2.2); [apply triple_eta|].
    apply life_end.
  - split; [exact Hsorted|]. vm_compute. reflexivity.
Defined.

(** ** Prefixes and suffixes *)

Lemma append_assoc a b c : (a +:+ b) +:+ c = a +:+ (b +:+ c).
Proof. induction a as [|x a IH]; [done|]. rewrite !append_cons. by f_equal. Qed.

Lemma length_append a b :
  String.length (a +:+ b) = (String.length a + String.length b)%nat.
Proof. induction a as [|x a IH]; [done|]. rewrite append_cons. simpl. by f_equal. Qed.

Lemma HasPrefix_append p r : strings.HasPrefix (p +:+ r) p = true.
Proof.
  induction p as [|c p IH]; [done|]. rewrite append_cons. cbn -[Ascii.eqb].
  by rewrite Ascii.eqb_refl.
Qed.

Lemma drop_append p r : strings.drop (String.length p) (p +:+ r) = r.
Proof. induction p as [|c p IH]; [by destruct r|]. exact IH. Qed.

Lemma drop_append_add p r k :
  strings.drop (String.length p + k) (p +:+ r) = strings.drop k r.
Proof. induction p as [|c p IH]; [done|]. exact IH. Qed.

Lemma take_append r q : strings.take (String.length r) (r +:+ q) = r.
Proof.
  induction r as [|c r IH]; [by destruct q|]. rewrite append_cons. simpl. by f_equal.
Qed.

Lemma take_drop n s : strings.take n s +:+ strings.drop n s = s.
Proof.
  revert s. induction n as [|n IH]; intros [|c s]; try done.
  simpl. rewrite append_cons. by f_equal.
Qed.

Lemma HasPrefix_inv s p :
  strings.HasPrefix s p = true -> s = p +:+ strings.drop (String.length p) s.
Proof.
  revert s. induction p as [|c p IH]; intros s; [by destruct s|].
  destruct s as [|a s]; [done|]. cbn -[Ascii.eqb].
  destruct (Ascii.eqb_spec c a) as [->|]; [|done].
  intros Hp. rewrite append_cons. f_equal. by apply IH.
Qed.

Lemma TrimPrefix_append p r : strings.TrimPrefix (p +:+ r) p = r.
Proof. unfold strings.TrimPrefix. by rewrite HasPrefix_append, drop_append. Qed.

Lemma HasSuffix_append r q : strings.HasSuffix (r +:+ q) q = true.
Proof.
  unfold strings.HasSuffix. rewrite length_append.
  replace (String.length r + String.length q - String.length q)%nat
    with (String.length r) by lia.
  rewrite drop_append, String.eqb_refl.
  apply andb_true_intro. split; [apply Nat.leb_le; lia | done].
Qed.

Lemma TrimSuffix_append r q : strings.TrimSuffix (r +:+ q) q = r.
Proof.
  unfold strings.TrimSuffix. rewrite HasSuffix_append, length_append.
  replace (String.length r + String.length q - String.length q)%nat
    with (String.length r) by lia.
  apply take_append.
Qed.

Lemma HasSuffix_inv s q :
  strings.HasSuffix s q = true ->
  s = strings.take (String.length s - String.length q) s +:+ q.
Proof.
  unfold strings.HasSuffix. intros [_ Heq%String.eqb_eq]%andb_prop.
  rewrite <- Heq at 2. symmetry. apply take_drop.
Qed.

(** A suffix no longer than [r] is a suffix of [p +:+ r] when it is one of
    [r]. *)
Lemma HasSuffix_skip p r q :
  (String.length q <= String.length r)%nat ->
  strings.HasSuffix (p +:+ r) q = strings.HasSuffix r q.
Proof.
  intros Hlen. unfold strings.HasSuffix. rewrite length_append.
  replace (String.length p + String.length r - String.length q)%nat
    with (String.length p + (String.length r - String.length q))%nat by lia.
  rewrite drop_append_add. f_equal.
  destruct (Nat.leb_spec (String.length q) (String.length r)); [|lia].
  apply Nat.leb_le. lia.
Qed.

(** The names the recovery looks at: a name that starts with "crl-" and
    ends with ".der" is "crl-", some text, then ".der", and the text is what
    the two trims leave. *)
Lemma cache_name_inv name :
  strings.HasPrefix name "crl-" = true ->
  strings.HasSuffix name ".der" = true ->
  name = "crl-" +:+ strings.TrimSuffix (strings.TrimPrefix name "crl-") ".der" +:+ ".der".
Proof.
  intros Hp Hs. unfold strings.TrimPrefix. rewrite Hp.
  apply HasPrefix_inv in Hp. set (rest := strings.drop _ name) in *.
  rewrite Hp in Hs |- *. clearbody rest. clear Hp. f_equal.
  assert (Hrest : strings.HasSuffix rest ".der" = true).
  { destruct rest as [|a [|b [|c [|d rest]]]];
      try (exfalso; revert Hs; unfold strings.HasSuffix; cbn -[Ascii.eqb];
           rewrite ?andb_false_r; discriminate).
    rewrite HasSuffix_skip in Hs; [exact Hs | simpl; lia]. }
  unfold strings.TrimSuffix. rewrite Hrest. by apply HasSuffix_inv.
Qed.

Lemma cache_name_trim numberStr :
  strings.HasPrefix ("crl-" +:+ numberStr +:+ ".der") "crl-" = true
  /\ strings.HasSuffix ("crl-" +:+ numberStr +:+ ".der") ".der" = true
  /\ strings.TrimSuffix (strings.TrimPrefix ("crl-" +:+ numberStr +:+ ".der") "crl-") ".der"
     = numberStr.
Proof.
  split; [apply HasPrefix_append|]. split.
  - rewrite <- append_assoc. apply HasSuffix_append.
  - rewrite TrimPrefix_append. apply TrimSuffix_append.
Qed.

(** ** Printing a number and parsing it back *)

Lemma digits_string_of_uint d : forall acc,
  strconv.digits 10 (NilEmpty.string_of_uint d) acc = Some (uval d acc).
Proof. induction d; intros acc; simpl; auto. Qed.

Lemma uval_of_uint_acc d : forall acc,
  Z.pos (Pos.of_uint_acc d acc) = uval d (Z.pos acc).
Proof.
  induction d; intros acc; simpl; [reflexivity|..];
    rewrite IHd; f_equal; lia.
Qed.

Lemma uval_of_uint d : Z.of_N (Pos.of_uint d) = uval d 0.
Proof.
  induction d; simpl; [reflexivity | exact IHd |..];
    rewrite uval_of_uint_acc; reflexivity.
Qed.

Lemma uval_to_uint p : uval (Pos.to_uint p) 0 = Z.pos p.
Proof. by rewrite <- uval_of_uint, DecimalPos.Unsigned.of_to. Qed.

Lemma string_of_uint_head d :
  d <> Decimal.Nil ->
  exists c s, NilEmpty.string_of_uint d = String c s
              /\ Ascii.eqb c "+" = false /\ Ascii.eqb c "-" = false
              /\ strings.isSpace c = false.
Proof. destruct d; [done|..]; intros _; simpl; eauto 10. Qed.

Lemma string_of_uint_noSpace d : noSpace (NilEmpty.string_of_uint d) = true.
Proof. induction d; simpl; auto. Qed.

Lemma FormatInt_pos p :
  strconv.FormatInt (Z.pos p) = NilEmpty.string_of_uint (Pos.to_uint p).
Proof.
  unfold strconv.FormatInt. simpl.
  pose proof (DecimalPos.Unsigned.to_uint_nonnil p). by destruct (Pos.to_uint p).
Qed.

Lemma FormatInt_neg p :
  strconv.FormatInt (Z.neg p) = String "-" (NilEmpty.string_of_uint (Pos.to_uint p)).
Proof.
  unfold strconv.FormatInt. simpl.
  pose proof (DecimalPos.Unsigned.to_uint_nonnil p). by destruct (Pos.to_uint p).
Qed.

(** What [FormatInt] prints, [signed 10] reads back. *)
Lemma signed_FormatInt n : strconv.signed 10 (strconv.FormatInt n) = Some n.
Proof.
  destruct n as [|p|p].
  - reflexivity.
  - rewrite FormatInt_pos.
    destruct (string_of_uint_head (Pos.to_uint p)) as (c & s & Hs & Hplus & Hminus & _).
    { apply DecimalPos.Unsigned.to_uint_nonnil. }
    unfold strconv.signed. rewrite Hs, Hplus, Hminus, <- Hs.
    by rewrite digits_string_of_uint, uval_to_uint.
  - rewrite FormatInt_neg.
    destruct (string_of_uint_head (Pos.to_uint p)) as (c & s & Hs & _).
    { apply DecimalPos.Unsigned.to_uint_nonnil. }
    unfold strconv.signed. cbn -[strconv.digits].
    rewrite Hs, <- Hs. by rewrite digits_string_of_uint, uval_to_uint.
Qed.

Lemma SetString_FormatInt n : big.SetString (strconv.FormatInt n) 10 = Some n.
Proof. apply signed_FormatInt. Qed.

Lemma ParseInt_FormatInt n :
  strconv.minInt64 <= n <= strconv.maxInt64 ->
  strconv.ParseInt (strconv.FormatInt n) = Some n.
Proof.
  intros Hn. unfold strconv.ParseInt. rewrite signed_FormatInt.
  destruct (Z.leb_spec strconv.minInt64 n); [|lia].
  destruct (Z.leb_spec n strconv.maxInt64); [done|lia].
Qed.

Lemma FormatInt_noSpace n : noSpace (strconv.FormatInt n) = true.
Proof.
  destruct n as [|p|p]; [reflexivity|..];
    rewrite ?FormatInt_pos, ?FormatInt_neg; simpl; apply string_of_uint_noSpace.
Qed.

Lemma FormatInt_nonempty n : strconv.FormatInt n <> "".
Proof.
  destruct n as [|p|p]; [done|..]; rewrite ?FormatInt_pos, ?FormatInt_neg; [|done].
  destruct (string_of_uint_head (Pos.to_uint p)) as (c & s & -> & _); [|done].
  apply DecimalPos.Unsigned.to_uint_nonnil.
Qed.

(** A text without white space, followed by a line feed, trims to itself. *)
Lemma TrimSpace_line s :
  noSpace s = true -> strings.TrimSpace (s +:+ String "010" "") = s.
Proof.
  intros Hs. rewrite TrimSpace_app_space by reflexivity. by apply TrimSpace_noSpace.
Qed.

Lemma wrap64_range x :
  strconv.minInt64 <= time.wrap64 x <= strconv.maxInt64.
Proof.
  unfold time.wrap64, strconv.minInt64, strconv.maxInt64.
  pose proof (Z.mod_pos_bound (x + 2 ^ 63) (2 ^ 64)). lia.
Qed.

(** The metadata [saveCachedCRL] writes reads back as the Unix second of
    the time saved. *)
Lemma metaBytes_parse t :
  strconv.ParseInt (strings.TrimSpace (string_of_list_byte (metaBytes t)))
  = Some (time.ToUnix t).
Proof.
  unfold metaBytes. rewrite string_of_list_byte_of_string.
  rewrite TrimSpace_line by apply FormatInt_noSpace.
  apply ParseInt_FormatInt, wrap64_range.
Qed.

(** The time restored from the metadata is the time saved, cut to the
    second. *)
Lemma ToUnix_Unix sec :
  strconv.minInt64 <= sec <= strconv.maxInt64 -> time.ToUnix (time.Unix sec) = sec.
Proof.
  intros Hsec. unfold time.ToUnix, time.Unix, time.Second.
  rewrite Z.div_mul by lia.
  unfold time.wrap64, time.unixToInternal, strconv.minInt64, strconv.maxInt64 in *.
  replace ((sec + 62135596800 + 2 ^ 63) mod 2 ^ 64 - 2 ^ 63 - 62135596800 + 2 ^ 63)
    with ((sec + 62135596800 + 2 ^ 63) mod 2 ^ 64 - 62135596800) by lia.
  rewrite Zminus_mod_idemp_l.
  replace (sec + 62135596800 + 2 ^ 63 - 62135596800) with (sec + 2 ^ 63) by lia.
  rewrite Z.mod_small; lia.
Qed.

(** ** Recovery *)

Lemma elem_of_listing dir name d :
  (name, d) ∈ listing dir <-> exists nd, dir !! name = Some nd /\ d = isDir nd.
Proof.
  unfold listing. rewrite merge_sort_Permutation, list_elem_of_fmap. split.
  - intros ([name' nd] & [= -> ->] & Hin%elem_of_map_to_list). eauto.
  - intros (nd & Hnd & ->). exists (name, nd). split; [done|].
    by apply elem_of_map_to_list.
Qed.

(** What the loop finds in an entry is the pair of the entry. *)
Lemma pairOf_paired dir name d number t file :
  (name, d) ∈ listing dir ->
  pairOf dir (name, d) = Some (number, t, file)
  <-> file = name /\ paired dir name number t.
Proof.
  intros (nd & Hnd & ->)%elem_of_listing. unfold pairOf, paired. split.
  - destruct (isDir nd) eqn:Hdir; [done|].
    destruct (strings.HasPrefix name "crl-") eqn:Hp; [|done].
    destruct (strings.HasSuffix name ".der") eqn:Hs; [|done]. cbn [negb orb].
    pose proof (cache_name_inv name Hp Hs) as Hname.
    set (numberStr := strings.TrimSuffix _ _) in *.
    destruct (big.SetString numberStr 10) as [n|] eqn:Hn; [|done].
    destruct (dir !! ("crl-" +:+ numberStr +:+ ".meta"))
      as [[metaContent| |]|] eqn:Hmeta; try done.
    destruct (strconv.ParseInt _) as [ts|] eqn:Hts; [|done].
    intros [= <- <- <-]. split; [done|]. split; [eauto|].
    exists numberStr, metaContent, ts. by repeat split.
  - intros (-> & (nd' & Hnd' & Hd) & numberStr & metaContent & ts
             & -> & Hn & Hmeta & Hts & ->).
    rewrite Hnd in Hnd'. injection Hnd' as <-. rewrite Hd.
    destruct (cache_name_trim numberStr) as (-> & -> & ->).
    cbn [negb orb]. by rewrite Hn, Hmeta, Hts.
Qed.

Lemma paired_listed dir name n t : paired dir name n t -> (name, false) ∈ listing dir.
Proof.
  intros [(nd & Hnd & Hd) _]. apply elem_of_listing. exists nd. by rewrite Hd.
Qed.

Lemma paired_pairOf dir name n t :
  paired dir name n t
  <-> pairOf dir (name, false) = Some (n, t, name) /\ (name, false) ∈ listing dir.
Proof.
  split.
  - intros Hp. pose proof (paired_listed _ _ _ _ Hp) as Hin.
    split; [|done]. by apply pairOf_paired.
  - intros [Hc Hin]. by apply (pairOf_paired dir name false n t name) in Hc as [_ Hp].
Qed.

(** A payload file gives its pair one number and one time. *)
Lemma paired_functional dir name n t n' t' :
  paired dir name n t -> paired dir name n' t' -> n = n' /\ t = t'.
Proof.
  intros [Hc _]%paired_pairOf [Hc' _]%paired_pairOf.
  rewrite Hc in Hc'. by injection Hc' as <- <-.
Qed.

Lemma pairOf_listed dir entries e n t f :
  entries ≡ₚ listing dir -> e ∈ entries ->
  pairOf dir e = Some (n, t, f) ->
  e = (f, false) /\ paired dir f n t.
Proof.
  intros Hperm Hin Hc. rewrite Hperm in Hin. destruct e as [name d].
  pose proof Hc as Hc'. apply pairOf_paired in Hc' as [-> Hp]; [|done].
  split; [|done]. destruct d; [done|reflexivity].
Qed.

Lemma w_cache_ticks k w : w_cache (Nat.iter k tick w) = w_cache w.
Proof. induction k as [|k IH]; [reflexivity|]. exact IH. Qed.

Lemma w_trace_ticks k w : w_trace (Nat.iter k tick w) = w_trace w.
Proof. induction k as [|k IH]; [reflexivity|]. exact IH. Qed.

Lemma w_entropy_ticks k w : w_entropy (Nat.iter k tick w) = w_entropy w.
Proof. induction k as [|k IH]; [reflexivity|]. exact IH. Qed.

Lemma w_clock_ticks k w : w_clock (Nat.iter k tick w) = w_clock w.
Proof. induction k as [|k IH]; [reflexivity|]. exact IH. Qed.

Lemma w_reads_ticks k w : w_reads (Nat.iter k tick w) = (k + w_reads w)%nat.
Proof. induction k as [|k IH]; [reflexivity|]. simpl. by rewrite IH. Qed.

Lemma clockStands_tick w now : clockStands w now -> clockStands (tick w) now.
Proof. intros Hc i Hi. apply Hc. simpl in Hi. lia. Qed.

(** One turn of the loop: the entry is passed over, and then it is no pair
    or the number held is as great as its number; or its number is greater
    than the number held, the clock is read, and the pair is taken when that
    reading finds it fresh. *)
Lemma recoverLoop_turn dir (e : DirEntry) rest latest w :
  w_cache w = Some dir ->
  (recoverLoop (e :: rest) latest w = recoverLoop rest latest w
   /\ forall n t f, pairOf dir e = Some (n, t, f) -> atLeast n latest)
  \/ exists n t,
       pairOf dir e = Some (n, t, e.1)
       /\ isLater n latest = true
       /\ recoverLoop (e :: rest) latest w
          = recoverLoop rest
              (if time.Sub (w_clock w (w_reads w)) t <? cacheDuration
               then mkLatest (Some n) t (Some e.1) else latest)
              (tick w).
Proof.
  intros Hcache. destruct e as [name d]. cbn [recoverLoop fst]. unfold pairOf.
  destruct d; [by left|].
  destruct (negb _ || negb _); [by left|].
  set (numberStr := strings.TrimSuffix _ _).
  destruct (big.SetString numberStr 10) as [number|]; [|by left].
  destruct (isLater number latest) eqn:Hlater.
  2:{ left. split; [done|]. intros n t f.
      destruct (dir !! _) as [[metaContent| |]|]; try done.
      destruct (strconv.ParseInt _) as [ts|]; [|done]. by intros [= <- _ _]. }
  unfold bind, os_ReadFile. rewrite Hcache.
  destruct (dir !! _) as [[metaContent| |]|]; try by left.
  destruct (strconv.ParseInt _) as [ts|]; [|by left].
  right. exists number, (time.Unix ts). split; [done|]. split; [done|].
  unfold time_Since, bind, time_Now, ret.
  by destruct (time.Sub _ _ <? cacheDuration).
Qed.

(** The scan, whatever the clock shows.  It reads the clock [k] times, once
    for an entry at most.  What it holds at its end it held at its start, or
    is a pair of the entries that one of these readings found fresh.  The
    number it holds only grows; and it ends as great as the number of every
    pair of the entries that all of these readings find fresh. *)
Lemma recoverLoop_scan dir entries : forall latest w,
  w_cache w = Some dir ->
  exists k,
    (recoverLoop entries latest w).2 = Nat.iter k tick w
    /\ (k <= length entries)%nat
    /\ ((recoverLoop entries latest w).1 = latest
        \/ exists e n t f i,
             e ∈ entries /\ pairOf dir e = Some (n, t, f)
             /\ (w_reads w <= i < w_reads w + k)%nat
             /\ time.Sub (w_clock w i) t < cacheDuration
             /\ (recoverLoop entries latest w).1 = mkLatest (Some n) t (Some f))
    /\ (forall n, atLeast n latest -> atLeast n (recoverLoop entries latest w).1)
    /\ (forall e n t f,
          e ∈ entries -> pairOf dir e = Some (n, t, f) ->
          (forall i, (w_reads w <= i < w_reads w + k)%nat ->
             time.Sub (w_clock w i) t < cacheDuration) ->
          atLeast n (recoverLoop entries latest w).1).
Proof.
  induction entries as [|e0 rest IH]; intros latest w Hcache.
  { exists 0%nat. split; [done|]. split; [done|]. split; [by left|]. split; [done|].
    intros e n t f Hin. by apply elem_of_nil in Hin. }
  destruct (recoverLoop_turn dir e0 rest latest w Hcache)
    as [[-> Hpass]|(n0 & t0 & Hpair & Hlater & ->)].
  - destruct (IH latest w Hcache) as (k & Hw & Hk & Horigin & Hmono & Hbound).
    exists k. split; [exact Hw|]. split; [simpl; lia|]. split; [|split; [exact Hmono|]].
    + destruct Horigin as [?|(e & n & t & f & i & Hin & ?)]; [by left|].
      right. exists e, n, t, f, i. split; [by apply elem_of_cons; right | done].
    + intros e n t f [->|Hin]%elem_of_cons Hc Hfresh.
      * by apply Hmono, (Hpass n t f).
      * by eapply Hbound.
  - set (fresh := time.Sub (w_clock w (w_reads w)) t0 <? cacheDuration).
    set (latest' := if fresh then mkLatest (Some n0) t0 (Some e0.1) else latest).
    assert (Hgrow : forall n, atLeast n latest -> atLeast n latest').
    { intros n Hn. subst latest'. destruct fresh; [|done].
      unfold atLeast, isLater in *. cbn [latestNumber].
      destruct (latestNumber latest) as [l|]; [|done].
      apply Z.ltb_ge. apply Z.ltb_ge in Hn. apply Z.ltb_lt in Hlater. lia. }
    destruct (IH latest' (tick w) Hcache) as (k & Hw & Hk & Horigin & Hmono & Hbound).
    exists (S k). rewrite Hw, Nat.iter_succ_r.
    split; [reflexivity|]. split; [simpl; lia|].
    cbn [w_reads w_clock tick] in *. split; [|split].
    + destruct Horigin as [Heq|(e & n & t & f & i & Hin & Hc & Hi & Hfresh & Heq)].
      * rewrite Heq. subst latest'. destruct fresh eqn:Hf; [|by left].
        right. exists e0, n0, t0, e0.1, (w_reads w).
        split; [by apply elem_of_cons; left|]. split; [done|]. split; [lia|].
        split; [by apply Z.ltb_lt | done].
      * right. exists e, n, t, f, i. split; [by apply elem_of_cons; right|].
        split; [done|]. split; [lia | done].
    + intros n Hn. by apply Hmono, Hgrow.
    + intros e n t f [->|Hin]%elem_of_cons Hc Hfresh.
      * rewrite Hpair in Hc. injection Hc as <- <- <-. apply Hmono.
        subst latest'. replace fresh with true.
        { unfold atLeast, isLater. cbn [latestNumber]. apply Z.ltb_irrefl. }
        symmetry. apply Z.ltb_lt, Hfresh. lia.
      * eapply Hbound; [done..|]. intros i Hi. apply Hfresh. lia.
Qed.

(** The scan of the entries of a directory, in whatever order they come
    and whatever the clock shows: it ends with nothing, or with a pair that
    qualified at one of its readings of the clock; and it ends with a number
    as great as that of every pair that qualifies at all of its readings. *)
Lemma recovery_scan dir entries w :
  w_cache w = Some dir ->
  entries ≡ₚ listing dir ->
  let latest := (recoverLoop entries noLatest w).1 in
  let w' := (recoverLoop entries noLatest w).2 in
  (exists k, w' = Nat.iter k tick w /\ (k <= size dir)%nat)
  /\ (latest = noLatest
      \/ exists best nb tb i,
           latest = mkLatest (Some nb) tb (Some best)
           /\ (w_reads w <= i < w_reads w')%nat
           /\ qualifies dir (w_clock w i) best nb tb)
  /\ (forall name n t,
        paired dir name n t ->
        (forall i, (w_reads w <= i < w_reads w')%nat ->
           time.Sub (w_clock w i) t < cacheDuration) ->
        exists nb, latestNumber latest = Some nb /\ n <= nb).
Proof.
  intros Hcache Hperm latest w'. subst latest w'.
  destruct (recoverLoop_scan dir entries noLatest w Hcache)
    as (k & Hw & Hk & Horigin & _ & Hbound).
  rewrite Hw, w_reads_ticks. split; [|split].
  - exists k. split; [done|]. etrans; [exact Hk|].
    rewrite Hperm. unfold listing.
    by rewrite merge_sort_Permutation, length_fmap, length_map_to_list.
  - destruct Horigin as [?|(e & n & t & f & i & Hin & Hc & Hi & Hfresh & ?)]; [by left|].
    right. exists f, n, t, i. split; [done|]. split; [lia|].
    split; [|done]. by destruct (pairOf_listed dir entries e n t f Hperm Hin Hc).
  - intros name n t Hp Hfresh.
    pose proof Hp as [Hc Hin]%paired_pairOf. rewrite <- Hperm in Hin.
    assert (Hat : atLeast n (recoverLoop entries noLatest w).1).
    { eapply Hbound; [exact Hin | exact Hc |]. intros i Hi. apply Hfresh. lia. }
    unfold atLeast, isLater in Hat.
    destruct (latestNumber _) as [nb|]; [|done].
    exists nb. split; [done|]. by apply Z.ltb_ge.
Qed.

(** With the clock standing at [now], the scan ends with nothing when no
    pair qualifies, and otherwise with a pair that qualifies and whose number
    no pair that qualifies exceeds. *)
Lemma recovery_standing dir entries w now :
  w_cache w = Some dir ->
  clockStands w now ->
  entries ≡ₚ listing dir ->
  let latest := (recoverLoop entries noLatest w).1 in
  ((forall name n t, ~ qualifies dir now name n t) /\ latest = noLatest)
  \/ exists best nb tb,
       latest = mkLatest (Some nb) tb (Some best)
       /\ qualifies dir now best nb tb
       /\ forall name n t, qualifies dir now name n t -> n <= nb.
Proof.
  intros Hcache Hclock Hperm latest. subst latest.
  destruct (recovery_scan dir entries w Hcache Hperm) as (_ & Horigin & Hbound).
  assert (Hmax : forall name n t, qualifies dir now name n t ->
            exists nb, latestNumber (recoverLoop entries noLatest w).1 = Some nb /\ n <= nb).
  { intros name n t [Hp Hfresh]. apply (Hbound name n t Hp).
    intros i Hi. rewrite (Hclock i) by lia. exact Hfresh. }
  destruct Horigin as [Heq|(best & nb & tb & i & Heq & Hi & Hq)].
  - left. split; [|exact Heq]. intros name n t Hq.
    destruct (Hmax name n t Hq) as (nb & Hnb & _). by rewrite Heq in Hnb.
  - right. exists best, nb, tb. split; [exact Heq|].
    rewrite (Hclock i) in Hq by lia. split; [exact Hq|].
    intros name n t Hq'. destruct (Hmax name n t Hq') as (nb' & Hnb & Hle).
    rewrite Heq in Hnb. by injection Hnb as <-.
Qed.

(** [loadCachedCRL] installs the payload of the pair its scan ends with;
    besides, it only reads the clock and adds to the log. *)
Lemma loadCachedCRL_scan dir s w :
  w_cache w = Some dir ->
  exists k evs,
    (recoverLoop (listing dir) noLatest w).2 = Nat.iter k tick w
    /\ (k <= size dir)%nat
    /\ loadCachedCRL s w
       = (restored s dir (recoverLoop (listing dir) noLatest w).1,
          addTrace (Nat.iter k tick w) evs)
    /\ quiet evs.
Proof.
  intros Hcache.
  destruct (recovery_scan dir (listing dir) w Hcache (reflexivity _))
    as ((k & Hw & Hk) & _).
  unfold loadCachedCRL, bind, os_ReadDir. rewrite Hcache. fold noLatest.
  destruct (recoverLoop (listing dir) noLatest w) as [latest w1]. cbn [fst snd] in *.
  subst w1. exists k. unfold restored. destruct (latestFile latest) as [file|].
  - unfold os_ReadFile, ret, log, emit, bind. rewrite w_cache_ticks, Hcache.
    destruct (dir !! file) as [[crlBytes| |]|].
    + eexists. split; [reflexivity|]. split; [done|]. split; [reflexivity|].
      by repeat constructor.
    + exists []. rewrite addTrace_nil. by repeat split; try constructor.
    + exists []. rewrite addTrace_nil. by repeat split; try constructor.
    + exists []. rewrite addTrace_nil. by repeat split; try constructor.
  - exists []. rewrite addTrace_nil. by repeat split; try constructor.
Qed.

Lemma cache_name_inj a b :
  "crl-" +:+ a +:+ ".der" = "crl-" +:+ b +:+ ".der" -> a = b.
Proof.
  intros Heq.
  destruct (cache_name_trim a) as (_ & _ & <-).
  destruct (cache_name_trim b) as (_ & _ & <-). by rewrite Heq.
Qed.

(** C4, as the code has it.  The scan looks at the entries in the order
    they come, and reads the clock anew for each pair it tests.
    - Whatever the order and the clock: the scan ends with nothing, or with a
      pair that qualified at the reading of the clock taken for it; and the
      number it ends with is as great as that of every pair that qualifies at
      all the readings of the scan.
    - With a clock that stands at [now] during the scan: it ends with nothing
      when no pair qualifies at [now], and otherwise with a pair that
      qualifies and has the greatest number of all that qualify; the number
      it ends with is the same in every order, and so is the pair when no two
      qualifying pairs have the same number.
    - [loadCachedCRL] installs the payload of the pair the scan of the
      directory ends with, and leaves the server as it was when no pair
      qualifies at a reading.
    - A pair whose number does not parse, or whose metadata cannot be read or
      does not parse, is no pair: it is passed over, and there is no error to
      report.  A pair whose timestamp is a freshness window old or older does
      not qualify, whatever its number. *)
Theorem recovery_selects_greatest_fresh dir s w :
  w_cache w = Some dir ->
  (forall entries, entries ≡ₚ listing dir ->
     let latest := (recoverLoop entries noLatest w).1 in
     let w' := (recoverLoop entries noLatest w).2 in
     (latest = noLatest
      \/ exists best nb tb i,
           latest = mkLatest (Some nb) tb (Some best)
           /\ (w_reads w <= i < w_reads w')%nat
           /\ qualifies dir (w_clock w i) best nb tb)
     /\ (forall name n t,
           paired dir name n t ->
           (forall i, (w_reads w <= i < w_reads w')%nat ->
              time.Sub (w_clock w i) t < cacheDuration) ->
           exists nb, latestNumber latest = Some nb /\ n <= nb))
  /\ (forall now entries,
        clockStands w now ->
        entries ≡ₚ listing dir ->
        let latest := (recoverLoop entries noLatest w).1 in
        (((forall name n t, ~ qualifies dir now name n t) /\ latest = noLatest)
         \/ exists best nb tb,
              latest = mkLatest (Some nb) tb (Some best)
              /\ qualifies dir now best nb tb
              /\ forall name n t, qualifies dir now name n t -> n <= nb)
        /\ latestNumber latest = latestNumber (recoverLoop (listing dir) noLatest w).1
        /\ ((forall name1 name2 n t1 t2,
               qualifies dir now name1 n t1 -> qualifies dir now name2 n t2 ->
               name1 = name2) ->
            latest = (recoverLoop (listing dir) noLatest w).1))
  /\ (loadCachedCRL s w).1 = restored s dir (recoverLoop (listing dir) noLatest w).1
  /\ ((forall name n t i, (w_reads w <= i)%nat -> ~ qualifies dir (w_clock w i) name n t) ->
      (loadCachedCRL s w).1 = s)
  /\ (forall numberStr,
        big.SetString numberStr 10 = None
        \/ (forall metaContent,
              dir !! ("crl-" +:+ numberStr +:+ ".meta") <> Some (File metaContent))
        \/ (exists metaContent,
              dir !! ("crl-" +:+ numberStr +:+ ".meta") = Some (File metaContent)
              /\ strconv.ParseInt (strings.TrimSpace (string_of_list_byte metaContent))
                 = None) ->
        forall n t, ~ paired dir ("crl-" +:+ numberStr +:+ ".der") n t)
  /\ (forall now name n t,
        cacheDuration <= time.Sub now t -> ~ qualifies dir now name n t).
Proof.
  intros Hcache. split; [|split; [|split; [|split; [|split]]]].
  - intros entries Hperm latest w'. subst latest w'.
    by destruct (recovery_scan dir entries w Hcache Hperm) as (_ & ? & ?).
  - intros now entries Hclock Hperm latest. subst latest.
    pose proof (recovery_standing dir entries w now Hcache Hclock Hperm) as H1.
    pose proof (recovery_standing dir (listing dir) w now Hcache Hclock (reflexivity _)) as H2.
    cbv zeta in H1, H2. split; [exact H1|].
    destruct H1 as [[Hnone ->]|(b1 & n1 & t1 & -> & Hq1 & Hmax1)];
      destruct H2 as [[Hnone' ->]|(b2 & n2 & t2 & -> & Hq2 & Hmax2)];
      try done; try (by exfalso; eapply Hnone); try (by exfalso; eapply Hnone').
    assert (n1 = n2) as <-.
    { apply Z.le_antisymm; [by eapply Hmax2 | by eapply Hmax1]. }
    split; [reflexivity|]. intros Hdistinct.
    assert (b1 = b2) as <- by by eapply Hdistinct.
    destruct Hq1 as [Hp1 _], Hq2 as [Hp2 _].
    by destruct (paired_functional _ _ _ _ _ _ Hp1 Hp2) as [_ <-].
  - by destruct (loadCachedCRL_scan dir s w Hcache) as (k & evs & _ & _ & -> & _).
  - intros Hnone.
    destruct (loadCachedCRL_scan dir s w Hcache) as (k & evs & _ & _ & -> & _).
    destruct (recovery_scan dir (listing dir) w Hcache (reflexivity _))
      as (_ & [->|(b & n & t & i & _ & Hi & Hq)] & _); [done|].
    exfalso. eapply (Hnone b n t i); [lia | exact Hq].
  - intros numberStr Hskip n t
      (_ & numberStr' & metaContent & ts & Hname & Hn & Hmeta & Hts & ->).
    apply cache_name_inj in Hname as <-.
    destruct Hskip as [Hbad|[Hunread|(metaContent' & Hmeta' & Hbad)]].
    + congruence.
    + by eapply Hunread.
    + rewrite Hmeta in Hmeta'. injection Hmeta' as <-. congruence.
  - intros now name n t Hstale [_ Hfresh]. lia.
Qed.

Lemma twoPairs_listing :
  listing twoPairs
  = [("crl-100.der", false); ("crl-100.meta", false);
     ("crl-200.der", false); ("crl-200.meta", false)].
Proof. vm_compute. reflexivity. Qed.

Lemma recovery_selects_greatest_fresh_witness :
  (loadCachedCRL newServer
     (toyWorld NotExist NotExist NotExist (Some twoPairs) (1700000100 * time.Second))).1
  = mkCRLServer (Some [x01]) (time.Unix 1700000000) (Some 100).
Proof.
  destruct (recovery_selects_greatest_fresh twoPairs newServer
              (toyWorld NotExist NotExist NotExist (Some twoPairs)
                        (1700000100 * time.Second)))
    as (_ & _ & Hload & _).
  - reflexivity.
  - rewrite Hload. vm_compute. reflexivity.
Defined.

(** The metadata is trimmed as a text in UTF-8: a pair whose timestamp
    stands between U+00A0 and U+2003 is recovered. *)
Example recovery_trims_unicode :
  (loadCachedCRL newServer
     (toyWorld NotExist NotExist NotExist (Some paddedPair) (1700000100 * time.Second))).1
  = mkCRLServer (Some [x07]) (time.Unix 1700000000) (Some 7).
Proof. vm_compute. reflexivity. Qed.

(** The pair recovered depends on the order of the scan, in two ways.  Of
    two fresh pairs whose numbers are equal, "crl-5" and "crl-05", the one
    scanned first is kept.  And a pair the clock finds fresh when it is the
    first to be tested may have expired when it is tested second: the scan
    of [agingPairs] ends with number 100 in one order and with number 50 in
    the other. *)
Lemma recovery_depends_on_order :
  (clockStands (toyWorld NotExist NotExist NotExist (Some tiedPairs)
                         (1700000100 * time.Second))
               (1700000100 * time.Second)
   /\ ~ orderIndependent tiedPairs
          (toyWorld NotExist NotExist NotExist (Some tiedPairs) (1700000100 * time.Second)))
  /\ monotoneClock (w_clock agingWorld)
  /\ ~ orderIndependent agingPairs agingWorld.
Proof.
  split; [split; [by intros i _|]|split].
  - intros Hclaim. specialize (Hclaim (reverse (listing tiedPairs))).
    assert (Hperm : reverse (listing tiedPairs) ≡ₚ listing tiedPairs)
      by apply reverse_Permutation.
    specialize (Hclaim Hperm). vm_compute in Hclaim. discriminate.
  - intros [|i] [|j] Hij; cbn [w_clock agingWorld]; unfold time.Second; lia.
  - intros Hclaim. specialize (Hclaim (reverse (listing agingPairs))).
    assert (Hperm : reverse (listing agingPairs) ≡ₚ listing agingPairs)
      by apply reverse_Permutation.
    specialize (Hclaim Hperm). vm_compute in Hclaim. discriminate.
Qed.

(** ** Persist, then recover *)

(** When both writes of [saveCachedCRL] succeed, the directory holds the
    payload and the metadata under the names of the number. *)
Lemma dirSave_ok s dir dir' :
  dirSave s (Some dir) = (None, dir') ->
  dir' = Some (<[metaName (cacheNumber s) := File (metaBytes (cacheTime s))]>
                 (<[derName (cacheNumber s) := File (bytesOf (cachedCRL s))]> dir)).
Proof.
  unfold dirSave, dirWrite.
  destruct (dir !! derName (cacheNumber s)) as [[| |]|]; try discriminate;
    (destruct (_ !! metaName (cacheNumber s)) as [[| |]|]; try discriminate;
      by intros [= <-]).
Qed.

Lemma metaName_not_payload numberStr n :
  "crl-" +:+ numberStr +:+ ".der" <> metaName n.
Proof.
  unfold metaName. intros Heq%append_inv_head.
  assert (Hs : strings.HasSuffix (numberStr +:+ ".der") ".der" = true)
    by apply HasSuffix_append.
  rewrite Heq, HasSuffix_skip in Hs; [discriminate | simpl; lia].
Qed.

(** What [saveCachedCRL] wrote is a pair, of the number saved and of the
    time saved, cut to the second. *)
Lemma saved_pair s crlBytes n dir :
  cachedCRL s = Some crlBytes ->
  cacheNumber s = Some n ->
  paired
    (<[metaName (Some n) := File (metaBytes (cacheTime s))]>
       (<[derName (Some n) := File crlBytes]> dir))
    (derName (Some n)) n (time.Unix (time.ToUnix (cacheTime s))).
Proof.
  intros Hcrl Hnum. split.
  - exists (File crlBytes). split; [|done].
    rewrite lookup_insert_ne by (symmetry; apply derName_ne_metaName).
    apply lookup_insert_eq.
  - exists (strconv.FormatInt n), (metaBytes (cacheTime s)), (time.ToUnix (cacheTime s)).
    split; [reflexivity|]. split; [apply SetString_FormatInt|].
    split; [apply lookup_insert_eq|]. split; [apply metaBytes_parse | done].
Qed.

(** The recovery of what [saveCachedCRL] wrote, when every reading it
    takes finds the pair fresh and no other pair that qualifies at one of
    them has a number as great. *)
Lemma recover_saved s crlBytes n dir w w2 :
  cachedCRL s = Some crlBytes ->
  cacheNumber s = Some n ->
  w_cache w = Some dir ->
  (saveCachedCRL s w).1 = None ->
  w_cache w2 = w_cache (saveCachedCRL s w).2 ->
  (forall i, (w_reads w2 <= i < w_reads (loadCachedCRL newServer w2).2)%nat ->
     time.Sub (w_clock w2 i) (time.Unix (time.ToUnix (cacheTime s))) < cacheDuration) ->
  (forall dir' i name n' t',
     w_cache w2 = Some dir' ->
     (w_reads w2 <= i < w_reads (loadCachedCRL newServer w2).2)%nat ->
     qualifies dir' (w_clock w2 i) name n' t' ->
     name <> derName (Some n) -> n' < n) ->
  exists k evs,
    loadCachedCRL newServer w2
    = (mkCRLServer (Some crlBytes) (time.Unix (time.ToUnix (cacheTime s))) (Some n),
       addTrace (Nat.iter k tick w2) evs)
    /\ quiet evs.
Proof.
  intros Hcrl Hnum Hcache Hsave Hstore Hfresh Hothers.
  rewrite saveCachedCRL_run in Hsave, Hstore. cbn [fst snd w_cache withCache] in *.
  rewrite Hcache in *.
  destruct (dirSave s (Some dir)) as [err dir1] eqn:Hds. simpl in Hsave. subst err.
  apply dirSave_ok in Hds. rewrite Hnum, Hcrl in Hds. cbn [bytesOf default] in Hds.
  subst dir1. cbn [snd] in Hstore.
  set (dir' := <[metaName (Some n) := _]> _) in *.
  pose proof (saved_pair s crlBytes n dir Hcrl Hnum) as Hp. fold dir' in Hp.
  destruct (loadCachedCRL_scan dir' newServer w2 Hstore) as (k & evs & Hw & _ & Hload & Hq).
  rewrite Hload in Hfresh, Hothers |- *. cbn [snd w_reads addTrace] in Hfresh, Hothers.
  destruct (recovery_scan dir' (listing dir') w2 Hstore (reflexivity _))
    as (_ & Horigin & Hbound).
  rewrite Hw in Horigin, Hbound.
  destruct (Hbound _ _ _ Hp Hfresh) as (nb & Hnb & Hle).
  destruct Horigin as [Heq|(best & nb' & tb & i & Heq & Hi & Hqb)];
    [by rewrite Heq in Hnb|].
  rewrite Heq in Hnb |- *. cbn [latestNumber] in Hnb. injection Hnb as ->.
  assert (best = derName (Some n)) as ->.
  { destruct (decide (best = derName (Some n))) as [|Hne]; [done|].
    pose proof (Hothers dir' i best nb tb Hstore Hi Hqb Hne). lia. }
  destruct Hqb as [Hpb _].
  destruct (paired_functional _ _ _ _ _ _ Hpb Hp) as [-> ->].
  exists k, evs. split; [|exact Hq]. f_equal.
  unfold restored. cbn [latestFile latestTime latestNumber].
  replace (dir' !! derName (Some n)) with (Some (File crlBytes)); [reflexivity|].
  symmetry. unfold dir'.
  rewrite lookup_insert_ne by (symmetry; apply derName_ne_metaName).
  apply lookup_insert_eq.
Qed.

(** C5, as the code has it.  Let [saveCachedCRL] write a cached artifact,
    both writes succeeding, and let a new process recover from the directory
    it leaves.  If every reading of the clock the recovery takes finds the
    artifact fresh, its time cut to the second, and no other pair of the
    directory that qualifies at one of these readings has a number as great,
    then the recovery restores the same bytes, the same number and the same
    generation time to the second; it calls neither the credential loader
    nor the encoding primitive. *)
Theorem persist_then_recover s crlBytes n dir w w2 :
  cachedCRL s = Some crlBytes ->
  cacheNumber s = Some n ->
  w_cache w = Some dir ->
  (saveCachedCRL s w).1 = None ->
  w_cache w2 = w_cache (saveCachedCRL s w).2 ->
  (forall i, (w_reads w2 <= i < w_reads (loadCachedCRL newServer w2).2)%nat ->
     time.Sub (w_clock w2 i) (time.Unix (time.ToUnix (cacheTime s))) < cacheDuration) ->
  (forall dir' i name n' t',
     w_cache w2 = Some dir' ->
     (w_reads w2 <= i < w_reads (loadCachedCRL newServer w2).2)%nat ->
     qualifies dir' (w_clock w2 i) name n' t' ->
     name <> derName (Some n) -> n' < n) ->
  exists s' w',
    loadCachedCRL newServer w2 = (s', w')
    /\ cachedCRL s' = Some crlBytes
    /\ cacheNumber s' = Some n
    /\ cacheTime s' = time.Unix (time.ToUnix (cacheTime s))
    /\ time.ToUnix (cacheTime s') = time.ToUnix (cacheTime s)
    /\ calls EvLoadCertAndKey (w_trace w') = calls EvLoadCertAndKey (w_trace w2)
    /\ calls EvCreateRevocationList (w_trace w')
       = calls EvCreateRevocationList (w_trace w2).
Proof.
  intros Hcrl Hnum Hcache Hsave Hstore Hfresh Hothers.
  destruct (recover_saved s crlBytes n dir w w2 Hcrl Hnum Hcache Hsave Hstore Hfresh Hothers)
    as (k & evs & -> & Hquiet).
  do 2 eexists. split; [reflexivity|].
  cbn [cachedCRL cacheNumber cacheTime w_trace addTrace].
  rewrite w_trace_ticks, !calls_app, !(calls_quiet _ evs) by done.
  repeat split; try lia.
  apply ToUnix_Unix, wrap64_range.
Qed.

(** In a directory that was empty, the pair just saved is the only one. *)
Lemma saved_pair_alone s n name n' t' :
  paired
    (<[metaName (Some n) := File (metaBytes (cacheTime s))]>
       (<[derName (Some n) := File (bytesOf (cachedCRL s))]> ∅))
    name n' t' ->
  name = derName (Some n).
Proof.
  intros [(nd & Hnd & _) (numberStr & _ & _ & -> & _)].
  apply lookup_insert_Some in Hnd as [[Hname _]|[_ Hnd]].
  - by apply eq_sym, metaName_not_payload in Hname.
  - apply lookup_insert_Some in Hnd as [[<- _]|[_ Hnd]]; [done|].
    by rewrite lookup_empty in Hnd.
Qed.

Lemma persist_then_recover_witness :
  exists w',
    loadCachedCRL newServer
      (toyWorld NotExist NotExist NotExist
         (w_cache (saveCachedCRL (mkCRLServer (Some [x01; x02]) 1700000000123456789
                                              (Some 1700000000))
                                 (toyWorld NotExist NotExist NotExist (Some ∅) 0)).2)
         (1700000100 * time.Second))
    = (mkCRLServer (Some [x01; x02]) (1700000000 * time.Second) (Some 1700000000), w').
Proof.
  destruct (persist_then_recover
              (mkCRLServer (Some [x01; x02]) 1700000000123456789 (Some 1700000000))
              [x01; x02] 1700000000 ∅
              (toyWorld NotExist NotExist NotExist (Some ∅) 0)
              (toyWorld NotExist NotExist NotExist
                 (w_cache (saveCachedCRL
                             (mkCRLServer (Some [x01; x02]) 1700000000123456789
                                          (Some 1700000000))
                             (toyWorld NotExist NotExist NotExist (Some ∅) 0)).2)
                 (1700000100 * time.Second)))
    as (s' & w' & Hload & Hcrl & Hnum & Htime & _).
  - reflexivity.
  - reflexivity.
  - reflexivity.
  - vm_compute. reflexivity.
  - reflexivity.
  - intros i _. vm_compute. reflexivity.
  - intros dir' i name n' t' [= <-] _ [Hp _] Hne. exfalso. apply Hne.
    exact (saved_pair_alone
             (mkCRLServer (Some [x01; x02]) 1700000000123456789 (Some 1700000000))
             1700000000 _ _ _ Hp).
  - exists w'. rewrite Hload. destruct s' as [c t m]. simpl in *. by subst.
Defined.

(** A directory that holds another fresh pair with a greater number gives
    back that pair, not the one just saved: the round trip as the
    specification states it fails. *)
Lemma greater_pair_is_recovered :
  ~ roundTrip (mkCRLServer (Some [x01; x02]) 1700000000123456789 (Some 1700000000))
              otherPair (1700000100 * time.Second).
Proof.
  intros Hclaim.
  pose (s := mkCRLServer (Some [x01; x02]) 1700000000123456789 (Some 1700000000)).
  pose (w := toyWorld NotExist NotExist NotExist (Some otherPair) 0).
  specialize (Hclaim [x01; x02] 1700000000 w
                (toyWorld NotExist NotExist NotExist (w_cache (saveCachedCRL s w).2)
                          (1700000100 * time.Second))
                eq_refl eq_refl eq_refl).
  assert (Hsave : (saveCachedCRL s w).1 = None) by (vm_compute; reflexivity).
  specialize (Hclaim Hsave eq_refl).
  assert (Hclock : clockStands
                     (toyWorld NotExist NotExist NotExist (w_cache (saveCachedCRL s w).2)
                               (1700000100 * time.Second))
                     (1700000100 * time.Second)) by (by intros i _).
  specialize (Hclaim Hclock).
  assert (Hfresh : time.Sub (1700000100 * time.Second)
                     (time.Unix (time.ToUnix 1700000000123456789)) < cacheDuration)
    by (vm_compute; reflexivity).
  specialize (Hclaim Hfresh). vm_compute in Hclaim. discriminate.
Qed.

(** ** Concurrent requests: the lock *)

Section ConcurrencyProps.

Context `{X509}.

Lemma stepAt_sysStep i sys sys' : stepAt i sys = Some sys' -> sysStep sys sys'.
Proof.
  unfold stepAt. destruct sys as [T s mu w]. cbn [threads server mutex world].
  destruct (T !! i) as [p|] eqn:Hp; [|done].
  destruct (threadStep p s mu w) as [[[[p' s'] mu'] w']|] eqn:Hstep; [|done].
  intros [= <-].
  rewrite <- (take_drop_middle T i p Hp) at 1.
  rewrite (insert_take_drop T i p') by (by eapply lookup_lt_Some).
  by constructor.
Qed.

Lemma runSchedule_rtc schedule : forall sys sys',
  runSchedule schedule sys = Some sys' -> rtc sysStep sys sys'.
Proof.
  induction schedule as [|i rest IH]; intros sys sys'; simpl.
  - intros [= <-]. constructor.
  - destruct (stepAt i sys) as [sys1|] eqn:Hstep; [|done].
    intros Hrun. eapply rtc_l; [by eapply stepAt_sysStep | by apply IH].
Qed.

Lemma count_app f a b : count f (a ++ b) = (count f a + count f b)%nat.
Proof. induction a as [|p a IH]; simpl; lia. Qed.

Lemma count_zero f l : count f l = 0%nat -> Forall (fun p => f p = false) l.
Proof.
  induction l as [|p l IH]; simpl; [constructor|].
  destruct (f p) eqn:Hp; [lia|]. intros Hl. constructor; auto.
Qed.

Lemma count_replicate f n p : f p = false -> count f (replicate n p) = 0%nat.
Proof. intros Hp. induction n as [|n IH]; simpl; [done|]. by rewrite Hp. Qed.

Lemma lockHeld_initial N s w : lockHeld (initial N s w).
Proof.
  unfold lockHeld, initial. cbn [threads mutex readers writer].
  rewrite !count_replicate by done. done.
Qed.

(** Every case of a step of a goroutine. *)
Ltac step_cases Hstep :=
  match type of Hstep with
  | threadStep ?p _ _ _ = Some _ =>
      destruct p; cbn [threadStep] in Hstep;
      repeat match type of Hstep with
             | context [let (_, _) := ?x in _] => destruct x
             | context [match ?x with _ => _ end] => destruct x eqn:?
             end;
      try discriminate Hstep;
      injection Hstep as <- <- <- <-
  end.

Lemma lockHeld_step sys sys' : lockHeld sys -> sysStep sys sys' -> lockHeld sys'.
Proof.
  intros (Hr & Hw & Hrw) Hstep. destruct Hstep as [before p after s mu w p' s' mu' w' Hp].
  unfold lockHeld in *. cbn [threads mutex] in *.
  rewrite !count_app in *. cbn [count] in *.
  destruct mu as [r wr]. cbn [readers writer] in *.
  step_cases Hp; cbn [readers writer holdsShared holdsExclusive] in *; subst;
    repeat match goal with
           | H : _ || _ = false |- _ => apply orb_false_elim in H as [? ?]
           | H : negb _ = false |- _ => apply negb_false_iff, Nat.eqb_eq in H
           end; subst;
    try destruct wr; split_and!; intros; first [lia | discriminate].
Qed.

Lemma lockHeld_reachable N s w sys :
  rtc sysStep (initial N s w) sys -> lockHeld sys.
Proof.
  intros Hrtc. eapply (rtc_ind_r (fun sys => lockHeld sys)); [|  |exact Hrtc].
  - apply lockHeld_initial.
  - intros y z _ Hstep Hy. by eapply lockHeld_step.
Qed.

Lemma readsCache_holds p :
  readsCache p = true -> holdsShared p = true \/ holdsExclusive p = true.
Proof. destruct p; simpl; auto; discriminate. Qed.

Lemma lockHeld_noHalfBuilt sys : lockHeld sys -> noHalfBuilt sys.
Proof.
  intros (Hr & Hw & Hrw) before p after HT Hp. rewrite HT in *.
  rewrite !count_app in *. cbn [count] in *.
  assert (Hpe : holdsExclusive p = true) by (destruct p; done).
  assert (Hps : holdsShared p = false) by (destruct p; done).
  rewrite Hpe, Hps in *.
  destruct (writer (mutex sys)); [|lia]. specialize (Hrw eq_refl).
  assert (Hb : count holdsShared before = 0%nat /\ count holdsExclusive before = 0%nat) by lia.
  assert (Ha : count holdsShared after = 0%nat /\ count holdsExclusive after = 0%nat) by lia.
  destruct Hb as [Hbs%count_zero Hbe%count_zero].
  destruct Ha as [Has%count_zero Hae%count_zero].
  apply Forall_app. split.
  - apply Forall_forall. intros q Hq.
    eapply Forall_forall in Hbs; [|exact Hq]. eapply Forall_forall in Hbe; [|exact Hq].
    destruct (readsCache q) eqn:Hrq; [|done].
    destruct (readsCache_holds q Hrq); congruence.
  - apply Forall_forall. intros q Hq.
    eapply Forall_forall in Has; [|exact Hq]. eapply Forall_forall in Hae; [|exact Hq].
    destruct (readsCache q) eqn:Hrq; [|done].
    destruct (readsCache_holds q Hrq); congruence.
Qed.

(** A goroutine that holds the lock can step, and so can one that waits for
    a lock that is free. *)
Lemma threadStep_enabled p s mu w :
  isDone p = false ->
  holdsShared p = true \/ holdsExclusive p = true
  \/ (writer mu = false /\ readers mu = 0%nat) ->
  is_Some (threadStep p s mu w).
Proof.
  intros Hd Hen. destruct p; cbn [threadStep holdsShared holdsExclusive isDone] in *;
    try discriminate;
    repeat match goal with
           | |- context [let (_, _) := ?x in _] => destruct x
           end;
    try (by eexists).
  - destruct Hen as [?|[?|[-> _]]]; try discriminate. by eexists.
  - destruct Hen as [?|[?|[-> ->]]]; try discriminate. by eexists.
Qed.

(** No deadlock: while a request has not returned, some goroutine can
    step. *)
Lemma progress sys :
  lockHeld sys -> ~ finished sys -> exists sys', sysStep sys sys'.
Proof.
  intros (Hr & Hw & Hrw) Hnf. destruct sys as [T s mu w]. cbn [threads mutex] in *.
  assert (Hstep : forall p, p ∈ T -> is_Some (threadStep p s mu w) ->
                     exists sys', sysStep (mkSystem T s mu w) sys').
  { intros p (before & after & ->)%list_elem_of_split [[[[p' s'] mu'] w'] Hp].
    eexists. by constructor. }
  destruct (decide (Exists (fun p => holdsShared p || holdsExclusive p = true) T))
    as [Hex|Hno].
  - apply Exists_exists in Hex as (p & Hin & Hp). apply (Hstep p Hin).
    apply threadStep_enabled.
    + by destruct p.
    + apply orb_prop in Hp. tauto.
  - apply not_Exists_Forall in Hno; [|apply _].
    apply not_Forall_Exists in Hnf; [|apply _].
    apply Exists_exists in Hnf as (p & Hin & Hp).
    apply (Hstep p Hin). apply threadStep_enabled; [by apply not_true_is_false|].
    right. right.
    assert (Hs : count holdsShared T = 0%nat /\ count holdsExclusive T = 0%nat).
    { clear -Hno. induction T as [|q T IH]; [done|].
      apply Forall_cons in Hno as [Hq HT]. cbn [count].
      destruct (IH HT) as [-> ->]. simpl in Hq.
      destruct (holdsShared q), (holdsExclusive q); simpl in Hq; try done.
      all: by exfalso; apply Hq. }
    destruct Hs as [Hs He]. rewrite Hs in Hr. rewrite He in Hw.
    split; [|done]. by destruct (writer mu).
Qed.

Lemma threadStep_decreases p s mu w p' s' mu' w' :
  threadStep p s mu w = Some (p', s', mu', w') -> (stepsLeft p' < stepsLeft p)%nat.
Proof. intros Hp. step_cases Hp; simpl; lia. Qed.

Lemma workLeft_step sys sys' : sysStep sys sys' -> (workLeft sys' < workLeft sys)%nat.
Proof.
  intros [before p after s mu w p' s' mu' w' Hp]. unfold workLeft. cbn [threads].
  rewrite !fmap_app, !fmap_cons, !sum_list_with_app || rewrite !fmap_app, !sum_list_app.
  cbn [sum_list sum_list_with fmap list_fmap].
  pose proof (threadStep_decreases _ _ _ _ _ _ _ _ Hp). simpl. lia.
Qed.

(** Every run ends: [N] requests take 15 steps each at most. *)
Lemma run_bounded N s w n sys :
  nsteps sysStep n (initial N s w) sys -> (n + workLeft sys <= 15 * N)%nat.
Proof.
  assert (Hinit : workLeft (initial N s w) = (15 * N)%nat).
  { unfold workLeft, initial. cbn [threads].
    induction N as [|N IH]; [done|]. cbn [replicate fmap list_fmap sum_list sum_list_with].
    change (list_fmap pc nat stepsLeft (replicate N AtRLock))
      with (stepsLeft <$> replicate N AtRLock). rewrite IH. simpl. lia. }
  rewrite <- Hinit. generalize (initial N s w). clear Hinit.
  intros sys0 Hn. induction Hn as [|n x y z Hstep _ IH]; [lia|].
  apply workLeft_step in Hstep. lia.
Qed.

(** The step a schedule takes, spelled out. *)
Lemma stepAt_inv i sys sys' :
  stepAt i sys = Some sys' ->
  exists before p after p' s' mu' w',
    threads sys = before ++ p :: after
    /\ threads sys !! i = Some p
    /\ threadStep p (server sys) (mutex sys) (world sys) = Some (p', s', mu', w')
    /\ sys' = mkSystem (before ++ p' :: after) s' mu' w'
    /\ threads sys' !! i = Some p'.
Proof.
  unfold stepAt. destruct sys as [T s mu w]. cbn [threads server mutex world].
  destruct (T !! i) as [p|] eqn:Hp; [|done].
  destruct (threadStep p s mu w) as [[[[p' s'] mu'] w']|] eqn:Hstep; [|done].
  intros [= <-]. pose proof (lookup_lt_Some _ _ _ Hp) as Hlt.
  exists (take i T), p, (drop (S i) T), p', s', mu', w'.
  split; [by rewrite take_drop_middle|]. split; [done|]. split; [done|].
  split; [by rewrite (insert_take_drop T i p')|].
  cbn [threads]. by apply list_lookup_insert_eq.
Qed.

(** Every run is the run of a schedule. *)
Lemma sysStep_stepAt sys sys' :
  sysStep sys sys' -> exists i, stepAt i sys = Some sys'.
Proof.
  intros [before p after s mu w p' s' mu' w' Hp]. exists (length before).
  unfold stepAt. cbn [threads server mutex world].
  rewrite list_lookup_middle by done. rewrite Hp.
  by rewrite insert_app_r_alt, Nat.sub_diag by lia.
Qed.

Lemma rtc_runSchedule sys sys' :
  rtc sysStep sys sys' -> exists schedule, runSchedule schedule sys = Some sys'.
Proof.
  induction 1 as [sys|sys sys1 sys' Hstep _ [schedule Hrun]].
  - by exists [].
  - destruct (sysStep_stepAt _ _ Hstep) as [i Hi]. exists (i :: schedule).
    simpl. by rewrite Hi.
Qed.

(** A step takes no reading of the clock back. *)
Lemma threadStep_reads p s mu w p' s' mu' w' :
  threadStep p s mu w = Some (p', s', mu', w') -> (w_reads w <= w_reads w')%nat.
Proof.
  intros Hp. destruct p; cbn [threadStep] in Hp.
  - destruct (writer mu); [discriminate|]. by injection Hp as <- <- <- <-.
  - rewrite cacheValid_run in Hp.
    destruct (cachedCRL s); injection Hp as <- <- <- <-; simpl; lia.
  - by injection Hp as <- <- <- <-.
  - by injection Hp as <- <- <- <-.
  - destruct (_ || _); [discriminate|]. by injection Hp as <- <- <- <-.
  - rewrite cacheValid_run in Hp.
    destruct (cachedCRL s); injection Hp as <- <- <- <-; simpl; lia.
  - destruct (regenCredentials_run w) as (evs & Heq & _). rewrite Heq in Hp.
    by injection Hp as <- <- <- <-.
  - destruct (regenRegistry_run w) as (evs & Heq & _). rewrite Heq in Hp.
    by injection Hp as <- <- <- <-.
  - rewrite regenEncode_run in Hp. cbv zeta in Hp.
    injection Hp as <- <- <- <-. simpl. lia.
  - by injection Hp as <- <- <- <-.
  - by injection Hp as <- <- <- <-.
  - by injection Hp as <- <- <- <-.
  - destruct (regenPersist_run s crlNumber w) as (evs & Heq & _). rewrite Heq in Hp.
    injection Hp as <- <- <- <-. simpl. lia.
  - by injection Hp as <- <- <- <-.
  - discriminate.
Qed.

Lemma runSchedule_reads schedule : forall sys sys',
  runSchedule schedule sys = Some sys' ->
  (w_reads (world sys) <= w_reads (world sys'))%nat.
Proof.
  induction schedule as [|i rest IH]; intros sys sys'; cbn [runSchedule].
  - by intros [= <-].
  - destruct (stepAt i sys) as [sys1|] eqn:Hstep; [|done].
    intros Hrun. specialize (IH _ _ Hrun).
    destruct (stepAt_inv _ _ _ Hstep) as (? & p & ? & p' & s' & mu' & w' & _ & _ & Hp & -> & _).
    apply threadStep_reads in Hp. cbn [world] in IH. lia.
Qed.

End ConcurrencyProps.

(** ** Concurrent requests: single flight *)

Section Burst.

Context `{X509}.

Variables (s0 : CRLServer) (w0 : World).
Variables (caCert : Certificate) (caPrivKey : Signer) (revokedCerts : list RevokedCert).
Variable R : nat.

Hypothesis Hstale : forall i, duringBurst w0 R i -> staleAt s0 (w_clock w0 i) = true.
Hypothesis Hcreds : credentialsResult (w_crt w0) (w_key w0) = Ok (caCert, caPrivKey).
Hypothesis Hreg : registryResult (w_list w0) = Ok revokedCerts.
Hypothesis Henc : forall n i,
  duringBurst w0 R i ->
  is_ok (x509_CreateRevocationList n (templateOf revokedCerts (w_clock w0 i))
                                   caCert caPrivKey) = true.

Local Abbreviation same := (sameInputs w0).
Local Abbreviation window := (inWindow w0 R).

Lemma cacheValid_stale w valid w' :
  cacheValid s0 w = (valid, w') ->
  same w -> (w_reads w' <= R)%nat ->
  valid = false /\ same w' /\ w_trace w' = w_trace w.
Proof.
  rewrite cacheValid_run. intros Hv (Hc & Hk & Hl & Hclock & Hreads) HR.
  destruct (cachedCRL s0) eqn:Hs0; injection Hv as <- <-.
  - rewrite Hclock, Hstale by (split; [done|]; simpl in HR; lia).
    split; [done|]. split; [|done]. repeat split; try done. simpl. lia.
  - by repeat split.
Qed.

Lemma cacheValid_fresh crlBytes now number w valid w' :
  cacheValid (mkCRLServer (Some crlBytes) now number) w = (valid, w') ->
  same w -> (w_reads w' <= R)%nat -> window now ->
  valid = true /\ same w' /\ w_trace w' = w_trace w.
Proof.
  rewrite cacheValid_run. cbn [cachedCRL].
  intros Hv (Hc & Hk & Hl & Hclock & Hreads) HR Hwin. injection Hv as <- <-.
  unfold staleAt. cbn [cachedCRL cacheTime]. rewrite Hclock.
  assert (Hlt : time.Sub (w_clock w0 (w_reads w)) now < cacheDuration).
  { apply Hwin. split; [done|]. simpl in HR. lia. }
  apply Z.ltb_lt in Hlt. rewrite Hlt.
  split; [done|]. split; [|done]. repeat split; try done. simpl. lia.
Qed.

Lemma regenCredentials_ok w :
  same w ->
  exists w',
    regenCredentials w = (Ok (caCert, caPrivKey), w') /\ same w'
    /\ calls EvLoadCertAndKey (w_trace w') = S (calls EvLoadCertAndKey (w_trace w))
    /\ calls EvCreateRevocationList (w_trace w') = calls EvCreateRevocationList (w_trace w).
Proof.
  intros (Hc & Hk & Hl & Hclock & Hreads).
  destruct (regenCredentials_run w) as (evs & -> & Hl1 & Hc1).
  rewrite Hc, Hk, Hcreds. eexists. split; [reflexivity|].
  split; [by repeat split|]. cbn [w_trace addTrace]. rewrite !calls_app. lia.
Qed.

Lemma regenRegistry_ok w :
  same w ->
  exists w',
    regenRegistry w = (Ok revokedCerts, w') /\ same w'
    /\ calls EvLoadCertAndKey (w_trace w') = calls EvLoadCertAndKey (w_trace w)
    /\ calls EvCreateRevocationList (w_trace w') = calls EvCreateRevocationList (w_trace w).
Proof.
  intros (Hc & Hk & Hl & Hclock & Hreads).
  destruct (regenRegistry_run w) as (evs & -> & Hq).
  rewrite Hl, Hreg. eexists. split; [reflexivity|].
  split; [by repeat split|]. cbn [w_trace addTrace].
  rewrite !calls_app, !(calls_quiet _ evs) by done. lia.
Qed.

Lemma regenEncode_ok w enc w' :
  regenEncode revokedCerts caCert caPrivKey w = (enc, w') ->
  same w -> (w_reads w' <= R)%nat ->
  exists crlBytes,
    enc = (w_clock w0 (w_reads w), time.ToUnix (w_clock w0 (w_reads w)), Ok crlBytes)
    /\ same w'
    /\ calls EvLoadCertAndKey (w_trace w') = calls EvLoadCertAndKey (w_trace w)
    /\ calls EvCreateRevocationList (w_trace w')
       = S (calls EvCreateRevocationList (w_trace w)).
Proof.
  rewrite regenEncode_run. cbv zeta.
  intros He (Hc & Hk & Hl & Hclock & Hreads) HR. injection He as <- <-.
  rewrite Hclock. cbn [evolve w_reads] in HR.
  assert (Hi : duringBurst w0 R (w_reads w)) by (split; [done|lia]).
  pose proof (Henc (w_entropy w) (w_reads w) Hi) as Hok.
  destruct (x509_CreateRevocationList _ _ _ _) as [crlBytes|e]; [|discriminate].
  exists crlBytes. split; [reflexivity|].
  split; [repeat split; try done; simpl; lia|]. cbn [w_trace evolve]. rewrite !calls_app.
  change (calls EvLoadCertAndKey [EvCreateRevocationList]) with 0%nat.
  change (calls EvCreateRevocationList [EvCreateRevocationList]) with 1%nat. lia.
Qed.

Lemma regenPersist_ok s crlNumber w :
  same w ->
  exists w',
    regenPersist s crlNumber w = (tt, w') /\ same w'
    /\ calls EvLoadCertAndKey (w_trace w') = calls EvLoadCertAndKey (w_trace w)
    /\ calls EvCreateRevocationList (w_trace w') = calls EvCreateRevocationList (w_trace w).
Proof.
  intros (Hc & Hk & Hl & Hclock & Hreads).
  destruct (regenPersist_run s crlNumber w) as (evs & -> & Hq & _).
  eexists. split; [reflexivity|]. split; [by repeat split|]. cbn [w_trace evolve].
  rewrite !calls_app, !(calls_quiet _ evs) by done. lia.
Qed.

(** The goroutine that holds the exclusive lock is the only one that holds
    the lock. *)
Lemma exclusive_alone before p after s mu w :
  lockHeld (mkSystem (before ++ p :: after) s mu w) ->
  holdsExclusive p = true ->
  writer mu = true
  /\ Forall (fun q => holdsShared q = false /\ holdsExclusive q = false) (before ++ after).
Proof.
  intros (Hr & Hw & Hrw) Hpe. cbn [threads mutex] in *.
  rewrite !count_app in *. cbn [count] in *.
  assert (Hps : holdsShared p = false) by (destruct p; done).
  rewrite Hpe, Hps in *.
  destruct (writer mu); [|lia]. specialize (Hrw eq_refl). split; [done|].
  assert (Hb : count holdsShared before = 0%nat /\ count holdsExclusive before = 0%nat) by lia.
  assert (Ha : count holdsShared after = 0%nat /\ count holdsExclusive after = 0%nat) by lia.
  destruct Hb as [Hbs%count_zero Hbe%count_zero].
  destruct Ha as [Has%count_zero Hae%count_zero].
  apply Forall_app. split; apply Forall_forall; intros q Hq; split;
    by (eapply Forall_forall in Hq; [exact Hq|]).
Qed.

(** A list has one decomposition around an element that is not idle when
    all the others are. *)
Lemma middle_unique before : forall p after before' q after',
  before ++ p :: after = before' ++ q :: after' ->
  Forall idle before' -> Forall idle after' -> ~ idle p ->
  before = before' /\ p = q /\ after = after'.
Proof.
  induction before as [|x before IH]; intros p after before' q after' Heq Hb Ha Hp.
  - destruct before' as [|x' before']; injection Heq as -> Heq; [by subst|].
    apply Forall_cons in Hb as [? _]. done.
  - destruct before' as [|x' before']; injection Heq as -> Heq.
    + exfalso. apply Hp. eapply Forall_forall; [exact Ha|].
      rewrite <- Heq. apply elem_of_app. right. apply elem_of_cons. by left.
    + apply Forall_cons in Hb as [_ Hb].
      destruct (IH _ _ _ _ _ Heq Hb Ha Hp) as (-> & -> & ->). done.
Qed.

Lemma idle_blocked p s mu w :
  idle p -> writer mu = true -> threadStep p s mu w = None.
Proof. intros [-> | ->] Hw; simpl; by rewrite Hw. Qed.

Lemma idle_stalePc p : idle p -> stalePc p.
Proof. by intros [-> | ->]. Qed.

Lemma idle_freshPc crlBytes p : idle p -> freshPc crlBytes p.
Proof. by intros [-> | ->]. Qed.

Lemma Forall_both {A} (P Q R' : A -> Prop) l :
  Forall P l -> Forall Q l -> (forall x, P x -> Q x -> R' x) -> Forall R' l.
Proof.
  intros HP HQ Himp. apply Forall_forall. intros x Hx.
  apply Himp; eapply Forall_forall; eauto.
Qed.

Lemma stale_idle q :
  stalePc q -> holdsShared q = false /\ holdsExclusive q = false -> idle q.
Proof.
  unfold idle. destruct q; simpl; intros Hs [? ?];
    try contradiction; try discriminate; auto.
Qed.

Lemma called_trace w w' l c :
  w_trace w' = w_trace w -> calledSince w0 w l c -> calledSince w0 w' l c.
Proof. unfold calledSince. by intros ->. Qed.

Local Abbreviation stale := (phaseStale s0 w0).
Local Abbreviation inst := (phaseInstalling s0 w0 caCert caPrivKey revokedCerts R).
Local Abbreviation fresh := (phaseFresh w0 R).

Lemma step_phaseStale before p after s mu w p' s' mu' w' :
  threadStep p s mu w = Some (p', s', mu', w') ->
  same w -> (w_reads w' <= R)%nat ->
  lockHeld (mkSystem (before ++ p :: after) s mu w) ->
  stale (mkSystem (before ++ p :: after) s mu w) ->
  same w'
  /\ (stale (mkSystem (before ++ p' :: after) s' mu' w')
      \/ inst (mkSystem (before ++ p' :: after) s' mu' w')).
Proof.
  intros Hp Hsame HR Hlock (HT & Hs & Hcalled).
  cbn [threads server world] in *. subst s.
  apply Forall_app in HT as [Hb HT]. apply Forall_cons in HT as [Hpc Ha].
  assert (Hkeep : forall p'' w'',
            stalePc p'' -> same w'' -> w_trace w'' = w_trace w ->
            same w''
            /\ (stale (mkSystem (before ++ p'' :: after) s0 mu' w'')
                \/ inst (mkSystem (before ++ p'' :: after) s0 mu' w''))).
  { intros p'' w'' Hp'' Hs'' Htr. split; [done|]. left. split; [|split; [done|]].
    - apply Forall_app. split; [done|]. by apply Forall_cons.
    - by eapply called_trace. }
  destruct p; try contradiction; cbn [threadStep] in Hp.
  - destruct (writer mu); [discriminate|]. injection Hp as <- <- <- <-. by apply Hkeep.
  - destruct (cacheValid s0 w) as [valid w''] eqn:Hv. injection Hp as <- <- <- <-.
    destruct (cacheValid_stale _ _ _ Hv Hsame HR) as (-> & Hs'' & Htr). by apply Hkeep.
  - injection Hp as <- <- <- <-. by apply Hkeep.
  - destruct (_ || _); [discriminate|]. injection Hp as <- <- <- <-. by apply Hkeep.
  - destruct (cacheValid s0 w) as [valid w''] eqn:Hv. injection Hp as <- <- <- <-.
    destruct (cacheValid_stale _ _ _ Hv Hsame HR) as (-> & Hs'' & Htr). by apply Hkeep.
  - destruct (regenCredentials_ok w Hsame) as (w'' & Heq & Hs'' & Hl & Hc).
    rewrite Heq in Hp. injection Hp as <- <- <- <-. split; [done|]. right.
    destruct (exclusive_alone _ _ _ _ _ _ Hlock eq_refl) as [_ Halone].
    apply Forall_app in Halone as [Hbi Hai].
    exists before, (AtLoadRegistry caCert caPrivKey), after, 1%nat, 0%nat.
    split; [done|]. split; [|split; [|split]].
    + eapply Forall_both; [exact Hb | exact Hbi | apply stale_idle].
    + eapply Forall_both; [exact Ha | exact Hai | apply stale_idle].
    + by repeat split.
    + destruct Hcalled as [Hl0 Hc0]. split; cbn [world]; lia.
Qed.

Lemma step_phaseInstalling before p after s mu w p' s' mu' w' :
  threadStep p s mu w = Some (p', s', mu', w') ->
  same w -> (w_reads w' <= R)%nat ->
  Forall window (created p p') ->
  lockHeld (mkSystem (before ++ p :: after) s mu w) ->
  inst (mkSystem (before ++ p :: after) s mu w) ->
  same w'
  /\ (inst (mkSystem (before ++ p' :: after) s' mu' w')
      \/ fresh (mkSystem (before ++ p' :: after) s' mu' w')).
Proof.
  intros Hp Hsame HR Hcreated Hlock
    (before' & q & after' & l & c & HT & Hb & Ha & Hinst & Hcalled).
  cbn [threads server world] in *.
  assert (Hq : holdsExclusive q = true) by (destruct q; done).
  rewrite HT in Hlock. destruct (exclusive_alone _ _ _ _ _ _ Hlock Hq) as [Hw _].
  assert (Hnidle : ~ idle p).
  { intros Hi. by rewrite (idle_blocked p s mu w Hi Hw) in Hp. }
  destruct (middle_unique _ _ _ _ _ _ HT Hb Ha Hnidle) as (-> & -> & ->).
  clear HT Hnidle Hq. destruct Hcalled as [Hl0 Hc0].
  assert (Hnext : forall q' s'' w'' l' c',
            installing s0 w0 caCert caPrivKey revokedCerts R q' s'' l' c' ->
            calledSince w0 w'' l' c' ->
            inst (mkSystem (before' ++ q' :: after') s'' mu' w'')).
  { intros q' s'' w'' l' c' Hi Hc. by exists before', q', after', l', c'. }
  destruct q; try contradiction; cbn [threadStep installing] in Hp, Hinst.
  - destruct Hinst as (-> & -> & -> & -> & ->).
    destruct (regenRegistry_ok w Hsame) as (w'' & Heq & Hs'' & Hl & Hc).
    rewrite Heq in Hp. injection Hp as <- <- <- <-. split; [done|]. left.
    apply (Hnext _ _ _ 1%nat 0%nat); [by repeat split|]. split; cbn [world]; lia.
  - destruct Hinst as (-> & -> & -> & -> & -> & ->).
    destruct (regenEncode revokedCerts caCert caPrivKey w) as [enc w''] eqn:He.
    assert (HR' : (w_reads w'' <= R)%nat).
    { destruct enc as [[? ?] [?|?]]; by injection Hp as <- <- <- <-. }
    destruct (regenEncode_ok _ _ _ He Hsame HR') as (crlBytes & -> & Hs'' & Hl & Hc).
    injection Hp as <- <- <- <-. split; [done|]. left.
    apply (Hnext _ _ _ 1%nat 1%nat); [|split; cbn [world]; lia].
    cbn [installing created] in *. apply Forall_cons in Hcreated as [Hwin _].
    by repeat split.
  - destruct Hinst as (Hnow & -> & -> & -> & ->).
    injection Hp as <- <- <- <-. split; [done|]. left.
    apply (Hnext _ _ _ 1%nat 1%nat); [by repeat split | by split].
  - destruct Hinst as (Hnow & -> & -> & -> & ->).
    injection Hp as <- <- <- <-. split; [done|]. left.
    apply (Hnext _ _ _ 1%nat 1%nat); [by repeat split | by split].
  - destruct Hinst as (Hnow & -> & -> & -> & ->).
    injection Hp as <- <- <- <-. split; [done|]. right.
    exists crlBytes, now. cbn [threads server world cachedCRL cacheTime].
    split; [|split; [done|split; [done | by split]]].
    apply Forall_app. split; [|apply Forall_cons; split; [done|]].
    + eapply Forall_impl; [exact Hb|]. apply idle_freshPc.
    + eapply Forall_impl; [exact Ha|]. apply idle_freshPc.
Qed.

Lemma step_phaseFresh before p after s mu w p' s' mu' w' :
  threadStep p s mu w = Some (p', s', mu', w') ->
  same w -> (w_reads w' <= R)%nat ->
  fresh (mkSystem (before ++ p :: after) s mu w) ->
  same w' /\ fresh (mkSystem (before ++ p' :: after) s' mu' w').
Proof.
  intros Hp Hsame HR (crlBytes & now & HT & Hwin & Hs & Hcalled).
  cbn [threads server world] in *. subst s.
  apply Forall_app in HT as [Hb HT]. apply Forall_cons in HT as [Hpc Ha].
  assert (Hkeep : forall p'' w'',
            freshPc crlBytes p'' -> same w'' ->
            calls EvLoadCertAndKey (w_trace w'') = calls EvLoadCertAndKey (w_trace w) ->
            calls EvCreateRevocationList (w_trace w'')
            = calls EvCreateRevocationList (w_trace w) ->
            same w''
            /\ fresh (mkSystem (before ++ p'' :: after)
                        (mkCRLServer (Some crlBytes) now (Some (time.ToUnix now))) mu' w'')).
  { intros p'' w'' Hp'' Hs'' Hl Hc. split; [done|]. exists crlBytes, now.
    split; [|split; [done|split; [done|]]].
    - apply Forall_app. split; [done|]. by apply Forall_cons.
    - destruct Hcalled as [Hl0 Hc0]. split; cbn [world]; lia. }
  destruct p; try contradiction; cbn [threadStep freshPc] in Hp, Hpc.
  - destruct (writer mu); [discriminate|]. injection Hp as <- <- <- <-. by apply Hkeep.
  - destruct (cacheValid _ w) as [valid w''] eqn:Hv. injection Hp as <- <- <- <-.
    destruct (cacheValid_fresh _ _ _ _ _ _ Hv Hsame HR Hwin) as (-> & Hs'' & Htr).
    apply Hkeep; by rewrite ?Htr.
  - injection Hp as <- <- <- <-. by apply Hkeep.
  - destruct (_ || _); [discriminate|]. injection Hp as <- <- <- <-. by apply Hkeep.
  - destruct (cacheValid _ w) as [valid w''] eqn:Hv. injection Hp as <- <- <- <-.
    destruct (cacheValid_fresh _ _ _ _ _ _ Hv Hsame HR Hwin) as (-> & Hs'' & Htr).
    apply Hkeep; by rewrite ?Htr.
  - subst crlBytes0.
    destruct (regenPersist_ok
                (mkCRLServer (Some crlBytes) now (Some (time.ToUnix now))) crlNumber w Hsame)
      as (w'' & Heq & Hs'' & Hl & Hc).
    rewrite Heq in Hp. injection Hp as <- <- <- <-. by apply Hkeep.
  - subst r. injection Hp as <- <- <- <-. by apply Hkeep.
  - discriminate.
Qed.

Local Abbreviation invariant := (burstInvariant s0 w0 caCert caPrivKey revokedCerts R).

Lemma burstInvariant_initial N : invariant (initial N s0 w0).
Proof.
  split; [by repeat split|]. split; [apply lockHeld_initial|]. left.
  split; [|split; [done | by split]].
  apply Forall_forall. by intros p [-> _]%elem_of_replicate.
Qed.

Lemma burstInvariant_step before p after s mu w p' s' mu' w' :
  threadStep p s mu w = Some (p', s', mu', w') ->
  (w_reads w' <= R)%nat ->
  Forall window (created p p') ->
  invariant (mkSystem (before ++ p :: after) s mu w) ->
  invariant (mkSystem (before ++ p' :: after) s' mu' w').
Proof.
  intros Hp HR Hcreated (Hsame & Hlock & Hphase). cbn [world] in Hsame.
  assert (Hlock' : lockHeld (mkSystem (before ++ p' :: after) s' mu' w')).
  { eapply lockHeld_step; [exact Hlock|]. by constructor. }
  destruct Hphase as [Hph|[Hph|Hph]].
  - destruct (step_phaseStale _ _ _ _ _ _ _ _ _ _ Hp Hsame HR Hlock Hph) as [? [?|?]];
      (split; [done|]); (split; [done|]); [by left | by right; left].
  - destruct (step_phaseInstalling _ _ _ _ _ _ _ _ _ _ Hp Hsame HR Hcreated Hlock Hph)
      as [? [?|?]];
      (split; [done|]); (split; [done|]); [by right; left | by right; right].
  - destruct (step_phaseFresh _ _ _ _ _ _ _ _ _ _ Hp Hsame HR Hph) as [? ?].
    split; [done|]. split; [done|]. by right; right.
Qed.

(** The invariant holds along the run of a schedule that ends within [R]
    readings and in which each artifact created has all readings of the
    burst in its window. *)
Lemma burstInvariant_run schedule : forall sys sys',
  runSchedule schedule sys = Some sys' ->
  (w_reads (world sys') <= R)%nat ->
  Forall window (generations schedule sys) ->
  invariant sys -> invariant sys'.
Proof.
  induction schedule as [|i rest IH]; intros sys sys'; cbn [runSchedule generations].
  - by intros [= <-].
  - destruct (stepAt i sys) as [sys1|] eqn:Hstep; [|done].
    intros Hrun HR Hgen Hinv. apply Forall_app in Hgen as [Hgen1 Hgen].
    apply (IH sys1 sys' Hrun HR Hgen).
    pose proof (runSchedule_reads _ _ _ Hrun) as Hreads.
    destruct (stepAt_inv _ _ _ Hstep)
      as (before & p & after & p' & s' & mu' & w' & HT & Hi & Hp & -> & Hi').
    rewrite Hi, Hi' in Hgen1. cbn [world] in Hreads.
    destruct sys as [T s mu w]. cbn [threads server mutex world] in *. subst T.
    eapply burstInvariant_step; [exact Hp | lia | exact Hgen1 | exact Hinv].
Qed.

(** Single flight, for the run of a schedule on a cache that is stale at
    the readings of the burst, whose regeneration succeeds, and in which each
    artifact created has all readings of the burst in its window. *)
Lemma burst_oneRebuild N schedule sys :
  (1 <= N)%nat ->
  runSchedule schedule (initial N s0 w0) = Some sys ->
  finished sys ->
  (w_reads (world sys) <= R)%nat ->
  Forall window (generations schedule (initial N s0 w0)) ->
  oneRebuild w0 sys.
Proof.
  intros HN Hrun Hfin HR Hgen.
  assert (Hlen : length (threads sys) = N).
  { apply runSchedule_rtc in Hrun. clear -Hrun.
    eapply (rtc_ind_r (fun sys => length (threads sys) = N)); [| |exact Hrun].
    - apply length_replicate.
    - intros y z _ [before p after s mu w p' s' mu' w' _] Hy. cbn [threads] in *.
      rewrite length_app in *. exact Hy. }
  destruct (burstInvariant_run schedule _ _ Hrun HR Hgen (burstInvariant_initial N))
    as (_ & _ & [Hph|[Hph|Hph]]).
  - exfalso. destruct Hph as (HT & _). unfold finished in Hfin.
    destruct (threads sys) as [|p T]; [simpl in Hlen; lia|].
    apply Forall_cons in HT as [Hp _]. apply Forall_cons in Hfin as [Hd _].
    by destruct p.
  - exfalso. destruct Hph as (before & q & after & l & c & HT & _ & _ & Hinst & _).
    unfold finished in Hfin. rewrite HT in Hfin.
    apply Forall_app in Hfin as [_ Hfin]. apply Forall_cons in Hfin as [Hd _].
    by destruct q.
  - destruct Hph as (crlBytes & now & HT & _ & Hs & Hl & Hc).
    split; [exact Hl|]. split; [exact Hc|].
    exists crlBytes, (time.ToUnix now). rewrite Hs. split; [|done].
    unfold finished in Hfin.
    eapply Forall_both; [exact HT | exact Hfin |].
    intros p Hp Hd. destruct p; try discriminate. simpl in Hp. by subst.
Qed.

End Burst.

(** Alone, a goroutine does what [getCRL] does. *)
Lemma alone_is_getCRL `{X509} s w :
  rtc sysStep (initial 1 s w)
      (mkSystem [Done (getCRL s w).1.1] (getCRL s w).1.2 (mkRWMutex 0 false) (getCRL s w).2).
Proof.
  assert (Hgo : forall p s1 mu w1 p' s' mu' w' z,
            threadStep p s1 mu w1 = Some (p', s', mu', w') ->
            rtc sysStep (mkSystem [p'] s' mu' w') z ->
            rtc sysStep (mkSystem [p] s1 mu w1) z).
  { intros p s1 mu w1 p' s' mu' w' z Hp Hz. eapply rtc_l; [|exact Hz].
    by apply (sys_step [] p []). }
  unfold initial, getCRL, bind. cbn [replicate].
  eapply Hgo; [reflexivity|]. cbn [readers writer].
  destruct (cacheValid s w) as [[|] w1] eqn:Hv1.
  { eapply Hgo; [cbn [threadStep]; by rewrite Hv1|].
    eapply Hgo; [reflexivity|]. apply rtc_refl. }
  eapply Hgo; [cbn [threadStep]; by rewrite Hv1|].
  eapply Hgo; [reflexivity|]. eapply Hgo; [reflexivity|]. cbn [readers writer pred Nat.pred].
  destruct (cacheValid s w1) as [[|] w2] eqn:Hv2.
  { eapply Hgo; [cbn [threadStep]; by rewrite Hv2|].
    eapply Hgo; [reflexivity|]. apply rtc_refl. }
  eapply Hgo; [cbn [threadStep]; by rewrite Hv2|].
  unfold regenerate, bind.
  destruct (regenCredentials w2) as [[[caCert caPrivKey]|e] w3] eqn:Hc.
  2:{ eapply Hgo; [cbn [threadStep]; by rewrite Hc|].
      eapply Hgo; [reflexivity|]. apply rtc_refl. }
  eapply Hgo; [cbn [threadStep]; by rewrite Hc|].
  destruct (regenRegistry w3) as [[revokedCerts|e] w4] eqn:Hr.
  2:{ eapply Hgo; [cbn [threadStep]; by rewrite Hr|].
      eapply Hgo; [reflexivity|]. apply rtc_refl. }
  eapply Hgo; [cbn [threadStep]; by rewrite Hr|].
  destruct (regenEncode revokedCerts caCert caPrivKey w4)
    as [[[now crlNumber] [crlBytes|e]] w5] eqn:He.
  2:{ eapply Hgo; [cbn [threadStep]; by rewrite He|].
      eapply Hgo; [reflexivity|]. apply rtc_refl. }
  eapply Hgo; [cbn [threadStep]; by rewrite He|].
  eapply Hgo; [reflexivity|]. eapply Hgo; [reflexivity|]. eapply Hgo; [reflexivity|].
  cbn [cachedCRL cacheTime cacheNumber].
  destruct (regenPersist _ crlNumber w5) as [[] w6] eqn:Hp.
  eapply Hgo; [cbn [threadStep]; by rewrite Hp|].
  eapply Hgo; [reflexivity|]. apply rtc_refl.
Qed.

(** C1, as the code has it.  Let [N >= 1] requests arrive and run to their
    end under any schedule - every run of the system is the run of one
    ([rtc_runSchedule]) - on a cache that is stale at every reading of the
    clock taken during the burst, in a world whose credentials and registry
    load and whose revocation list the primitive encodes; and let every
    reading of the clock taken during the burst be less than a freshness
    window after the generation time of each artifact the burst creates.
    Then:
    - the credential loader was called once and the encoding primitive
      once, and every request returned the bytes of the one artifact the
      server now holds, with its number;
    - at every moment of every run the exclusive lock has one holder at
      most, who then is the only holder, so that no goroutine reads the cache
      while another is between two of the assignments that install an
      artifact;
    - while a request has not returned some goroutine can step, and no run
      is longer than [15 * N] steps: every request returns. *)
Theorem single_flight `{X509} N s0 w0 caCert caPrivKey revokedCerts schedule sys :
  (1 <= N)%nat ->
  runSchedule schedule (initial N s0 w0) = Some sys ->
  finished sys ->
  (forall i, (w_reads w0 <= i < w_reads (world sys))%nat ->
     staleAt s0 (w_clock w0 i) = true) ->
  (loadCertAndKey w0).1 = Ok (caCert, caPrivKey) ->
  (loadRevokedCertificates w0).1 = Ok revokedCerts ->
  (forall n i,
     (w_reads w0 <= i < w_reads (world sys))%nat ->
     is_ok (x509_CreateRevocationList n (templateOf revokedCerts (w_clock w0 i))
                                      caCert caPrivKey) = true) ->
  (forall now i,
     now ∈ generations schedule (initial N s0 w0) ->
     (w_reads w0 <= i < w_reads (world sys))%nat ->
     time.Sub (w_clock w0 i) now < cacheDuration) ->
  oneRebuild w0 sys
  /\ (forall sys', rtc sysStep (initial N s0 w0) sys' ->
        lockHeld sys' /\ noHalfBuilt sys'
        /\ (~ finished sys' -> exists sys'', sysStep sys' sys''))
  /\ (forall n sys', nsteps sysStep n (initial N s0 w0) sys' -> (n <= 15 * N)%nat).
Proof.
  intros HN Hrun Hfin Hstale Hcreds Hreg Henc Hwin.
  rewrite loadCertAndKey_result in Hcreds. rewrite loadRevokedCertificates_result in Hreg.
  split; [|split].
  - apply (burst_oneRebuild s0 w0 caCert caPrivKey revokedCerts (w_reads (world sys))
             Hstale Hcreds Hreg Henc N schedule sys HN Hrun Hfin (le_n _)).
    apply Forall_forall. intros now Hnow i Hi. by apply Hwin.
  - intros sys' Hrtc. pose proof (lockHeld_reachable N s0 w0 sys' Hrtc) as Hlock.
    split; [done|]. split; [by apply lockHeld_noHalfBuilt | by apply progress].
  - intros n sys' Hn. pose proof (run_bounded N s0 w0 n sys' Hn). lia.
Qed.

(** A schedule all of whose steps can be taken ends in [afterSchedule]. *)
Lemma runSchedule_after `{X509} schedule sys :
  match runSchedule schedule sys with Some _ => true | None => false end = true ->
  runSchedule schedule sys = Some (afterSchedule schedule sys).
Proof. unfold afterSchedule. by destruct (runSchedule schedule sys). Qed.

Lemma finished_forallb `{X509} sys : forallb isDone (threads sys) = true -> finished sys.
Proof.
  intros Hdone. apply Forall_forall. intros p Hp.
  eapply forallb_forall in Hdone; [exact Hdone|]. by apply list_elem_of_In.
Qed.

(** A burst in which the artifact is generated 59 minutes after the first
    reading of the clock, and the request that waited checks the cache two
    minutes later. *)
Lemma single_flight_witness :
  oneRebuild lateWorld (@afterSchedule toyX509 waiterSchedule (initial 2 agedServer lateWorld))
  /\ generations waiterSchedule (@initial toyX509 2 agedServer lateWorld) = [lateClock 3]
  /\ cacheDuration <= time.Sub (lateClock 4) (lateClock 0).
Proof.
  set (sys := @afterSchedule toyX509 waiterSchedule (initial 2 agedServer lateWorld)).
  assert (Hrun : @runSchedule toyX509 waiterSchedule (initial 2 agedServer lateWorld)
                 = Some sys) by (apply runSchedule_after; vm_compute; reflexivity).
  assert (Hgen : generations waiterSchedule (@initial toyX509 2 agedServer lateWorld)
                 = [lateClock 3]) by (vm_compute; reflexivity).
  assert (Hreads : w_reads (world sys) = 5%nat) by (vm_compute; reflexivity).
  assert (Hfin : finished sys) by (apply finished_forallb; vm_compute; reflexivity).
  split; [|split; [exact Hgen | by vm_compute]].
  refine (proj1 (@single_flight toyX509 2 agedServer lateWorld [x01] [x08; x02] []
                   waiterSchedule sys _ _ _ _ _ _ _ _)).
  - lia.
  - exact Hrun.
  - exact Hfin.
  - rewrite Hreads. intros i Hi.
    do 5 (destruct i as [|i]; [vm_compute; reflexivity|]). lia.
  - vm_compute; reflexivity.
  - vm_compute; reflexivity.
  - rewrite Hreads. intros n i Hi.
    do 5 (destruct i as [|i]; [vm_compute; reflexivity|]). lia.
  - rewrite Hgen, Hreads. intros now i ->%list_elem_of_singleton Hi.
    do 5 (destruct i as [|i]; [by vm_compute|]). lia.
Defined.

(** A schedule after which all requests have returned and the credential
    loader was not called exactly once refutes single flight. *)
Lemma refuted_by_schedule `{X509} N s w schedule :
  match runSchedule schedule (initial N s w) with
  | Some sys =>
      forallb isDone (threads sys)
      && negb (calls EvLoadCertAndKey (w_trace (world sys))
               =? S (calls EvLoadCertAndKey (w_trace w)))%nat
  | None => false
  end = true ->
  ~ singleFlight N s w.
Proof.
  intros Hrun Hclaim.
  destruct (runSchedule schedule (initial N s w)) as [sys|] eqn:Hsys; [|discriminate].
  apply andb_prop in Hrun as [Hdone Hcalls].
  apply negb_true_iff, Nat.eqb_neq in Hcalls. apply Hcalls.
  refine (proj1 (Hclaim sys _ _)).
  - by eapply runSchedule_rtc.
  - apply Forall_forall. intros p Hp. eapply forallb_forall in Hdone; [exact Hdone|].
    by apply list_elem_of_In.
Qed.

(** Single flight as the specification states it, for every burst on a
    stale cache, fails in two ways.  A regeneration that fails is attempted
    again by the next request: with a certificate file that is missing, two
    requests call the credential loader twice and the encoding primitive
    never.  And a request that waited for the exclusive lock checks the
    cache against its own reading of the clock: when that reading is a
    freshness window after the time of the artifact just installed, it
    regenerates again. *)
Lemma failed_rebuild_is_retried :
  (staleThroughout newServer badWorld /\ ~ @singleFlight toyX509 2 newServer badWorld)
  /\ (staleThroughout newServer hourlyWorld
      /\ ~ @singleFlight toyX509 2 newServer hourlyWorld).
Proof.
  split; (split; [intros i; reflexivity|]).
  - apply (refuted_by_schedule 2 newServer badWorld oneThenOther).
    vm_compute. reflexivity.
  - apply (refuted_by_schedule 2 newServer hourlyWorld
             (replicate 3 1 ++ replicate 13 0 ++ replicate 10 1)%nat).
    vm_compute. reflexivity.
Qed.

(* ================================================================= *)
(** * The handler, the startup and what the operations never do *)

(** ** What a request serves *)

Lemma Sub_self t : time.Sub t t = 0.
Proof. unfold time.Sub, time.minDuration, time.maxDuration. rewrite Z.sub_diag. lia. Qed.

Lemma Sub_lt t u d : d <= time.maxDuration -> time.Sub t u < d -> t - u < d.
Proof. unfold time.Sub, time.maxDuration, time.minDuration. lia. Qed.

Lemma staleAt_fresh s t crl :
  cachedCRL s = Some crl -> staleAt s t = false -> time.Sub t (cacheTime s) < cacheDuration.
Proof.
  unfold staleAt. intros -> Hs. apply negb_false_iff in Hs. by apply Z.ltb_lt.
Qed.

(** A call that succeeds served the cache, which one of its readings of
    the clock found fresh, or installed an artifact whose time is one of its
    readings. *)
Lemma getCRL_ok `{X509} s w crl s' w' :
  getCRL s w = (Ok crl, s', w') ->
  (s' = s /\ cachedCRL s = Some crl
   /\ exists i, (w_reads w <= i < w_reads w')%nat /\ staleAt s (w_clock w i) = false)
  \/ (exists i, (w_reads w <= i < w_reads w')%nat
        /\ s' = mkCRLServer (Some crl) (w_clock w i) (Some (time.ToUnix (w_clock w i)))).
Proof.
  rewrite getCRL_run.
  assert (Hregen : forall w1,
    w_clock w1 = w_clock w -> (w_reads w <= w_reads w1)%nat ->
    regenerate s w1 = (Ok crl, s', w') ->
    exists i, (w_reads w <= i < w_reads w')%nat
      /\ s' = mkCRLServer (Some crl) (w_clock w i) (Some (time.ToUnix (w_clock w i)))).
  { intros w1 Hclock Hreads Hget.
    destruct (regenerate_run s w1) as (evs & _ & Hrun).
    unfold outcomeOf in Hrun.
    destruct (credentialsResult _ _) as [[c k]|e];
      [destruct (registryResult _) as [rcs|e];
       [destruct (x509_CreateRevocationList _ _ _ _) as [crlBytes|e]|]|];
      destruct Hrun as (Hrun & _); rewrite Hrun in Hget; try discriminate.
    injection Hget as <- <- <-.
    exists (w_reads w1). cbn [w_reads evolve]. split; [lia|]. by rewrite Hclock. }
  destruct (cachedCRL s) as [crl0|] eqn:Hc.
  - destruct (staleAt s (w_clock w (w_reads w))) eqn:H1.
    + destruct (staleAt s (w_clock w (S (w_reads w)))) eqn:H2.
      * intros Hget. right. apply (Hregen (tick (tick w))); [reflexivity | simpl; lia | done].
      * intros [= <- <- <-]. left. split; [done|]. split; [done|].
        exists (S (w_reads w)). simpl. split; [lia | done].
    + intros [= <- <- <-]. left. split; [done|]. split; [done|].
      exists (w_reads w). simpl. split; [lia | done].
  - intros Hget. right. apply (Hregen w); [reflexivity | lia | done].
Qed.

Example maxAge_ex : maxAge = "max-age=3600".
Proof. reflexivity. Qed.

(** X1 (the handler).  A request is answered in one of two ways, whatever
    its method and its path.  When [getCRL] returns bytes: status 200, the
    content type of a CRL, a maximal age of 3600 seconds - the whole window,
    however old the artifact is - and these bytes as the body, which are the
    artifact the server then holds.  When [getCRL] returns an error: status
    500 with the fixed text "Internal Server Error" as the body; the
    description of the error goes to the log only, and the server is as it
    was. *)
Theorem handleCRL_response `{X509} s r w :
  (forall crl s' w',
     getCRL s w = (Ok crl, s', w') ->
     handleCRL s http.newResponseWriter r w
     = (s', http.mkResponseWriter crlHeader (Some 200) crlHeader crl, w')
     /\ cachedCRL s' = Some crl)
  /\ (forall e s' w',
        getCRL s w = (Err e, s', w') ->
        handleCRL s http.newResponseWriter r w
        = (s, http.mkResponseWriter errorHeader (Some 500) errorHeader
                (list_byte_of_string ("Internal Server Error" +:+ String "010" "")),
           addTrace w' [EvLog ("Error generating CRL: " +:+ e)])).
Proof.
  split.
  - intros crl s' w' Hget. split.
    + unfold handleCRL, bind. rewrite Hget. reflexivity.
    + by destruct (getCRL_ok _ _ _ _ _ Hget) as [(-> & ? & _)|(i & _ & ->)].
  - intros e s' w' Hget. destruct (getCRL_error _ _ _ _ _ Hget) as [-> _].
    unfold handleCRL, bind. rewrite Hget. unfold log, emit, ret.
    unfold http.Error, http.Header_Del. cbn [http.header http.newResponseWriter].
    rewrite delete_empty. reflexivity.
Qed.

Lemma handleCRL_response_witness :
  @handleCRL toyX509 newServer http.newResponseWriter (http.mkRequest "POST" "/healthz")
    badWorld
  = (newServer,
     http.mkResponseWriter errorHeader (Some 500) errorHeader
       (list_byte_of_string ("Internal Server Error" +:+ String "010" "")),
     addTrace (@getCRL toyX509 newServer badWorld).2
       [EvLog ("Error generating CRL: "
                 +:+ wrap "loading certificate and key"
                       (wrap "reading cert file" "open tls/tls.crt: no such file or directory"))]).
Proof.
  destruct (@handleCRL_response toyX509 newServer (http.mkRequest "POST" "/healthz") badWorld)
    as [_ Herr].
  apply (Herr _ newServer). reflexivity.
Defined.

(** X2 (what is served is fresh).  Whatever the server holds and whatever
    the world is, the bytes a successful [getCRL] returns are the artifact
    the server holds when the call ends, and the time the cache records for
    it is less than the freshness window before a reading of the clock taken
    by this call: the first check, the second check, or the instant of the
    regeneration.  An artifact as old as the window is never returned. *)
Theorem served_is_fresh `{X509} s w crl s' w' :
  getCRL s w = (Ok crl, s', w') ->
  cachedCRL s' = Some crl
  /\ exists i, (w_reads w <= i < w_reads w')%nat
       /\ time.Sub (w_clock w i) (cacheTime s') < cacheDuration.
Proof.
  intros Hget.
  destruct (getCRL_ok _ _ _ _ _ Hget) as [(-> & Hcrl & i & Hi & Hfresh)|(i & Hi & ->)].
  - split; [exact Hcrl|]. exists i. split; [exact Hi|]. by eapply staleAt_fresh.
  - split; [reflexivity|]. exists i. split; [exact Hi|].
    cbn [cacheTime]. rewrite Sub_self. reflexivity.
Qed.

Lemma served_is_fresh_witness :
  cachedCRL (mkCRLServer (Some (list_byte_of_string "1700000000/0"))
                         1700000000000000000 (Some 1700000000))
  = Some (list_byte_of_string "1700000000/0")
  /\ exists i, (0 <= i < 1)%nat
       /\ time.Sub 1700000000000000000 1700000000000000000 < cacheDuration.
Proof.
  apply (@served_is_fresh toyX509 newServer goodWorld
           (list_byte_of_string "1700000000/0")
           (mkCRLServer (Some (list_byte_of_string "1700000000/0"))
                        1700000000000000000 (Some 1700000000))
           (@getCRL toyX509 newServer goodWorld).2).
  vm_compute. reflexivity.
Defined.

(** ** The cache directory only grows *)

Lemma keeps_refl a b dir : keeps a b dir dir.
Proof. by repeat split. Qed.

Lemma dirWrite_keeps a b dir name data :
  name = a \/ name = b ->
  match (dirWrite dir name data).2, dir with
  | Some d', Some d => keeps a b d d'
  | None, None => True
  | _, _ => False
  end.
Proof.
  intros Hname. unfold dirWrite. destruct dir as [d|]; [|done].
  destruct (d !! name) as [[data0| |]|] eqn:Hd; cbn [snd]; try apply keeps_refl.
  - split; [|split].
    + intros k Hk. destruct (decide (k = name)) as [->|Hne].
      * rewrite lookup_insert_eq. by eexists.
      * by rewrite lookup_insert_ne.
    + intros k Ha Hb. rewrite lookup_insert_ne; [done|]. intros ->. by destruct Hname.
    + intros k nd Hk Hf. destruct (decide (k = name)) as [->|Hne].
      * rewrite Hd in Hk. injection Hk as <-. discriminate.
      * by rewrite lookup_insert_ne.
  - split; [|split].
    + intros k Hk. destruct (decide (k = name)) as [->|Hne].
      * rewrite lookup_insert_eq. by eexists.
      * by rewrite lookup_insert_ne.
    + intros k Ha Hb. rewrite lookup_insert_ne; [done|]. intros ->. by destruct Hname.
    + intros k nd Hk Hf. destruct (decide (k = name)) as [->|Hne].
      * rewrite Hd in Hk. discriminate.
      * by rewrite lookup_insert_ne.
Qed.

Lemma keeps_trans a b d1 d2 d3 : keeps a b d1 d2 -> keeps a b d2 d3 -> keeps a b d1 d3.
Proof.
  intros (H1 & H2 & H3) (H1' & H2' & H3'). split; [|split].
  - auto.
  - intros k Ha Hb. rewrite H2', H2; done.
  - intros k nd Hk Hf. apply H3'; [|done]. by apply H3.
Qed.

Lemma dirSave_keeps s dir :
  match (dirSave s dir).2, dir with
  | Some d', Some d => keeps (derName (cacheNumber s)) (metaName (cacheNumber s)) d d'
  | None, None => True
  | _, _ => False
  end.
Proof.
  unfold dirSave.
  pose proof (dirWrite_keeps (derName (cacheNumber s)) (metaName (cacheNumber s)) dir
                (derName (cacheNumber s)) (bytesOf (cachedCRL s)) (or_introl eq_refl)) as H1.
  destruct (dirWrite dir (derName (cacheNumber s)) _) as [[e|] dir1]; cbn [snd] in *; [done|].
  pose proof (dirWrite_keeps (derName (cacheNumber s)) (metaName (cacheNumber s)) dir1
                (metaName (cacheNumber s)) (metaBytes (cacheTime s)) (or_intror eq_refl)) as H2.
  destruct (dirWrite dir1 _ _) as [e dir2]; cbn [snd] in *.
  destruct dir as [d|], dir1 as [d1|], dir2 as [d2|]; try done.
  by eapply keeps_trans.
Qed.

Lemma getCRL_keeps `{X509} s w r s' w' :
  getCRL s w = (r, s', w') ->
  match w_cache w', w_cache w with
  | Some dir', Some dir =>
      keeps (derName (cacheNumber s')) (metaName (cacheNumber s')) dir dir'
  | None, None => True
  | _, _ => False
  end.
Proof.
  intros Hget.
  assert (Hsame : w_cache w' = w_cache w ->
    match w_cache w', w_cache w with
    | Some dir', Some dir =>
        keeps (derName (cacheNumber s')) (metaName (cacheNumber s')) dir dir'
    | None, None => True
    | _, _ => False
    end).
  { intros ->. destruct (w_cache w); [apply keeps_refl | done]. }
  destruct (triggers s w) eqn:Ht.
  - rewrite (getCRL_triggered _ _ Ht) in Hget.
    destruct (regenerate_run s (regenWorld s w)) as (evs & _ & Hrun).
    assert (Hc : w_cache (regenWorld s w) = w_cache w).
    { unfold regenWorld. by destruct (cachedCRL s). }
    destruct (outcomeOf (regenWorld s w)) as [e|e|e|crlBytes now crlNumber].
    + destruct Hrun as [Hrun _]. rewrite Hrun in Hget. injection Hget as <- <- <-.
      by apply Hsame.
    + destruct Hrun as [Hrun _]. rewrite Hrun in Hget. injection Hget as <- <- <-.
      by apply Hsame.
    + destruct Hrun as [Hrun _]. rewrite Hrun in Hget. injection Hget as <- <- <-.
      by apply Hsame.
    + destruct Hrun as [Hrun _]. rewrite Hrun in Hget. injection Hget as <- <- <-.
      cbn [w_cache evolve]. rewrite Hc. apply dirSave_keeps.
  - destruct (getCRL_served _ _ Ht) as (crl & w1 & _ & Hget' & Hc & _).
    rewrite Hget' in Hget. injection Hget as <- <- <-. by apply Hsame.
Qed.

(** X4 (the cache directory is never pruned).  No request removes a file
    of the cache directory, and none makes the directory when it is not
    there.  A request changes at most the payload and the metadata file
    named after the number the server holds when it ends; every other entry
    stays as it is, and only regular files are replaced.  Artifacts that
    have expired stay on disk. *)
Theorem cache_never_pruned `{X509} s w r s' w' :
  getCRL s w = (r, s', w') ->
  (forall dir,
     w_cache w = Some dir ->
     exists dir',
       w_cache w' = Some dir'
       /\ keeps (derName (cacheNumber s')) (metaName (cacheNumber s')) dir dir')
  /\ (w_cache w = None -> w_cache w' = None).
Proof.
  intros Hget. pose proof (getCRL_keeps s w r s' w' Hget) as Hk.
  destruct (w_cache w) as [dir|], (w_cache w') as [dir'|]; try done.
  split; [|done]. intros ? [= <-]. by exists dir'.
Qed.

Lemma cache_never_pruned_witness :
  exists dir',
    w_cache (@getCRL toyX509 newServer
               (toyWorld (Content [x01] None) (Content [x08; x02] None) NotExist
                         (Some twoPairs) (1700000100 * time.Second))).2
    = Some dir'
    /\ keeps (derName (Some 1700000100)) (metaName (Some 1700000100)) twoPairs dir'.
Proof.
  pose (w := toyWorld (Content [x01] None) (Content [x08; x02] None) NotExist
                      (Some twoPairs) (1700000100 * time.Second)).
  pose (x := @getCRL toyX509 newServer w).
  assert (Hnumber : cacheNumber x.1.2 = Some 1700000100) by (vm_compute; reflexivity).
  rewrite <- Hnumber.
  destruct (@cache_never_pruned toyX509 newServer w x.1.1 x.1.2 x.2 (triple_eta x))
    as [Hk _].
  exact (Hk twoPairs eq_refl).
Defined.

(** ** Startup *)

(** X5 (startup fails fast).  [main] exits at once when the cache
    directory cannot be made, before it looks at the credentials.  And it
    refuses to start on credentials it cannot load, whatever the cache
    directory holds, a fresh artifact included: it exits with the error of
    the credential loader, and leaves the world as [os.MkdirAll] left it but
    for the log - no reading of the clock was taken, and the encoding
    primitive was not called.  So a process that serves had its cache
    directory and credentials that loaded when it started. *)
Theorem startup_fails_fast `{X509} `{Host} w :
  (forall e w1,
     os_MkdirAll w = (Some e, w1) ->
     main w = (Fatal ("Failed to create cache directory: " +:+ e),
               addTrace w1 [EvLog ("Failed to create cache directory: " +:+ e)]))
  /\ (forall e w1,
        os_MkdirAll w = (None, w1) ->
        (loadCertAndKey w1).1 = Err e ->
        exists evs,
          main w = (Fatal ("Failed to load certificate and key: " +:+ e), addTrace w1 evs)
          /\ calls EvCreateRevocationList evs = 0%nat)
  /\ (forall s w',
        main w = (Serving s, w') ->
        exists w1, os_MkdirAll w = (None, w1) /\ is_ok (loadCertAndKey w1).1 = true).
Proof.
  unfold main, bind. split; [|split].
  - intros e w1 ->. reflexivity.
  - intros e w1 -> Hload.
    destruct (loadCertAndKey_run w1) as (evs & Hrun & Hq). rewrite Hrun in *.
    cbn [fst] in Hload. rewrite Hload.
    unfold fatal, bind, log, emit, ret. rewrite addTrace_app.
    eexists. split; [reflexivity|].
    rewrite calls_app, !calls_cons, (calls_quiet _ evs) by done. reflexivity.
  - intros s w'. destruct (os_MkdirAll w) as [[e|] w1]; [discriminate|].
    intros Hmain. exists w1. split; [reflexivity|].
    destruct (loadCertAndKey_run w1) as (evs & Hrun & Hq). rewrite Hrun in *. cbn [fst].
    destruct (credentialsResult (w_crt w1) (w_key w1)); [done|]. discriminate.
Qed.

Lemma startup_fails_fast_witness :
  exists evs,
    @main toyX509 toyHost (withCache badWorld (Some twoPairs))
    = (Fatal ("Failed to load certificate and key: "
                +:+ wrap "reading cert file" "open tls/tls.crt: no such file or directory"),
       addTrace (withCache badWorld (Some twoPairs)) evs)
    /\ calls EvCreateRevocationList evs = 0%nat.
Proof.
  destruct (@startup_fails_fast toyX509 toyHost (withCache badWorld (Some twoPairs)))
    as (_ & Hfail & _).
  apply Hfail; reflexivity.
Defined.

(** What [main] does when the directory is there, the credentials load and
    the listener comes up: it serves with what the recovery restores, which
    starts in a world [w2] that has the directory and the clock of [w]. *)
Lemma main_serving `{X509} `{Host} w dir :
  os_MkdirAll w = (None, w) ->
  (forall w', http_ListenAndServe w' = (None, w')) ->
  is_ok (credentialsResult (w_crt w) (w_key w)) = true ->
  w_cache w = Some dir ->
  exists w2 k w1,
    w_cache w2 = Some dir /\ w_clock w2 = w_clock w /\ w_reads w2 = w_reads w
    /\ (recoverLoop (listing dir) noLatest w2).2 = Nat.iter k tick w2
    /\ main w = (Serving (restored newServer dir (recoverLoop (listing dir) noLatest w2).1), w1)
    /\ w_cache w1 = Some dir /\ w_clock w1 = w_clock w
    /\ w_reads w1 = (k + w_reads w)%nat
    /\ calls EvLoadCertAndKey (w_trace w1) = S (calls EvLoadCertAndKey (w_trace w))
    /\ calls EvCreateRevocationList (w_trace w1) = calls EvCreateRevocationList (w_trace w).
Proof.
  intros Hmk Hlisten Hcreds Hcache. unfold main, bind. rewrite Hmk.
  destruct (loadCertAndKey_run w) as (evs & -> & Hq).
  destruct (credentialsResult (w_crt w) (w_key w)) as [ck|e]; [|discriminate].
  unfold log, emit. rewrite addTrace_app.
  set (w2 := addTrace w _).
  destruct (loadCachedCRL_scan dir newServer w2 Hcache) as (k & evs2 & Hw & _ & -> & Hq2).
  rewrite !addTrace_app, Hlisten. unfold ret. exists w2, k. eexists.
  split; [exact Hcache|]. split; [reflexivity|]. split; [reflexivity|].
  split; [exact Hw|]. split; [reflexivity|].
  cbn [w_cache w_clock w_reads w_trace addTrace].
  rewrite w_cache_ticks, w_clock_ticks, w_reads_ticks, w_trace_ticks.
  split; [exact Hcache|]. split; [reflexivity|]. split; [reflexivity|].
  subst w2. cbn [w_trace addTrace].
  rewrite !calls_app, !calls_cons, !(calls_quiet _ evs), !(calls_quiet _ evs2) by done.
  split; repeat case_decide; try discriminate; try congruence;
    change (calls _ []) with 0%nat; lia.
Qed.

(** X6 (a restart serves what the directory holds).  Let the cache
    directory hold a pair with payload [crlBytes]; let the credentials load
    and the listener come up; let every reading of the clock from the start
    of [main] to the first check of the first request find the pair fresh,
    and let no other pair that qualifies at a reading of the recovery have a
    number as great.  Then [main] comes to serve with these bytes as its
    artifact, whatever they are: nothing decodes or verifies them.  And the
    first request is answered 200 with these bytes, without a call of the
    encoding primitive; the credential loader was called once, by [main]. *)
Theorem restart_serves_recovered `{X509} `{Host} w dir name n t crlBytes r :
  os_MkdirAll w = (None, w) ->
  (forall w', http_ListenAndServe w' = (None, w')) ->
  is_ok (loadCertAndKey w).1 = true ->
  w_cache w = Some dir ->
  paired dir name n t ->
  dir !! name = Some (File crlBytes) ->
  (forall i, (w_reads w <= i <= w_reads (main w).2)%nat ->
     time.Sub (w_clock w i) t < cacheDuration) ->
  (forall name' n' t' i,
     (w_reads w <= i < w_reads (main w).2)%nat ->
     qualifies dir (w_clock w i) name' n' t' -> name' <> name -> n' < n) ->
  exists w1 w2,
    main w = (Serving (mkCRLServer (Some crlBytes) t (Some n)), w1)
    /\ handleCRL (mkCRLServer (Some crlBytes) t (Some n)) http.newResponseWriter r w1
       = (mkCRLServer (Some crlBytes) t (Some n),
          http.mkResponseWriter crlHeader (Some 200) crlHeader crlBytes, w2)
    /\ calls EvLoadCertAndKey (w_trace w2) = S (calls EvLoadCertAndKey (w_trace w))
    /\ calls EvCreateRevocationList (w_trace w2) = calls EvCreateRevocationList (w_trace w).
Proof.
  intros Hmk Hlisten Hcreds Hcache Hp Hfile Hfresh Hothers.
  rewrite loadCertAndKey_result in Hcreds.
  destruct (main_serving w dir Hmk Hlisten Hcreds Hcache)
    as (w2 & k & w1 & Hcache2 & Hclock2 & Hreads2 & Hw & Hmain & Hcache1 & Hclock1
        & Hreads1 & Hl & Hc).
  rewrite Hmain in Hfresh, Hothers. cbn [snd] in Hfresh, Hothers. rewrite Hreads1 in *.
  destruct (recovery_scan dir (listing dir) w2 Hcache2 (reflexivity _))
    as (_ & Horigin & Hbound).
  rewrite Hw, w_reads_ticks, Hclock2, Hreads2 in Horigin, Hbound.
  destruct (Hbound _ _ _ Hp) as (nb & Hnb & Hle).
  { intros i Hi. apply Hfresh. lia. }
  destruct Horigin as [Heq|(best & nb' & tb & i & Heq & Hi & Hqb)];
    [by rewrite Heq in Hnb|].
  rewrite Heq in Hnb, Hmain. cbn [latestNumber] in Hnb. injection Hnb as ->.
  assert (best = name) as ->.
  { destruct (decide (best = name)) as [|Hne]; [done|].
    pose proof (Hothers best nb tb i Hi Hqb Hne). lia. }
  destruct Hqb as [Hpb _].
  destruct (paired_functional _ _ _ _ _ _ Hpb Hp) as [-> ->].
  unfold restored in Hmain. cbn [latestFile latestTime latestNumber] in Hmain.
  rewrite Hfile in Hmain.
  set (s := mkCRLServer (Some crlBytes) t (Some n)) in *.
  assert (Hget : getCRL s w1 = (Ok crlBytes, s, tick w1)).
  { rewrite getCRL_run. cbn [cachedCRL s].
    replace (staleAt s (w_clock w1 (w_reads w1))) with false; [reflexivity|].
    symmetry. unfold staleAt. cbn [cachedCRL cacheTime s].
    rewrite Hclock1, Hreads1. apply negb_false_iff, Z.ltb_lt. apply Hfresh. lia. }
  exists w1, (tick w1). split; [exact Hmain|]. split; [|by split].
  unfold handleCRL, bind. rewrite Hget. reflexivity.
Qed.

Lemma restart_serves_recovered_witness :
  exists w1 w2,
    @main toyX509 toyHost
      (toyWorld (Content [x01] None) (Content [x08; x02] None) NotExist (Some twoPairs)
                (1700000100 * time.Second))
    = (Serving (mkCRLServer (Some [x01]) (time.Unix 1700000000) (Some 100)), w1)
    /\ @handleCRL toyX509 (mkCRLServer (Some [x01]) (time.Unix 1700000000) (Some 100))
         http.newResponseWriter (http.mkRequest "GET" "/") w1
       = (mkCRLServer (Some [x01]) (time.Unix 1700000000) (Some 100),
          http.mkResponseWriter crlHeader (Some 200) crlHeader [x01], w2)
    /\ calls EvLoadCertAndKey (w_trace w2) = 1%nat
    /\ calls EvCreateRevocationList (w_trace w2) = 0%nat.
Proof.
  apply (@restart_serves_recovered toyX509 toyHost
           (toyWorld (Content [x01] None) (Content [x08; x02] None) NotExist (Some twoPairs)
                     (1700000100 * time.Second))
           twoPairs "crl-100.der" 100 (time.Unix 1700000000)
           [x01] (http.mkRequest "GET" "/")).
  - reflexivity.
  - reflexivity.
  - reflexivity.
  - reflexivity.
  - apply paired_pairOf. split; [vm_compute; reflexivity|].
    rewrite twoPairs_listing. set_solver.
  - reflexivity.
  - intros i _. vm_compute. reflexivity.
  - intros name' n' t' i _ [[Hc Hin]%paired_pairOf Hf] Hne. exfalso.
    rewrite twoPairs_listing in Hin.
    repeat (apply elem_of_cons in Hin as [Hin|Hin]);
      try (injection Hin as ->); try (by apply elem_of_nil in Hin);
      first [exact (Hne eq_refl)
            | vm_compute in Hc; discriminate
            | vm_compute in Hc; injection Hc as <- <-; vm_compute in Hf; discriminate].
Defined.

(** ** Recovery only reads *)

(** The loop of the recovery reads the clock, once for an entry at most,
    and what it holds at its end it held at its start or took from an entry
    that is not a directory. *)
Lemma recoverLoop_reads entries : forall latest w,
  exists k,
    (recoverLoop entries latest w).2 = Nat.iter k tick w
    /\ (k <= length entries)%nat
    /\ ((recoverLoop entries latest w).1 = latest
        \/ exists name number t,
             (name, false) ∈ entries
             /\ (recoverLoop entries latest w).1 = mkLatest (Some number) t (Some name)).
Proof.
  induction entries as [|[name d] rest IH]; intros latest w.
  - exists 0%nat. split; [reflexivity|]. split; [reflexivity|]. by left.
  - assert (Hskip : exists k,
              (recoverLoop rest latest w).2 = Nat.iter k tick w
              /\ (k <= length ((name, d) :: rest))%nat
              /\ ((recoverLoop rest latest w).1 = latest
                  \/ exists name' number t,
                       (name', false) ∈ (name, d) :: rest
                       /\ (recoverLoop rest latest w).1
                          = mkLatest (Some number) t (Some name'))).
    { destruct (IH latest w) as (k & Hw & Hk & Hl). exists k.
      split; [exact Hw|]. split; [apply le_S; exact Hk|].
      destruct Hl as [Hl|(name' & number & t & Hin & Hl)]; [by left|].
      right. exists name', number, t. split; [by apply elem_of_cons; right | exact Hl]. }
    cbn [recoverLoop].
    destruct d; [exact Hskip|].
    destruct (negb _ || negb _); [exact Hskip|].
    set (numberStr := strings.TrimSuffix _ _).
    destruct (big.SetString numberStr 10) as [number|]; [|exact Hskip].
    destruct (isLater number latest); [|exact Hskip].
    unfold bind, os_ReadFile.
    destruct (w_cache w) as [dir|]; [|exact Hskip].
    destruct (dir !! _) as [[metaContent| |]|]; try exact Hskip.
    destruct (strconv.ParseInt _) as [ts|]; [|exact Hskip].
    unfold time_Since, bind, time_Now, ret.
    destruct (time.Sub _ _ <? cacheDuration).
    + destruct (IH (mkLatest (Some number) (time.Unix ts) (Some name)) (tick w))
        as (k & Hw & Hk & Hl).
      exists (S k). rewrite Hw, Nat.iter_succ_r. split; [reflexivity|].
      split; [apply le_n_S; exact Hk|]. right.
      destruct Hl as [Hl|(name' & number' & t & Hin & Hl)].
      * exists name, number, (time.Unix ts). split; [by apply elem_of_cons; left | exact Hl].
      * exists name', number', t. split; [by apply elem_of_cons; right | exact Hl].
    + destruct (IH latest (tick w)) as (k & Hw & Hk & Hl).
      exists (S k). rewrite Hw, Nat.iter_succ_r. split; [reflexivity|].
      split; [apply le_n_S; exact Hk|].
      destruct Hl as [Hl|(name' & number' & t & Hin & Hl)]; [by left|].
      right. exists name', number', t. split; [by apply elem_of_cons; right | exact Hl].
Qed.

(** X7 (recovery only reads).  Whatever the directory holds and whatever
    the clock shows, [loadCachedCRL] leaves the files and the cache directory
    as they are, draws no entropy and calls no collaborator: the world after
    it is the world before it with some readings of the clock taken, one for
    a directory entry at most, and one line added to the log when an artifact
    is installed.  The artifact installed is the content of a file of the
    directory, as it is: it is not decoded, and no signature is checked.
    When the directory cannot be listed the server is left as it was. *)
Theorem recovery_only_reads s w :
  exists k evs,
    (loadCachedCRL s w).2 = addTrace (Nat.iter k tick w) evs
    /\ (forall dir, w_cache w = Some dir -> (k <= size dir)%nat)
    /\ (((loadCachedCRL s w).1 = s /\ evs = [])
        \/ exists dir name crlBytes number t,
             w_cache w = Some dir
             /\ dir !! name = Some (File crlBytes)
             /\ (loadCachedCRL s w).1 = mkCRLServer (Some crlBytes) t (Some number)
             /\ evs = [EvLog ("Loaded cached CRL with number " +:+ strconv.FormatInt number)])
    /\ (w_cache w = None -> (loadCachedCRL s w).1 = s).
Proof.
  unfold loadCachedCRL, bind, os_ReadDir.
  destruct (w_cache w) as [dir|] eqn:Hcache.
  2:{ exists 0%nat, []. rewrite addTrace_nil. split; [reflexivity|].
      split; [done|]. split; [by left | done]. }
  destruct (recoverLoop_reads (listing dir) (mkLatest None zeroTime None) w)
    as (k & Hw & Hk & Hl).
  destruct (recoverLoop (listing dir) (mkLatest None zeroTime None) w) as [latest w1].
  cbn [fst snd] in *. subst w1. exists k.
  assert (Hsize : forall dir', Some dir = Some dir' -> (k <= size dir')%nat).
  { intros dir' [= <-]. etrans; [exact Hk|]. unfold listing.
    rewrite merge_sort_Permutation, length_fmap, length_map_to_list. done. }
  destruct Hl as [->|(name & number & t & Hin & ->)]; cbn [latestFile latestNumber latestTime].
  { exists []. rewrite addTrace_nil. split; [reflexivity|].
    split; [exact Hsize|]. split; [by left | done]. }
  unfold os_ReadFile. rewrite w_cache_ticks, Hcache.
  destruct (dir !! name) as [[crlBytes| |]|] eqn:Hname;
    try (exists []; rewrite addTrace_nil; split; [reflexivity|];
         split; [exact Hsize|]; split; [by left | done]).
  unfold log, emit, ret. eexists. split; [reflexivity|].
  split; [exact Hsize|]. split; [|done].
  right. by exists dir, name, crlBytes, number, t.
Qed.

(** ** The lines of a registry *)

(** A line that fits the buffer is yielded as a token. *)
Lemma scan_line line : forall rest cur n readErr,
  noLineFeed line = true ->
  n + Z.of_nat (length line) < bufio.MaxScanTokenSize ->
  bufio.scan (line ++ x0a :: rest) cur n readErr
  = (bufio.token (rev line ++ cur) :: (bufio.scan rest [] 0 readErr).1,
     (bufio.scan rest [] 0 readErr).2).
Proof.
  induction line as [|b line IH]; intros rest cur n readErr Hnl Hlen.
  - cbn [app bufio.scan rev]. change (Byte.eqb x0a x0a) with true. cbv iota.
    by destruct (bufio.scan rest [] 0 readErr).
  - simpl in Hnl. apply andb_prop in Hnl as [Hb Hnl]. apply negb_true_iff in Hb.
    rewrite length_cons in Hlen.
    cbn [app bufio.scan]. rewrite Hb.
    destruct (Z.leb_spec bufio.MaxScanTokenSize (n + 1)) as [Hfull|_]; [lia|].
    rewrite IH by (done || lia). cbn [rev]. by rewrite <- app_assoc.
Qed.

Lemma ScanLines_joinLines lines : forall readErr,
  Forall (fun l => noLineFeed l = true) lines ->
  Forall fitsBuffer lines ->
  bufio.ScanLines (joinLines [x0a] lines) readErr
  = ((fun l => bufio.token (rev l)) <$> lines, readErr).
Proof.
  unfold bufio.ScanLines.
  induction lines as [|l lines IH]; intros readErr Hnl Hfit; [reflexivity|].
  apply Forall_cons in Hnl as [Hl Hnl]. apply Forall_cons in Hfit as [Hf Hfit].
  unfold joinLines. cbn [fmap list_fmap concat]. rewrite <- app_assoc. cbn [app].
  fold (joinLines [x0a] lines).
  rewrite scan_line by (done || (unfold fitsBuffer in Hf; lia)).
  rewrite IH by done. by rewrite app_nil_r.
Qed.

Lemma joinLines_startsLine eol lines : startsLine (joinLines (eol ++ [x0a]) lines).
Proof.
  induction lines as [|l lines _] using rev_ind; [by left|]. right.
  unfold joinLines. rewrite fmap_app, concat_app. cbn [fmap list_fmap concat].
  rewrite app_nil_r, !app_assoc. by eexists.
Qed.

Lemma joinLines_app eol a b : joinLines eol (a ++ b) = joinLines eol a ++ joinLines eol b.
Proof. unfold joinLines. by rewrite fmap_app, concat_app. Qed.

(** A registry loads when its lines fit the buffer of the scanner, and
    only then. *)
Lemma joinLines_loads w lines :
  Forall (fun l => noLineFeed l = true) lines ->
  (is_ok (loadRevokedCertificates (withList w (Content (joinLines [x0a] lines) None))).1 = true
   <-> Forall fitsBuffer lines)
  /\ (Forall fitsBuffer lines ->
      (loadRevokedCertificates (withList w (Content (joinLines [x0a] lines) None))).1
      = Ok (RegistrySpec.entries ((fun l => bufio.token (rev l)) <$> lines))).
Proof.
  intros Hnl. rewrite loadRevokedCertificates_result. cbn [w_list withList].
  assert (Hok : Forall fitsBuffer lines ->
            registryResult (Content (joinLines [x0a] lines) None)
            = Ok (RegistrySpec.entries ((fun l => bufio.token (rev l)) <$> lines))).
  { intros Hfit. unfold registryResult. by rewrite ScanLines_joinLines. }
  split; [|exact Hok]. split.
  - intros Hload.
    destruct (decide (Forall fitsBuffer lines)) as [|Hlong]; [done|]. exfalso.
    apply not_Forall_Exists in Hlong; [|intros l; unfold fitsBuffer; apply _].
    apply Exists_exists in Hlong as (l & Hin & Hl).
    apply list_elem_of_split in Hin as (before & after & ->).
    apply Forall_app in Hnl as [_ Hnl]. apply Forall_cons in Hnl as [Hnl _].
    rewrite joinLines_app in Hload. unfold joinLines at 2 in Hload.
    cbn [fmap list_fmap concat] in Hload. rewrite <- app_assoc in Hload.
    unfold registryResult in Hload.
    match type of Hload with
    | context [bufio.ScanLines ?d None] =>
        assert (Hscan : (bufio.ScanLines d None).2 = Some bufio.ErrTooLong)
    end.
    { apply (ScanLines_long (joinLines [x0a] before) l
               ([x0a] ++ concat ((fun line => line ++ [x0a]) <$> after))
               (joinLines_startsLine [] before) Hnl).
      unfold fitsBuffer, compose in Hl. lia. }
    destruct (bufio.ScanLines _ None) as [toks scanErr]. simpl in Hscan. by subst.
  - intros Hfit. by rewrite Hok.
Qed.

(** X8 (the length of a line is all that fails a load).  A registry that
    can be read to its end loads if and only if each of its lines has fewer
    than [MaxScanTokenSize] bytes, 65536, before its line feed - white space
    and a carriage return count.  Nothing a line holds makes the load fail:
    when the lines fit, the load returns the entries of the lines. *)
Theorem registry_loads_iff w lines :
  Forall (fun l => noLineFeed l = true) lines ->
  (is_ok (loadRevokedCertificates (withList w (Content (joinLines [x0a] lines) None))).1 = true
   <-> Forall fitsBuffer lines)
  /\ (Forall fitsBuffer lines ->
      (loadRevokedCertificates (withList w (Content (joinLines [x0a] lines) None))).1
      = Ok (RegistrySpec.entries ((fun l => bufio.token (rev l)) <$> lines))).
Proof. exact (joinLines_loads w lines). Qed.

Lemma registry_loads_iff_witness :
  (loadRevokedCertificates
     (withList (toyWorld NotExist NotExist NotExist None 0)
        (Content (joinLines [x0a] [list_byte_of_string "1A2B:1700000000:1";
                                   list_byte_of_string "  ";
                                   list_byte_of_string "1A2C:1700000001:4"]) None))).1
  = Ok (RegistrySpec.entries ["1A2B:1700000000:1"; "  "; "1A2C:1700000001:4"]).
Proof.
  destruct (registry_loads_iff (toyWorld NotExist NotExist NotExist None 0)
              [list_byte_of_string "1A2B:1700000000:1";
               list_byte_of_string "  ";
               list_byte_of_string "1A2C:1700000001:4"]) as [_ Hload].
  - repeat constructor.
  - apply Hload. repeat constructor.
Defined.

(** ** Line endings *)

Lemma string_of_list_byte_app a b :
  string_of_list_byte (a ++ b) = string_of_list_byte a +:+ string_of_list_byte b.
Proof.
  induction a as [|x a IH]; [reflexivity|].
  unfold string_of_list_byte in *. cbn [app map string_of_list_ascii]. by rewrite IH.
Qed.

(** The token of a line, trimmed, is the line, trimmed: the carriage return
    the scanner drops is white space. *)
Lemma TrimSpace_token l :
  strings.TrimSpace (bufio.token (rev l)) = strings.TrimSpace (string_of_list_byte l).
Proof.
  unfold bufio.token. destruct (rev l) as [|b cur] eqn:Hrev.
  - apply (f_equal (@rev byte)) in Hrev. rewrite rev_involutive in Hrev. by subst.
  - apply (f_equal (@rev byte)) in Hrev. rewrite rev_involutive in Hrev. subst l.
    assert (Hcr : forall x, x = x0d ->
              strings.TrimSpace (string_of_list_byte (rev cur))
              = strings.TrimSpace (string_of_list_byte (rev (x :: cur)))).
    { intros x ->. cbn [rev]. rewrite string_of_list_byte_app.
      symmetry. by apply TrimSpace_app_space. }
    destruct b; try reflexivity. by apply Hcr.
Qed.

(** The loop looks at a line through [TrimSpace] only. *)
Lemma scanLoop_trim lines lines' :
  Forall2 (fun a b => strings.TrimSpace a = strings.TrimSpace b) lines lines' ->
  forall lineNum revokedCerts,
    scanLoop lines lineNum revokedCerts = scanLoop lines' lineNum revokedCerts.
Proof.
  induction 1 as [|a b lines lines' Hab _ IH]; intros lineNum revokedCerts; [reflexivity|].
  cbn [scanLoop]. cbv zeta. rewrite Hab.
  destruct (_ || _); [apply IH|].
  destruct (strings.Split _ _) as [|p0 [|p1 [|p2 [|p3 ps]]]]; try by rewrite IH.
  destruct (big.SetString p0 16); [|by rewrite IH].
  destruct (strconv.ParseInt p1); [|by rewrite IH].
  destruct (strconv.Atoi p2); by rewrite IH.
Qed.

Lemma scanLoop_blank lines : forall lineNum revokedCerts,
  scanLoop (lines ++ [""]) lineNum revokedCerts = scanLoop lines lineNum revokedCerts.
Proof.
  induction lines as [|a lines IH]; intros lineNum revokedCerts; [reflexivity|].
  cbn [app scanLoop]. cbv zeta.
  destruct (_ || _); [apply IH|].
  destruct (strings.Split _ _) as [|p0 [|p1 [|p2 [|p3 ps]]]]; try by rewrite IH.
  destruct (big.SetString p0 16); [|by rewrite IH].
  destruct (strconv.ParseInt p1); [|by rewrite IH].
  destruct (strconv.Atoi p2); by rewrite IH.
Qed.

(** A line feed more at the end of the input adds an empty line at most. *)
Lemma scan_final_line_feed data : forall cur n readErr,
  bufio.scan (data ++ [x0a]) cur n readErr = bufio.scan data cur n readErr
  \/ bufio.scan (data ++ [x0a]) cur n readErr
     = ((bufio.scan data cur n readErr).1 ++ [""], (bufio.scan data cur n readErr).2).
Proof.
  induction data as [|b data IH]; intros cur n readErr.
  - cbn [app bufio.scan]. change (Byte.eqb x0a x0a) with true. cbv iota.
    destruct cur as [|c cur]; [by right | by left].
  - cbn [app bufio.scan]. destruct (Byte.eqb b x0a).
    + destruct (IH [] 0 readErr) as [->| ->]; [by left|]. right.
      by destruct (bufio.scan data [] 0 readErr).
    + destruct (bufio.MaxScanTokenSize <=? n + 1); [by left | apply IH].
Qed.

(** The loop reads nothing of the world: it only adds to the log. *)
Lemma scanLoop_withList lines src : forall lineNum revokedCerts w,
  scanLoop lines lineNum revokedCerts (withList w src)
  = ((scanLoop lines lineNum revokedCerts w).1,
     withList (scanLoop lines lineNum revokedCerts w).2 src).
Proof.
  induction lines as [|a lines IH]; intros lineNum revokedCerts w; [reflexivity|].
  cbn [scanLoop]. cbv zeta.
  destruct (_ || _); [apply IH|].
  assert (Hlog : forall msg,
            (log msg ;;; scanLoop lines (lineNum + 1) revokedCerts) (withList w src)
            = (((log msg ;;; scanLoop lines (lineNum + 1) revokedCerts) w).1,
               withList ((log msg ;;; scanLoop lines (lineNum + 1) revokedCerts) w).2 src)).
  { intros msg. unfold bind, log, emit.
    change (addTrace (withList w src) [EvLog msg])
      with (withList (addTrace w [EvLog msg]) src). apply IH. }
  destruct (strings.Split _ _) as [|p0 [|p1 [|p2 [|p3 ps]]]]; try apply Hlog.
  destruct (big.SetString p0 16); [|apply Hlog].
  destruct (strconv.ParseInt p1); [|apply Hlog].
  destruct (strconv.Atoi p2); [apply IH | apply Hlog].
Qed.

(** X9 (line endings).  The registry may end its lines with a carriage
    return and a line feed, provided each line with its carriage return fits
    the buffer of the scanner, and may leave out the line feed of its last
    line.  The loader then returns the same result and logs the same
    warnings as for the registry with the same lines ended by a line feed
    each.  The carriage return counts against the buffer: when the lines fit
    without it and one of them does not fit with it - a line of 65535
    bytes - the registry loads with line feeds and fails with carriage
    returns and line feeds. *)
Theorem registry_line_endings w :
  (forall lines readErr,
     Forall (fun l => noLineFeed l = true) lines ->
     Forall (fun l => fitsBuffer (l ++ [x0d])) lines ->
     let crlf := loadRevokedCertificates
                   (withList w (Content (joinLines [x0d; x0a] lines) readErr)) in
     let lf := loadRevokedCertificates
                 (withList w (Content (joinLines [x0a] lines) readErr)) in
     crlf.1 = lf.1 /\ w_trace crlf.2 = w_trace lf.2)
  /\ (forall data readErr,
        let without := loadRevokedCertificates (withList w (Content data readErr)) in
        let with_ := loadRevokedCertificates
                       (withList w (Content (data ++ [x0a]) readErr)) in
        with_.1 = without.1 /\ w_trace with_.2 = w_trace without.2)
  /\ (forall lines,
        Forall (fun l => noLineFeed l = true) lines ->
        Forall fitsBuffer lines ->
        ~ Forall (fun l => fitsBuffer (l ++ [x0d])) lines ->
        is_ok (loadRevokedCertificates
                 (withList w (Content (joinLines [x0a] lines) None))).1 = true
        /\ is_ok (loadRevokedCertificates
                    (withList w (Content (joinLines [x0d; x0a] lines) None))).1 = false).
Proof.
  assert (Hcrlf : forall lines,
            joinLines [x0d; x0a] lines
            = joinLines [x0a] ((fun l => l ++ [x0d]) <$> lines)).
  { intros lines. unfold joinLines. rewrite <- list_fmap_compose. f_equal.
    apply list_fmap_ext. intros _ l _. cbn. by rewrite <- app_assoc. }
  assert (Hcr : forall lines,
            Forall (fun l => noLineFeed l = true) lines ->
            Forall (fun l => noLineFeed l = true) ((fun l => l ++ [x0d]) <$> lines)).
  { intros lines Hnl. apply Forall_fmap. eapply Forall_impl; [exact Hnl|]. intros l Hl. cbn.
    unfold noLineFeed in *. rewrite forallb_app, Hl. reflexivity. }
  split; [|split].
  - intros lines readErr Hnl Hfit crlf lf. subst crlf lf.
    unfold loadRevokedCertificates. cbn [w_list withList].
    assert (Hlf : Forall fitsBuffer lines).
    { eapply Forall_impl; [exact Hfit|]. intros l Hl. unfold fitsBuffer in *.
      rewrite length_app in Hl. simpl in Hl. lia. }
    assert (Hfit' : Forall fitsBuffer ((fun l => l ++ [x0d]) <$> lines)).
    { apply Forall_fmap. exact Hfit. }
    rewrite Hcrlf, (ScanLines_joinLines _ readErr (Hcr lines Hnl) Hfit'),
      (ScanLines_joinLines _ readErr Hnl Hlf).
    rewrite <- list_fmap_compose.
    rewrite (scanLoop_trim _ ((fun l => bufio.token (rev l)) <$> lines)).
    + rewrite !scanLoop_withList.
      destruct (scanLoop _ 0 [] w) as [rcs w']. by destruct readErr.
    + apply Forall2_fmap, Forall_Forall2_diag, Forall_true. intros l. unfold compose.
      rewrite !TrimSpace_token, string_of_list_byte_app.
      by apply TrimSpace_app_space.
  - intros data readErr without with_. subst without with_.
    unfold loadRevokedCertificates, bufio.ScanLines. cbn [w_list withList].
    destruct (scan_final_line_feed data [] 0 readErr) as [->| ->];
      destruct (bufio.scan data [] 0 readErr) as [toks scanErr]; cbn [fst snd];
      rewrite ?scanLoop_blank, !scanLoop_withList;
      destruct (scanLoop toks 0 [] w) as [rcs w']; by destruct scanErr.
  - intros lines Hnl Hfit Hlong.
    destruct (joinLines_loads w lines Hnl) as [Hiff _].
    split; [by apply Hiff|]. rewrite Hcrlf.
    destruct (joinLines_loads w _ (Hcr lines Hnl)) as [Hiff' _].
    apply not_true_is_false. intros Hok%Hiff'. apply Hlong.
    by apply (Forall_fmap (fun l => l ++ [x0d]) fitsBuffer lines).
Qed.

Lemma registry_line_endings_witness :
  (loadRevokedCertificates
     (withList (toyWorld NotExist NotExist NotExist None 0)
        (Content (joinLines [x0d; x0a] [list_byte_of_string "1A2B:1700000000:1";
                                        list_byte_of_string "oops"]) None))).1
  = (loadRevokedCertificates
       (withList (toyWorld NotExist NotExist NotExist None 0)
          (Content (joinLines [x0a] [list_byte_of_string "1A2B:1700000000:1";
                                     list_byte_of_string "oops"]) None))).1.
Proof.
  destruct (registry_line_endings (toyWorld NotExist NotExist NotExist None 0)) as [Hcrlf _].
  apply (Hcrlf [list_byte_of_string "1A2B:1700000000:1"; list_byte_of_string "oops"] None).
  - repeat constructor.
  - repeat constructor.
Defined.

(** ** Appending to the registry *)

(** After complete lines that scan, the scan goes on as from the start. *)
Lemma scan_app head rest : forall cur n readErr,
  (bufio.scan (head ++ [x0a]) cur n None).2 = None ->
  bufio.scan ((head ++ [x0a]) ++ rest) cur n readErr
  = ((bufio.scan (head ++ [x0a]) cur n None).1 ++ (bufio.scan rest [] 0 readErr).1,
     (bufio.scan rest [] 0 readErr).2).
Proof.
  induction head as [|b head IH]; intros cur n readErr.
  - intros _. cbn [app bufio.scan]. change (Byte.eqb x0a x0a) with true. cbv iota.
    by destruct (bufio.scan rest [] 0 readErr).
  - cbn [app bufio.scan]. destruct (Byte.eqb b x0a).
    + intros Hok. rewrite IH.
      * by destruct (bufio.scan (head ++ [x0a]) [] 0 None).
      * by destruct (bufio.scan (head ++ [x0a]) [] 0 None).
    + destruct (bufio.MaxScanTokenSize <=? n + 1); [discriminate | apply IH].
Qed.

(** X10 (appending to the registry).  What is added after the last line
    of a registry that loads adds its entries after those the registry had,
    which stay as they were and in their order; an entry that is there
    already is there twice.  An error in what was added is the error of the
    whole load. *)
Theorem registry_append w head rest readErr revokedCerts :
  (loadRevokedCertificates (withList w (Content (head ++ [x0a]) None))).1 = Ok revokedCerts ->
  (loadRevokedCertificates (withList w (Content ((head ++ [x0a]) ++ rest) readErr))).1
  = match (loadRevokedCertificates (withList w (Content rest readErr))).1 with
    | Ok added => Ok (revokedCerts ++ added)
    | Err e => Err e
    end.
Proof.
  rewrite !loadRevokedCertificates_result. cbn [w_list withList].
  unfold registryResult, bufio.ScanLines. intros Hhead.
  assert (Hok : (bufio.scan (head ++ [x0a]) [] 0 None).2 = None).
  { destruct (bufio.scan (head ++ [x0a]) [] 0 None) as [toks [e|]]; [discriminate|done]. }
  rewrite (scan_app head rest [] 0 readErr Hok).
  destruct (bufio.scan (head ++ [x0a]) [] 0 None) as [toks scanErr].
  simpl in Hok. subst scanErr. injection Hhead as <-.
  destruct (bufio.scan rest [] 0 readErr) as [toks' [e|]]; cbn [fst snd]; [reflexivity|].
  unfold RegistrySpec.entries. by rewrite omap_app.
Qed.

Lemma registry_append_witness :
  (loadRevokedCertificates
     (withList (toyWorld NotExist NotExist NotExist None 0)
        (Content ((list_byte_of_string "1A2B:1700000000:1" ++ [x0a])
                    ++ list_byte_of_string "1A2B:1700000000:1") None))).1
  = Ok ([mkRevokedCert 0x1A2B (time.Unix 1700000000) 1]
          ++ [mkRevokedCert 0x1A2B (time.Unix 1700000000) 1]).
Proof.
  apply (registry_append (toyWorld NotExist NotExist NotExist None 0)
           (list_byte_of_string "1A2B:1700000000:1")
           (list_byte_of_string "1A2B:1700000000:1") None
           [mkRevokedCert 0x1A2B (time.Unix 1700000000) 1]).
  reflexivity.
Defined.

(** ** The warnings of the registry loader *)

Lemma scanLoop_warnings lines : forall lineNum revokedCerts w,
  (scanLoop lines lineNum revokedCerts w).2 = addTrace w (warnings lineNum lines).
Proof.
  induction lines as [|text rest IH]; intros lineNum revokedCerts w.
  - cbn. by rewrite addTrace_nil.
  - cbn [scanLoop warnings]. unfold warningOf. cbv zeta.
    assert (Hlog : forall msg,
              ((log msg ;;; scanLoop rest (lineNum + 1) revokedCerts) w).2
              = addTrace w (option_list (EvLog <$> Some msg) ++ warnings (lineNum + 1) rest)).
    { intros msg. unfold bind, log, emit. rewrite IH, addTrace_app. reflexivity. }
    destruct (_ || _); [apply IH|].
    destruct (strings.Split _ _) as [|p0 [|p1 [|p2 [|p3 ps]]]]; try apply Hlog.
    destruct (big.SetString p0 16); [|apply Hlog].
    destruct (strconv.ParseInt p1); [|apply Hlog].
    destruct (strconv.Atoi p2); [apply IH | apply Hlog].
Qed.

Lemma warnings_app before : forall lineNum after,
  warnings lineNum (before ++ after)
  = warnings lineNum before ++ warnings (lineNum + Z.of_nat (length before)) after.
Proof.
  induction before as [|text before IH]; intros lineNum after.
  - cbn [app warnings length]. by rewrite Z.add_0_r.
  - cbn [app warnings]. rewrite IH, <- app_assoc. do 3 f_equal.
    rewrite length_cons. lia.
Qed.

Lemma warningOf_reported lineNum text :
  is_Some (warningOf lineNum text) <-> RegistrySpec.isReported text = true.
Proof.
  unfold warningOf, RegistrySpec.isReported, RegistrySpec.classify. cbv zeta.
  rewrite skip_tests. destruct (_ || _); [by split; [intros [? ?]|]|].
  unfold RegistrySpec.entry.
  destruct (strings.Split _ _) as [|p0 [|p1 [|p2 [|p3 ps]]]];
    try (split; [done | by eexists]).
  destruct (big.SetString p0 16); [|by split; [|eexists]].
  destruct (strconv.ParseInt p1); [|by split; [|eexists]].
  destruct (strconv.Atoi p2); [by split; [intros [? ?]|] | by split; [|eexists]].
Qed.

(** X11 (the warnings number the lines).  The warnings of a load are those
    of its lines, in the order of the lines, and each carries the number of
    its line: lines are counted from one, and blank lines and comments
    count.  A line is warned about exactly when it is reported, and its
    warning names what is wrong: the format of the line, or the field that
    does not parse. *)
Theorem warnings_number_lines :
  (forall w data readErr,
     w_trace (loadRevokedCertificates (withList w (Content data readErr))).2
     = w_trace w ++ warnings 0 (bufio.ScanLines data readErr).1)
  /\ (forall before text after,
        warnings 0 (before ++ text :: after)
        = warnings 0 before
            ++ option_list (EvLog <$> warningOf (Z.of_nat (length before) + 1) text)
            ++ warnings (Z.of_nat (length before) + 1) after)
  /\ (forall lineNum text,
        is_Some (warningOf lineNum text) <-> RegistrySpec.isReported text = true)
  /\ (forall lineNum text msg,
        warningOf lineNum text = Some msg ->
        exists what field,
          msg = "Warning: invalid " +:+ what +:+ " at line "
                  +:+ strconv.FormatInt lineNum +:+ ": " +:+ field
          /\ (what = "format" /\ field = strings.TrimSpace text
              \/ what ∈ ["serial number"; "epoch"; "reason code"]
                 /\ field ∈ strings.Split (strings.TrimSpace text) ":")).
Proof.
  split; [|split; [|split]].
  - intros w data readErr. unfold loadRevokedCertificates. cbn [w_list withList].
    destruct (bufio.ScanLines data readErr) as [lines scanErr]. cbn [fst].
    pose proof (scanLoop_warnings lines 0 [] (withList w (Content data readErr))) as Hw.
    destruct (scanLoop lines 0 [] _) as [rcs w']. cbn [snd] in Hw. subst w'.
    by destruct scanErr.
  - intros before text after. rewrite warnings_app. cbn [warnings]. by rewrite Z.add_0_l.
  - apply warningOf_reported.
  - intros lineNum text msg. unfold warningOf. cbv zeta.
    destruct (_ || _); [done|].
    destruct (strings.Split _ _) as [|p0 [|p1 [|p2 [|p3 ps]]]] eqn:Hsplit;
      try (intros [= <-]; exists "format", (strings.TrimSpace text); split; [done | by left]).
    destruct (big.SetString p0 16).
    2:{ intros [= <-]. exists "serial number", p0. split; [done|]. right. set_solver. }
    destruct (strconv.ParseInt p1).
    2:{ intros [= <-]. exists "epoch", p1. split; [done|]. right. set_solver. }
    destruct (strconv.Atoi p2); [done|].
    intros [= <-]. exists "reason code", p2. split; [done|]. right. set_solver.
Qed.

(** ** Values are not checked *)

Lemma digitVal_fieldChar c v : strconv.digitVal c = Some v -> fieldChar c = true.
Proof.
  destruct c as [[] [] [] [] [] [] [] []]; vm_compute; congruence.
Qed.

Lemma digits_allField base s : forall acc v,
  strconv.digits base s acc = Some v -> allField s = true.
Proof.
  induction s as [|c s IH]; intros acc v; [done|]. cbn [strconv.digits allField].
  destruct (strconv.digitVal c) as [d|] eqn:Hd; [|done].
  rewrite (digitVal_fieldChar c d Hd). destruct (d <? base); [|done]. apply IH.
Qed.

Lemma signed_allField base s v :
  strconv.signed base s = Some v -> allField s = true /\ s <> "".
Proof.
  unfold strconv.signed. destruct s as [|c s]; [done|].
  destruct (Ascii.eqb_spec c "+") as [->|_].
  { destruct s; [done|]. intros Hd%digits_allField. split; [exact Hd|done]. }
  destruct (Ascii.eqb_spec c "-") as [->|_].
  { destruct s; [done|].
    destruct (strconv.digits base _ 0) eqn:Hd; [|done].
    apply digits_allField in Hd. intros _. split; [exact Hd|done]. }
  intros Hd%digits_allField. split; [exact Hd|done].
Qed.

Lemma FormatInt_allField n : allField (strconv.FormatInt n) = true.
Proof. by destruct (signed_allField 10 _ n (signed_FormatInt n)). Qed.

Lemma Split_field a rest :
  allField a = true ->
  strings.Split (a +:+ String ":" rest) ":" = a :: strings.Split rest ":".
Proof.
  induction a as [|c a IH]; [reflexivity|].
  cbn [allField]. intros [Hc Ha]%andb_prop.
  rewrite append_cons. cbn [strings.Split].
  unfold fieldChar in Hc. apply andb_prop in Hc as [[_ Hc]%andb_prop _].
  apply negb_true_iff in Hc. rewrite Hc, (IH Ha). reflexivity.
Qed.

Lemma Split_single a : allField a = true -> strings.Split a ":" = [a].
Proof.
  induction a as [|c a IH]; [reflexivity|].
  cbn [allField]. intros [Hc Ha]%andb_prop. cbn [strings.Split].
  unfold fieldChar in Hc. apply andb_prop in Hc as [[_ Hc]%andb_prop _].
  apply negb_true_iff in Hc. rewrite Hc, (IH Ha). reflexivity.
Qed.

Lemma isPlain_isSpace c : isPlain c = true -> strings.isSpace c = false.
Proof. unfold isPlain. by intros [?%negb_true_iff _]%andb_prop. Qed.

Lemma allField_noSpace s : allField s = true -> noSpace s = true.
Proof.
  induction s as [|c s IH]; [done|]. cbn [allField noSpace].
  intros [Hc Hs]%andb_prop. rewrite (IH Hs).
  unfold fieldChar in Hc. apply andb_prop in Hc as [[-> _]%andb_prop _]. reflexivity.
Qed.

Lemma noSpace_app a b : noSpace (a +:+ b) = noSpace a && noSpace b.
Proof.
  induction a as [|c a IH]; [reflexivity|].
  rewrite append_cons. cbn [noSpace]. by rewrite IH, andb_assoc.
Qed.

(** The line written for a serial number that parses and for an epoch and
    a reason in the range of [int64] is accepted, with these values. *)
Lemma accepted_formatLine serialText serial epoch reason :
  big.SetString serialText 16 = Some serial ->
  strconv.minInt64 <= epoch <= strconv.maxInt64 ->
  strconv.minInt64 <= reason <= strconv.maxInt64 ->
  noSpace (formatLine serialText epoch reason) = true
  /\ RegistrySpec.accepted (formatLine serialText epoch reason)
     = Some (mkRevokedCert serial (time.Unix epoch) reason).
Proof.
  intros Hserial Hepoch Hreason.
  destruct (signed_allField 16 serialText serial Hserial) as [Hf Hne].
  assert (Hns : noSpace (formatLine serialText epoch reason) = true).
  { unfold formatLine.
    rewrite !noSpace_app, (allField_noSpace _ Hf), !FormatInt_noSpace. reflexivity. }
  split; [exact Hns|].
  unfold RegistrySpec.accepted, RegistrySpec.classify.
  rewrite <- skip_tests, (TrimSpace_noSpace _ Hns).
  replace (String.eqb (formatLine serialText epoch reason) ""
           || strings.HasPrefix (formatLine serialText epoch reason) "#") with false.
  2:{ unfold formatLine. destruct serialText as [|c s]; [done|].
      rewrite append_cons. cbn [allField] in Hf. apply andb_prop in Hf as [Hc _].
      unfold fieldChar in Hc. apply andb_prop in Hc as [_ Hc]. apply negb_true_iff in Hc.
      cbn -[Ascii.eqb]. rewrite Ascii.eqb_sym, Hc. reflexivity. }
  unfold RegistrySpec.entry. rewrite (TrimSpace_noSpace _ Hns).
  unfold formatLine.
  change (serialText +:+ ":" +:+ strconv.FormatInt epoch +:+ ":" +:+ strconv.FormatInt reason)
    with (serialText +:+ String ":" (strconv.FormatInt epoch
                                       +:+ String ":" (strconv.FormatInt reason))).
  rewrite (Split_field _ _ Hf), (Split_field _ _ (FormatInt_allField epoch)),
    (Split_single _ (FormatInt_allField reason)).
  rewrite Hserial, (ParseInt_FormatInt _ Hepoch).
  unfold strconv.Atoi. rewrite (ParseInt_FormatInt _ Hreason). reflexivity.
Qed.

Lemma accepted_trim a b :
  strings.TrimSpace a = strings.TrimSpace b ->
  RegistrySpec.accepted a = RegistrySpec.accepted b.
Proof.
  intros Hab. unfold RegistrySpec.accepted, RegistrySpec.classify, RegistrySpec.entry.
  by rewrite <- !skip_tests, Hab.
Qed.

Lemma isReported_trim a b :
  strings.TrimSpace a = strings.TrimSpace b ->
  RegistrySpec.isReported a = RegistrySpec.isReported b.
Proof.
  intros Hab. unfold RegistrySpec.isReported, RegistrySpec.classify, RegistrySpec.entry.
  by rewrite <- !skip_tests, Hab.
Qed.

Lemma byte_line_feed c :
  strings.isSpace c = false -> Byte.eqb (byte_of_ascii c) x0a = false.
Proof.
  destruct c as [[] [] [] [] [] [] [] []]; vm_compute; congruence.
Qed.

Lemma noSpace_noLineFeed s : noSpace s = true -> noLineFeed (list_byte_of_string s) = true.
Proof.
  induction s as [|c s IH]; [done|]. cbn [noSpace].
  intros [Hc%isPlain_isSpace Hs]%andb_prop.
  change (list_byte_of_string (String c s)) with (byte_of_ascii c :: list_byte_of_string s).
  cbn [noLineFeed forallb]. rewrite (byte_line_feed c Hc).
  exact (IH Hs).
Qed.

(** X12 (values are not checked).  Nothing but their syntax and the range
    of [int64] is checked of the values of a line.  A line that holds a
    serial number [big.Int] reads in base 16, then the decimal text of an
    epoch and of a reason that fit [int64], and that fits the buffer of the
    scanner, is accepted as it stands: a serial number that is zero or
    negative, an epoch before 1970 or far ahead, a reason that is no reason
    code of a CRL.  The load gives this entry and logs no warning; the
    revocation time shows the epoch of the line. *)
Theorem registry_values_unchecked w serialText serial epoch reason :
  big.SetString serialText 16 = Some serial ->
  strconv.minInt64 <= epoch <= strconv.maxInt64 ->
  strconv.minInt64 <= reason <= strconv.maxInt64 ->
  fitsBuffer (list_byte_of_string (formatLine serialText epoch reason)) ->
  let w0 := withList w (Content (list_byte_of_string (formatLine serialText epoch reason)
                                   ++ [x0a]) None) in
  loadRevokedCertificates w0 = (Ok [mkRevokedCert serial (time.Unix epoch) reason], w0)
  /\ time.ToUnix (time.Unix epoch) = epoch.
Proof.
  intros Hserial Hepoch Hreason Hfit w0. split; [|by apply ToUnix_Unix].
  destruct (accepted_formatLine serialText serial epoch reason Hserial Hepoch Hreason)
    as [Hns Hacc].
  set (line := formatLine serialText epoch reason) in *.
  assert (Hscan : bufio.ScanLines (list_byte_of_string line ++ [x0a]) None
                  = ([bufio.token (rev (list_byte_of_string line))], None)).
  { pose proof (ScanLines_joinLines [list_byte_of_string line] None) as Hjoin.
    unfold joinLines in Hjoin. cbn [fmap list_fmap concat] in Hjoin.
    rewrite app_nil_r in Hjoin. apply Hjoin.
    - constructor; [by apply noSpace_noLineFeed | constructor].
    - constructor; [exact Hfit | constructor]. }
  assert (Htrim : strings.TrimSpace (bufio.token (rev (list_byte_of_string line)))
                  = strings.TrimSpace line).
  { by rewrite TrimSpace_token, string_of_list_byte_of_string. }
  unfold loadRevokedCertificates. subst w0. cbn [w_list withList]. rewrite Hscan.
  destruct (scanLoop_spec [bufio.token (rev (list_byte_of_string line))] 0 []
              (withList w (Content (list_byte_of_string line ++ [x0a]) None)))
    as (ws & -> & _ & Hlen).
  unfold RegistrySpec.entries, RegistrySpec.reported in *.
  cbn [omap list_omap List.filter] in *.
  rewrite (accepted_trim _ line Htrim), Hacc.
  rewrite (isReported_trim _ line Htrim) in Hlen.
  unfold RegistrySpec.isReported, RegistrySpec.accepted in *.
  destruct (RegistrySpec.classify line); try discriminate.
  destruct ws; [|discriminate]. by rewrite addTrace_nil.
Qed.

Lemma registry_values_unchecked_witness :
  loadRevokedCertificates
    (withList (toyWorld NotExist NotExist NotExist None 0)
       (Content (list_byte_of_string (formatLine "-0" (-86400) 7) ++ [x0a]) None))
  = (Ok [mkRevokedCert 0 (time.Unix (-86400)) 7],
     withList (toyWorld NotExist NotExist NotExist None 0)
       (Content (list_byte_of_string (formatLine "-0" (-86400) 7) ++ [x0a]) None))
  /\ time.ToUnix (time.Unix (-86400)) = -86400.
Proof.
  apply (registry_values_unchecked (toyWorld NotExist NotExist NotExist None 0)
           "-0" 0 (-86400) 7).
  - reflexivity.
  - vm_compute. split; discriminate.
  - vm_compute. split; discriminate.
  - vm_compute. reflexivity.
Defined.

(** ** Concurrent requests on a fresh cache, and on any cache *)

Section HitsProps.

Context `{X509}.

Lemma hitInvariant_step s0 w0 crl sys sys' :
  cachedCRL s0 = Some crl ->
  freshThroughout s0 w0 ->
  hitInvariant s0 w0 crl sys -> sysStep sys sys' -> hitInvariant s0 w0 crl sys'.
Proof.
  intros Hcrl Hfresh (Hpcs & Hs & Hw & Hclock & Htrace & Hcache & Hent) Hstep.
  destruct Hstep as [before p after s mu w p' s' mu' w' Hp].
  cbn [threads server mutex world] in *. subst s.
  apply Forall_app in Hpcs as [Hb Hpa]. apply Forall_cons in Hpa as [Hpc Ha].
  assert (Hgoal : hitPc crl p' /\ s' = s0 /\ writer mu' = false
                  /\ w_clock w' = w_clock w0 /\ w_trace w' = w_trace w0
                  /\ w_cache w' = w_cache w0 /\ w_entropy w' = w_entropy w0).
  { destruct p; try done; cbn [threadStep] in Hp.
    - rewrite Hw in Hp. injection Hp as <- <- <- <-. by repeat split.
    - rewrite cacheValid_run, Hcrl, Hclock, Hfresh in Hp.
      injection Hp as <- <- <- <-. by repeat split.
    - injection Hp as <- <- <- <-. rewrite Hcrl. by repeat split. }
  destruct Hgoal as (Hp' & -> & Hw' & Hclock' & Htrace' & Hcache' & Hent').
  split; [|by repeat split].
  apply Forall_app. split; [done|]. by apply Forall_cons.
Qed.

Lemma hitInvariant_reachable N s0 w0 crl sys :
  cachedCRL s0 = Some crl ->
  freshThroughout s0 w0 ->
  rtc sysStep (initial N s0 w0) sys -> hitInvariant s0 w0 crl sys.
Proof.
  intros Hcrl Hfresh Hrtc.
  eapply (rtc_ind_r (fun sys => hitInvariant s0 w0 crl sys)); [| |exact Hrtc].
  - split; [|by repeat split]. cbn [threads initial].
    apply Forall_forall. intros p [-> _]%elem_of_replicate. exact I.
  - intros y z _ Hstep Hy. by eapply hitInvariant_step.
Qed.

Lemma count_done f l :
  (forall r, f (Done r) = false) ->
  Forall (fun p => isDone p = true) l -> count f l = 0%nat.
Proof.
  intros Hf. induction 1 as [|p l Hp _ IH]; [reflexivity|].
  cbn [count]. rewrite IH. destruct p; try discriminate. by rewrite Hf.
Qed.

End HitsProps.

(** X13 (cache hits do not block).  While the cache is fresh, requests do
    not wait for one another.  However the [N] goroutines interleave, each
    one that has not returned can take its next step; none takes the
    exclusive lock, calls a collaborator, writes to the log or to the cache
    directory, or changes the server; and each returns the bytes of the
    cache - also when credentials or registry have changed or have gone
    since the artifact was made. *)
Theorem cache_hits_never_block `{X509} N s0 w0 crl sys :
  cachedCRL s0 = Some crl ->
  freshThroughout s0 w0 ->
  rtc sysStep (initial N s0 w0) sys ->
  noneBlocked sys
  /\ writer (mutex sys) = false
  /\ server sys = s0
  /\ w_trace (world sys) = w_trace w0
  /\ w_cache (world sys) = w_cache w0
  /\ w_entropy (world sys) = w_entropy w0
  /\ (finished sys -> Forall (fun p => p = Done (Ok crl)) (threads sys)).
Proof.
  intros Hcrl Hfresh Hrtc.
  destruct (hitInvariant_reachable N s0 w0 crl sys Hcrl Hfresh Hrtc)
    as (Hpcs & Hs & Hw & Hclock & Htrace & Hcache & Hent).
  split; [|repeat split; try done].
  - intros i p Hi Hnd. unfold stepAt. rewrite Hi.
    eapply Forall_forall in Hpcs; [|by eapply list_elem_of_lookup_2].
    destruct p; try done; cbn [threadStep]; rewrite ?Hw;
      try destruct (cacheValid (server sys) (world sys)); by eexists.
  - intros Hfin. apply Forall_forall. intros p Hp.
    eapply Forall_forall in Hpcs; [|exact Hp].
    eapply Forall_forall in Hfin; [|exact Hp].
    destruct p; try done. simpl in Hpcs. by subst.
Qed.

Lemma cache_hits_never_block_witness :
  Forall (fun p => p = Done (Ok [x01; x02]))
         (threads (@afterSchedule toyX509 [0; 1; 0; 1; 1; 0]%nat (initial 2 freshServer badWorld)))
  /\ w_trace (world (@afterSchedule toyX509 [0; 1; 0; 1; 1; 0]%nat
                       (initial 2 freshServer badWorld))) = [].
Proof.
  destruct (@cache_hits_never_block toyX509 2 freshServer badWorld [x01; x02]
              (afterSchedule [0; 1; 0; 1; 1; 0]%nat (initial 2 freshServer badWorld)) eq_refl)
    as (_ & _ & _ & Htrace & _ & _ & Hfin).
  - intros i. reflexivity.
  - apply (runSchedule_rtc [0; 1; 0; 1; 1; 0]%nat). vm_compute. reflexivity.
  - split; [apply Hfin, finished_forallb; vm_compute; reflexivity | exact Htrace].
Defined.

(** X14 (every request returns and frees the lock).  Whatever the server
    and the world are - also when the regeneration fails, since the
    exclusive lock is released by a deferred call - while a request has not
    returned some goroutine can step, no run of [N] requests is longer than
    [15 * N] steps, and once all have returned no goroutine holds the lock
    in either way: a failure leaves nothing locked for the requests that
    follow. *)
Theorem requests_always_return `{X509} N s w :
  (forall sys, rtc sysStep (initial N s w) sys ->
     (~ finished sys -> exists sys', sysStep sys sys')
     /\ (finished sys -> mutex sys = mkRWMutex 0 false))
  /\ (forall n sys, nsteps sysStep n (initial N s w) sys -> (n <= 15 * N)%nat).
Proof.
  split.
  - intros sys Hrtc. pose proof (lockHeld_reachable N s w sys Hrtc) as Hlock.
    split; [by apply progress|].
    intros Hfin. destruct Hlock as (Hr & Hw & _).
    rewrite (count_done holdsShared) in Hr by done.
    rewrite (count_done holdsExclusive) in Hw by done.
    destruct (mutex sys) as [r wr]. cbn [readers writer] in *. subst r.
    by destruct wr.
  - intros n sys Hn. pose proof (run_bounded N s w n sys Hn). lia.
Qed.

Lemma requests_always_return_witness :
  mutex (@afterSchedule toyX509 oneThenOther (initial 2 newServer badWorld))
  = mkRWMutex 0 false.
Proof.
  destruct (@requests_always_return toyX509 2 newServer badWorld) as [Hret _].
  apply Hret.
  - apply (runSchedule_rtc oneThenOther). vm_compute. reflexivity.
  - apply finished_forallb. vm_compute. reflexivity.
Defined.

(** ** Across a restart *)






(** X16 (numbers increase across a restart).  Let the server hold an
    artifact whose cache time is the Unix second of its number - what
    recovery restores of a pair that [saveCachedCRL] wrote for a regenerated
    artifact - under a clock that does not go backwards and whose readings
    have Unix seconds in [int64].  A request that finds the cache stale at
    both of its checks and returns without error installs a number greater
    than the one the server held. *)
Theorem numbers_increase_after_recovery `{X509} s w crl n :
  monotoneClock (w_clock w) ->
  saneClock (w_clock w) ->
  cachedCRL s = Some crl ->
  cacheNumber s = Some n ->
  cacheTime s = time.Unix n ->
  strconv.minInt64 <= n + time.unixToInternal <= strconv.maxInt64 ->
  triggers s w = true ->
  is_ok (getCRL s w).1.1 = true ->
  exists m, cacheNumber (getCRL s w).1.2 = Some m /\ n < m.
Proof.
  intros Hmono Hsane Hcrl Hnum Htime Hn Ht Hok.
  destruct (getCRL s w) as [[r s'] w'] eqn:Hget. cbn [fst snd] in *.
  destruct (getCRL_step _ _ _ _ _ Hmono Hget)
    as [_ [(Hno & _)|(crlBytes & k & _ & _ & _ & -> & _ & Hold)]].
  { by rewrite Ht, Hok in Hno. }
  eexists. split; [reflexivity|].
  specialize (Hold crl Hcrl). rewrite Htime in Hold.
  unfold time.Unix in Hold. rewrite wrap64_id in Hold by done.
  unfold time.ToUnix. rewrite wrap64_id by apply Hsane.
  unfold cacheDuration, time.Hour, time.Second in *.
  assert (n + 3600 <= w_clock w k / 1000000000); [|lia].
  apply Z.div_le_lower_bound; lia.
Qed.

Lemma numbers_increase_after_recovery_witness :
  exists m,
    cacheNumber (@getCRL toyX509 agedServer hourlyWorld).1.2 = Some m /\ 1699996400 < m.
Proof.
  apply (@numbers_increase_after_recovery toyX509 agedServer hourlyWorld [x00] 1699996400).
  - exact hourlyClock_monotone.
  - exact hourlyClock_sane.
  - reflexivity.
  - reflexivity.
  - vm_compute. reflexivity.
  - split; by vm_compute.
  - vm_compute. reflexivity.
  - vm_compute. reflexivity.
Defined.
